(** * relay-compiler-run: the [run] command wrapper of src/run.js

    A shallow embedding of [run] and of its helpers ([buildWatchExpression],
    [getFilepathsFromGlob], [getRelayFileWriter], [getSchema],
    [hasWatchmanRootFile], [getLanguagePlugin]).

    The program is glue code around Node's [path], [fs] and [process]
    modules, the graphql library and the relay compiler.  None of these is
    part of the repository:
    - Node's [path] module is an interface ([path.ops]); a model of its POSIX
      flavour ([posix]) instantiates it;
    - the graphql and relay-compiler functions are the fields of a
      [Library];
    - the machine the program runs on (working directory, file system,
      module registry, watchman, what the engine answers) is a [World];
    - every call that leaves the program is recorded, in order, in a trace
      of [event]s, and a computation ends by returning, by throwing, or by
      [process.exit].

    The definitions come first: the model of the libraries, the program,
    what the specification says in its own words, and the predicates on
    runs.  Then the facts: about [trim] and [dirname], about the helpers,
    about [run] (option checks, schema loader, plugin resolver, searches,
    exit codes), and last the same facts at work on a small POSIX
    installation. *)

From Stdlib Require Import Ascii String List Bool Arith Lia.
From stdpp Require Import gmap strings.
Import ListNotations.

Local Open Scope list_scope.

(** ** JavaScript strings

    Strings are byte strings.  [trim] strips the ASCII white space and line
    terminators only. *)

Module JsString.

Definition dquote : string := String "034"%char EmptyString.

Definition startsWith (s pre : string) : bool := String.prefix pre s.

Definition rev (s : string) : string :=
  string_of_list_ascii (List.rev (list_ascii_of_string s)).

Definition endsWith (s suf : string) : bool :=
  String.prefix (rev suf) (rev s).

Fixpoint includes (s sub : string) : bool :=
  String.prefix sub s ||
  match s with
  | EmptyString => false
  | String _ s' => includes s' sub
  end.

Definition isWhiteSpace (c : ascii) : bool :=
  let n := nat_of_ascii c in
  ((9 <=? n) && (n <=? 13)) || (n =? 32).

Fixpoint trimStart (s : string) : string :=
  match s with
  | EmptyString => EmptyString
  | String c s' => if isWhiteSpace c then trimStart s' else s
  end.

Definition trimEnd (s : string) : string := rev (trimStart (rev s)).

Definition trim (s : string) : string := trimEnd (trimStart s).

(** [Array.prototype.join] on an array of strings. *)
Definition join (sep : string) (l : list string) : string :=
  String.concat sep l.

End JsString.

(** ** Node's [path] module

    [resolve cwd p] stands for [path.resolve(process.cwd(), p)], the only
    way the program calls it.  [height] bounds the number of [dirname]
    steps to a directory that is its own parent. *)

Module path.

Class ops := {
  resolve : string -> string -> string;
  relative : string -> string -> string;
  dirname : string -> string;
  join : string -> string -> string;
  extname : string -> string;
  height : string -> nat;
  dirname_height :
    forall p, dirname p <> p -> height (dirname p) < height p
}.

End path.

(** ** The POSIX flavour of [path]

    After lib/path.js of Node: [dirname] and [extname] scan the characters
    as Node does; [normalizeString] is given on the list of segments. *)

Module Posix.

Definition slash : ascii := "/"%char.
Definition dot : ascii := "."%char.

Definition isSlash (c : ascii) : bool := Ascii.eqb c slash.

Fixpoint dropWhile {A} (f : A -> bool) (l : list A) : list A :=
  match l with
  | [] => []
  | x :: l' => if f x then dropWhile f l' else l
  end.

(** [dirname]: scanning from the right over the indices [>= 1], skip the
    trailing separators, then the last segment; the separator found next
    is at index [end]. *)
Definition dirname_chars (l : list ascii) : list ascii :=
  match l with
  | [] => [dot]
  | c0 :: rest =>
      let hasRoot := isSlash c0 in
      let r1 := dropWhile isSlash (List.rev rest) in
      let r2 := dropWhile (fun c => negb (isSlash c)) r1 in
      match r2 with
      | [] => if hasRoot then [slash] else [dot]
      | _ :: before =>
          if hasRoot && (List.length r2 =? 1) then [slash; slash]
          else c0 :: List.rev before
      end
  end.

Definition dirname (p : string) : string :=
  string_of_list_ascii (dirname_chars (list_ascii_of_string p)).

(** Segments between separators. *)
Fixpoint split_aux (l cur : list ascii) : list (list ascii) :=
  match l with
  | [] => [List.rev cur]
  | c :: l' =>
      if isSlash c then List.rev cur :: split_aux l' []
      else split_aux l' (c :: cur)
  end.

Definition split (l : list ascii) : list (list ascii) := split_aux l [].

Definition seg_eqb (a b : list ascii) : bool :=
  String.eqb (string_of_list_ascii a) (string_of_list_ascii b).

(** One segment of [normalizeString]; [acc] holds the kept segments, the
    last one first. *)
Definition normalizeStep (allowAboveRoot : bool)
    (acc : list (list ascii)) (seg : list ascii) : list (list ascii) :=
  if seg_eqb seg [] || seg_eqb seg [dot] then acc
  else if seg_eqb seg [dot; dot] then
    match acc with
    | top :: acc' =>
        if seg_eqb top [dot; dot]
        then if allowAboveRoot then seg :: acc else acc
        else acc'
    | [] => if allowAboveRoot then [seg] else []
    end
  else seg :: acc.

Definition normalizeSegments (allowAboveRoot : bool) (l : list ascii)
    : list (list ascii) :=
  List.rev (fold_left (normalizeStep allowAboveRoot) (split l) []).

Fixpoint joinSegments (segs : list (list ascii)) : list ascii :=
  match segs with
  | [] => []
  | [s] => s
  | s :: segs' => s ++ slash :: joinSegments segs'
  end.

Definition normalizeString (allowAboveRoot : bool) (p : string) : string :=
  string_of_list_ascii
    (joinSegments (normalizeSegments allowAboveRoot (list_ascii_of_string p))).

Definition isAbsolute (p : string) : bool :=
  match p with
  | String c _ => isSlash c
  | EmptyString => false
  end.

Definition lastIsSlash (p : string) : bool :=
  match List.rev (list_ascii_of_string p) with
  | c :: _ => isSlash c
  | [] => false
  end.

Definition normalize (p : string) : string :=
  if String.eqb p "" then "."
  else
    let n := normalizeString (negb (isAbsolute p)) p in
    if String.eqb n "" then
      if isAbsolute p then "/" else if lastIsSlash p then "./" else "."
    else
      let n' := if lastIsSlash p then n +:+ "/" else n in
      if isAbsolute p then "/" +:+ n' else n'.

Definition join (a b : string) : string :=
  let joined :=
    if String.eqb a "" then b
    else if String.eqb b "" then a
    else a +:+ "/" +:+ b in
  if String.eqb joined "" then "." else normalize joined.

(** [path.resolve(cwd, p)] where [cwd] is also what [process.cwd()]
    answers when neither argument is absolute. *)
Definition resolve (cwd p : string) : string :=
  let r1 := if String.eqb p "" then "" else p +:+ "/" in
  if isAbsolute p then "/" +:+ normalizeString false r1
  else
    let r2 := if String.eqb cwd "" then r1 else cwd +:+ "/" +:+ r1 in
    if isAbsolute cwd then "/" +:+ normalizeString false r2
    else
      let r3 := if String.eqb cwd "" then r2 else cwd +:+ "/" +:+ r2 in
      let n := normalizeString true r3 in
      if String.eqb n "" then "." else n.

Fixpoint dropCommon (a b : list (list ascii))
    : list (list ascii) * list (list ascii) :=
  match a, b with
  | x :: a', y :: b' => if seg_eqb x y then dropCommon a' b' else (a, b)
  | _, _ => (a, b)
  end.

(** [path.relative] of two absolute paths: one [..] for each segment of
    [from] below the common directory, then the rest of [to]. *)
Definition relative (from to : string) : string :=
  if String.eqb from to then ""
  else
    let f := normalizeSegments false (list_ascii_of_string from) in
    let t := normalizeSegments false (list_ascii_of_string to) in
    let '(f', t') := dropCommon f t in
    string_of_list_ascii
      (joinSegments (List.map (fun _ => [dot; dot]) f' ++ t')).

(** [extname]: the state of Node's scan from the right. *)
Record extState := {
  startDot : option nat;
  endPart : option nat;
  matchedSlash : bool;
  preDotState : Z;
  stopped : option nat   (* startPart, once the separator is met *)
}.

Definition extStep (st : extState) (ic : nat * ascii) : extState :=
  let '(i, c) := ic in
  match stopped st with
  | Some _ => st
  | None =>
      if isSlash c then
        if matchedSlash st then st
        else {| startDot := startDot st; endPart := endPart st;
                matchedSlash := false; preDotState := preDotState st;
                stopped := Some (S i) |}
      else
        let e := match endPart st with Some e => Some e | None => Some (S i) end in
        if Ascii.eqb c dot then
          match startDot st with
          | None =>
              {| startDot := Some i; endPart := e; matchedSlash := false;
                 preDotState := preDotState st; stopped := None |}
          | Some _ =>
              {| startDot := startDot st; endPart := e; matchedSlash := false;
                 preDotState := 1%Z; stopped := None |}
          end
        else
          {| startDot := startDot st; endPart := e; matchedSlash := false;
             preDotState :=
               match startDot st with
               | Some _ => (-1)%Z
               | None => preDotState st
               end;
             stopped := None |}
  end.

Fixpoint indexed {A} (i : nat) (l : list A) : list (nat * A) :=
  match l with
  | [] => []
  | x :: l' => (i, x) :: indexed (S i) l'
  end.

Definition extname (p : string) : string :=
  let l := list_ascii_of_string p in
  let st :=
    fold_left extStep (List.rev (indexed 0 l))
      {| startDot := None; endPart := None; matchedSlash := true;
         preDotState := 0%Z; stopped := None |} in
  let startPart := match stopped st with Some n => n | None => 0 end in
  match startDot st, endPart st with
  | Some sd, Some e =>
      if (preDotState st =? 0)%Z
         || ((preDotState st =? 1)%Z && (sd =? e - 1) && (sd =? startPart + 1))
      then ""
      else string_of_list_ascii (firstn (e - sd) (skipn sd l))
  | _, _ => ""
  end.

(** The fixed points of [dirname] are the root and the current
    directory. *)
Definition height (p : string) : nat :=
  if String.eqb p "/" || String.eqb p "." then 0
  else 2 + String.length p.

End Posix.

(** ** Errors and outcomes *)

Record JsError := { message : string; stack : string }.

Definition Res (A : Type) : Type := JsError + A.

Inductive Outcome (A : Type) : Type :=
| Returned (a : A)          (* normal completion *)
| Threw (e : JsError)       (* an exception, or a rejected promise *)
| Exited (code : nat)       (* process.exit(code) *)
| OutOfFuel.                (* a loop of the model ran out of steps *)

Arguments Returned {A} a.
Arguments Threw {A} e.
Arguments Exited {A} code.
Arguments OutOfFuel {A}.

(** ** The run options *)

Module Options.
Record t := {
  schema : string;
  src : string;
  extensions : option (list string);
  include : list string;
  exclude : list string;
  verbose : bool;
  watchman : bool;
  watch : option bool;
  validate : bool;
  quiet : bool;
  noFutureProofEnums : bool;
  language : string;
  artifactDirectory : option string;
  customScalars : gmap string string
}.
End Options.

Module SearchOptions.
Record t := {
  extensions : list string;
  include : list string;
  exclude : list string
}.
End SearchOptions.

(** A watchman expression: nested arrays of strings. *)
#[warnings="-register-all"]
Inductive WatchExpression :=
| WStr (s : string)
| WArr (items : list WatchExpression).

(** ** The libraries the program is linked with

    graphql ([JSON_parse] to [buildASTSchema], where [buildASTSchema] is
    called with [assumeValid: true]), relay-compiler and graphql-compiler.
    A function that may throw returns a [Res]. *)

Module Lib.
Class Library := {
Json : Type;
DocumentNode : Type;
GraphQLSchema : Type;
JSON_parse : string -> Res Json;
get_data : Json -> Res Json;                 (* the [data] property *)
buildClientSchema : Json -> Res GraphQLSchema;
printSchema : GraphQLSchema -> Res string;
parse : string -> Res DocumentNode;
buildASTSchema : DocumentNode -> Res GraphQLSchema;
FindGraphQLTags : Type;
FormatModule : Type;
TypeGenerator : Type;
FileFilter : Type;
GetParser : Type;
IRTransforms : Type;
SchemaExtensions : Type;
SourceControl : Type;
GetWriterOptions : Type;
RelaySourceModuleParser : FindGraphQLTags -> FileFilter * GetParser;
DotGraphQLParser_getParser : GetParser;
commonTransforms : IRTransforms;
codegenTransforms : IRTransforms;
fragmentTransforms : IRTransforms;
printTransforms : IRTransforms;
queryTransforms : IRTransforms;
schemaExtensions : SchemaExtensions
}.
End Lib.
Abbreviation Library := Lib.Library.

Module Plugin.
Record t `{Library} := {
  inputExtensions : list string;
  outputExtension : string;
  findGraphQLTags : Lib.FindGraphQLTags;
  formatModule : Lib.FormatModule;
  typeGenerator : Lib.TypeGenerator
}.
End Plugin.

(** What [require] can load, as far as [getLanguagePlugin] looks at it:
    whether it is null or undefined, its [default] property ([Undefined]
    when it has none), and whether it is a function (then, what calling it
    with no argument does). *)
Inductive JsValue `{Library} :=
| Undefined
| Null
| Primitive (truthy : bool)
| Object (default : JsValue)
| Function (call : Res Plugin.t) (default : JsValue).

Module ConsoleReporter.
Record t := { verbose : bool; quiet : bool }.
End ConsoleReporter.

Module ParserConfig.
Record t `{Library} := {
  baseDir : string;
  getFileFilter : option Lib.FileFilter;
  getParser : Lib.GetParser;
  getSchema : Lib.GraphQLSchema;                   (* what [() => schema] returns *)
  watchmanExpression : option WatchExpression;
  filepaths : option (list string)
}.
End ParserConfig.

Module CompilerTransforms.
Record t `{Library} := {
  commonTransforms : Lib.IRTransforms;
  codegenTransforms : Lib.IRTransforms;
  fragmentTransforms : Lib.IRTransforms;
  printTransforms : Lib.IRTransforms;
  queryTransforms : Lib.IRTransforms
}.
End CompilerTransforms.

Module WriterFileConfig.
Record t `{Library} := {
  baseDir : string;
  compilerTransforms : CompilerTransforms.t;
  customScalars : gmap string string;
  formatModule : Lib.FormatModule;
  inputFieldWhiteListForFlow : list string;
  schemaExtensions : Lib.SchemaExtensions;
  useHaste : bool;
  noFutureProofEnums : bool;
  extension : string;
  typeGenerator : Lib.TypeGenerator;
  outputDir : option string
}.
End WriterFileConfig.

(** The arguments of [new RelayFileWriter]: the configuration, and the
    writer options handed over as they came. *)
Module RelayFileWriter.
Record t `{Library} := {
  config : WriterFileConfig.t;
  options : Lib.GetWriterOptions
}.
End RelayFileWriter.

Module WriterConfig.
Record t `{Library} := {
  getWriter : Lib.GetWriterOptions -> RelayFileWriter.t;
  isGeneratedFile : string -> bool;
  parser : string;
  baseParsers : list string
}.
End WriterConfig.

(** The arguments of [new CodegenRunner]. *)
Module CodegenRunner.
Record t `{Library} := {
  reporter : ConsoleReporter.t;
  parserConfigs : gmap string ParserConfig.t;
  writerConfigs : gmap string WriterConfig.t;
  onlyValidate : bool;
  sourceControl : option Lib.SourceControl
}.
End CodegenRunner.

(** ** The machine *)

Module World.
Record t `{Library} := {
cwd : string;                                  (* process.cwd() *)
existsSync : string -> bool;
readFileSync : string -> Res string;
require : string -> Res JsValue;
watchmanIsAvailable : bool;
globSync : list string -> string -> list string -> Res (list string);
compileAll : CodegenRunner.t -> Res (option string);
watchAll : CodegenRunner.t -> Res (option string);
captureStack : string -> string;               (* the stack of [new Error(msg)] *)
nullishTypeError : JsError;                    (* reading a property of null *)
RelayLanguagePluginJavascript : Plugin.t       (* what [new] of it builds *)
}.
End World.

(** Calls that leave the program, in the order they are made. *)
Inductive event `{Library} :=
| ExistsSync (p : string)
| ReadFileSync (p : string)
| JsonParse (text : string)
| BuildClientSchema (j : Lib.Json)
| PrintSchema (s : Lib.GraphQLSchema)
| Parse (text : string)
| BuildASTSchema (d : Lib.DocumentNode)
| Require (p : string)
| NewConsoleReporter (r : ConsoleReporter.t)
| WatchmanIsAvailable
| GlobSync (patterns : list string) (cwd : string) (ignore : list string)
| NewCodegenRunner (args : CodegenRunner.t)
| ConsoleLog (msg : string)
| CompileAll (runner : CodegenRunner.t)
| WatchAll (runner : CodegenRunner.t)
| Exit (code : nat).

(** ** The monad of the program: a world to read, a trace to extend *)

Definition M `{Library} (A : Type) : Type :=
  World.t -> list event -> Outcome A * list event.

Definition ret `{Library} {A} (a : A) : M A := fun _ tr => (Returned a, tr).

Definition bind `{Library} {A B} (m : M A) (k : A -> M B) : M B :=
  fun w tr =>
    match m w tr with
    | (Returned a, tr') => k a w tr'
    | (Threw e, tr') => (Threw e, tr')
    | (Exited c, tr') => (Exited c, tr')
    | (OutOfFuel, tr') => (OutOfFuel, tr')
    end.

Declare Scope js_scope.
Delimit Scope js_scope with js.
Notation "x <- m ;; k" := (bind m (fun x => k))
  (at level 100, m at next level, right associativity) : js_scope.
Notation "m ;;; k" := (bind m (fun _ => k))
  (at level 100, right associativity) : js_scope.
Local Open Scope js_scope.

Definition emit `{Library} (e : event) : M unit :=
  fun _ tr => (Returned tt, tr ++ [e]).

Definition throw `{Library} {A} (e : JsError) : M A := fun _ tr => (Threw e, tr).

Definition outOfFuel `{Library} {A} : M A := fun _ tr => (OutOfFuel, tr).

Definition ask `{Library} {A} (f : World.t -> A) : M A :=
  fun w tr => (Returned (f w), tr).

Definition lift `{Library} {A} (r : Res A) : M A :=
  match r with
  | inl e => throw e
  | inr a => ret a
  end.

(** [new Error(msg)] *)
Definition newError `{Library} (w : World.t) (msg : string) : JsError :=
  {| message := msg; stack := World.captureStack w msg |}.

Definition Error `{Library} (msg : string) : M JsError :=
  ask (fun w => newError w msg).

Definition throwNew `{Library} {A} (msg : string) : M A :=
  e <- Error msg ;; throw e.

(** [try { body } catch (error) { handler }] *)
Definition try_catch `{Library} {A} (body : M A) (handler : JsError -> M A) : M A :=
  fun w tr =>
    match body w tr with
    | (Threw e, tr') => handler e w tr'
    | r => r
    end.

Definition when `{Library} (b : bool) (m : M unit) : M unit :=
  if b then m else ret tt.

(** Truthiness of an optional boolean such as [options.watch]. *)
Definition truthy (b : option bool) : bool :=
  match b with
  | Some true => true
  | _ => false
  end.

Module process.
Definition cwd `{Library} : M string := ask World.cwd.
Definition exit `{Library} {A} (code : nat) : M A :=
  fun _ tr => (Exited code, tr ++ [Exit code]).
End process.

Module fs.
Definition existsSync `{Library} (p : string) : M bool :=
  emit (ExistsSync p) ;;; ask (fun w => World.existsSync w p).
Definition readFileSync `{Library} (p : string) : M string :=
  emit (ReadFileSync p) ;;;
  r <- ask (fun w => World.readFileSync w p) ;; lift r.
End fs.

Module console.
Definition log `{Library} (msg : string) : M unit := emit (ConsoleLog msg).
End console.

Module WatchmanClient.
Definition isAvailable `{Library} : M bool :=
  emit WatchmanIsAvailable ;;; ask World.watchmanIsAvailable.
End WatchmanClient.

(** The methods of the engine built by [new CodegenRunner]. *)
Module codegenRunner.
Definition create `{Library} (args : CodegenRunner.t) : M CodegenRunner.t :=
  emit (NewCodegenRunner args) ;;; ret args.
Definition compileAll `{Library} (runner : CodegenRunner.t) : M (option string) :=
  emit (CompileAll runner) ;;;
  r <- ask (fun w => World.compileAll w runner) ;; lift r.
Definition watchAll `{Library} (runner : CodegenRunner.t) : M (option string) :=
  emit (WatchAll runner) ;;;
  r <- ask (fun w => World.watchAll w runner) ;; lift r.
End codegenRunner.

(** [result === tag], where [None] is [undefined]. *)
Definition strictEq (result : option string) (tag : string) : bool :=
  match result with
  | Some s => String.eqb s tag
  | None => false
  end.

Module JSON.
Definition parse `{Library} (text : string) : M Lib.Json :=
  emit (JsonParse text) ;;; lift (Lib.JSON_parse text).
End JSON.

Definition buildClientSchema `{Library} (j : Lib.Json) : M Lib.GraphQLSchema :=
  emit (BuildClientSchema j) ;;; lift (Lib.buildClientSchema j).

Definition printSchema `{Library} (s : Lib.GraphQLSchema) : M string :=
  emit (PrintSchema s) ;;; lift (Lib.printSchema s).

Definition parse `{Library} (text : string) : M Lib.DocumentNode :=
  emit (Parse text) ;;; lift (Lib.parse text).

Definition buildASTSchema `{Library} (d : Lib.DocumentNode) : M Lib.GraphQLSchema :=
  emit (BuildASTSchema d) ;;; lift (Lib.buildASTSchema d).

(** ** The program *)

Section Program.

Context {L : Library} {P : path.ops}.

Definition nl : string := String "010"%char EmptyString.

Definition buildWatchExpression (options : SearchOptions.t) : WatchExpression :=
  WArr
    ([ WStr "allof";
       WArr [WStr "type"; WStr "f"];
       WArr (WStr "anyof"
             :: map (fun ext => WArr [WStr "suffix"; WStr ext])
                  (SearchOptions.extensions options));
       WArr (WStr "anyof"
             :: map (fun include => WArr [WStr "match"; WStr include; WStr "wholename"])
                  (SearchOptions.include options)) ]
     ++ map (fun exclude =>
               WArr [WStr "not"; WArr [WStr "match"; WStr exclude; WStr "wholename"]])
          (SearchOptions.exclude options)).

Definition getFilepathsFromGlob (baseDir : string) (options : SearchOptions.t)
    : M (list string) :=
  let extensions := SearchOptions.extensions options in
  let include := SearchOptions.include options in
  let exclude := SearchOptions.exclude options in
  let patterns :=
    map (fun inc => inc +:+ "/*.+(" +:+ JsString.join "|" extensions +:+ ")")
      include in
  emit (Require "fast-glob") ;;;
  loaded <- ask (fun w => World.require w "fast-glob") ;;
  glob <- lift loaded ;;
  (* [glob.sync]: what is loaded under this name is taken to be fast-glob *)
  emit (GlobSync patterns baseDir exclude) ;;;
  r <- ask (fun w => World.globSync w patterns baseDir exclude) ;;
  lift r.

Definition getRelayFileWriter (baseDir : string) (languagePlugin : Plugin.t)
    (customScalars : gmap string string) (noFutureProofEnums : bool)
    (outputDir : option string) : Lib.GetWriterOptions -> RelayFileWriter.t :=
  fun writerOptions =>
    {| RelayFileWriter.config :=
         {| WriterFileConfig.baseDir := baseDir;
            WriterFileConfig.compilerTransforms :=
              {| CompilerTransforms.commonTransforms := Lib.commonTransforms;
                 CompilerTransforms.codegenTransforms := Lib.codegenTransforms;
                 CompilerTransforms.fragmentTransforms := Lib.fragmentTransforms;
                 CompilerTransforms.printTransforms := Lib.printTransforms;
                 CompilerTransforms.queryTransforms := Lib.queryTransforms |};
            WriterFileConfig.customScalars := customScalars;
            WriterFileConfig.formatModule := Plugin.formatModule languagePlugin;
            WriterFileConfig.inputFieldWhiteListForFlow := [];
            WriterFileConfig.schemaExtensions := Lib.schemaExtensions;
            WriterFileConfig.useHaste := false;
            WriterFileConfig.noFutureProofEnums := noFutureProofEnums;
            WriterFileConfig.extension := Plugin.outputExtension languagePlugin;
            WriterFileConfig.typeGenerator := Plugin.typeGenerator languagePlugin;
            WriterFileConfig.outputDir := outputDir |};
       RelayFileWriter.options := writerOptions |}.

(** The text put in front of the schema source, and behind it. *)
Definition schemaPrelude : string :=
  nl +:+ "  directive @include(if: Boolean) on FRAGMENT_SPREAD | FIELD" +:+
  nl +:+ "  directive @skip(if: Boolean) on FRAGMENT_SPREAD | FIELD" +:+
  nl +:+ nl +:+ "  ".

Definition schemaEpilogue : string := nl +:+ "  ".

Definition getSchema (schemaPath : string) : M Lib.GraphQLSchema :=
  try_catch
    (source <- fs.readFileSync schemaPath ;;
     source <-
       (if String.eqb (path.extname schemaPath) ".json" then
          json <- JSON.parse source ;;
          data <- lift (Lib.get_data json) ;;
          clientSchema <- buildClientSchema data ;;
          printSchema clientSchema
        else ret source) ;;
     let source := schemaPrelude +:+ source +:+ schemaEpilogue in
     document <- parse source ;;
     buildASTSchema document)
    (fun error =>
       throwNew
         (JsString.trim
            (nl +:+ "Error loading schema. Expected the schema to be a .graphql or a .json" +:+
             nl +:+ "file, describing your GraphQL server's API. Error detail:" +:+
             nl +:+ nl +:+ stack error +:+
             nl +:+ "    "))).

Definition WATCHMAN_ROOT_FILES : list string := [".git"; ".hg"; ".watchmanconfig"].

(** [Array.prototype.some]: stops at the first element that satisfies
    the callback. *)
Fixpoint some {A} (f : A -> M bool) (l : list A) : M bool :=
  match l with
  | [] => ret false
  | x :: l' => b <- f x ;; if b then ret true else some f l'
  end.

(** The [while] loop of [hasWatchmanRootFile], one iteration per unit of
    fuel. *)
Fixpoint hasWatchmanRootFile_loop (fuel : nat) (testPath : string) : M bool :=
  match fuel with
  | O => outOfFuel
  | S fuel' =>
      if negb (String.eqb (path.dirname testPath) testPath) then
        found <- some (fun file => fs.existsSync (path.join testPath file))
                   WATCHMAN_ROOT_FILES ;;
        if found then ret true
        else hasWatchmanRootFile_loop fuel' (path.dirname testPath)
      else ret false
  end.

Definition hasWatchmanRootFile (testPath : string) : M bool :=
  hasWatchmanRootFile_loop (S (path.height testPath)) testPath.

(** What the callback of [some] finds out about one directory: whether
    it has an entry named as one of [WATCHMAN_ROOT_FILES]. *)
Definition containsRootFile (w : World.t) (dir : string) : bool :=
  existsb (fun file => World.existsSync w (path.join dir file))
    WATCHMAN_ROOT_FILES.

(** The directory [n] levels above [p]. *)
Definition ancestor (n : nat) (p : string) : string :=
  Nat.iter n path.dirname p.

Definition isTruthy (v : JsValue) : bool :=
  match v with
  | Undefined | Null => false
  | Primitive b => b
  | Object _ | Function _ _ => true
  end.

(** [v.default] *)
Definition get_default (v : JsValue) : M JsValue :=
  match v with
  | Undefined | Null => e <- ask World.nullishTypeError ;; throw e
  | Primitive _ => ret Undefined
  | Object d => ret d
  | Function _ d => ret d
  end.

Definition getLanguagePlugin (language : string) : M Plugin.t :=
  if String.eqb language "javascript" then
    ask World.RelayLanguagePluginJavascript
  else
    cwd <- process.cwd ;;
    let pluginPath := path.resolve cwd language in
    pluginExists <- fs.existsSync pluginPath ;;
    let requirePath :=
      if pluginExists then pluginPath
      else "relay-compiler-language-" +:+ language in
    try_catch
      (emit (Require requirePath) ;;;
       loaded <- ask (fun w => World.require w requirePath) ;;
       languagePlugin <- lift loaded ;;
       default <- get_default languagePlugin ;;
       let languagePlugin :=
         if isTruthy default then default else languagePlugin in
       match languagePlugin with
       | Function call _ => lift call
       | _ => throwNew "Expected plugin to export a function."
       end)
      (fun err =>
         e <- Error ("Unable to load language plugin " +:+ requirePath +:+ ": "
                     +:+ message err) ;;
         throw {| message := message e; stack := stack err |}).

(** The constants [sourceSearchOptions] and [graphqlSearchOptions] of
    [run]. *)
Definition sourceSearchOptions (options : Options.t)
    (inputExtensions : list string) : SearchOptions.t :=
  {| SearchOptions.extensions := inputExtensions;
     SearchOptions.include := Options.include options;
     SearchOptions.exclude := "**/*.graphql.*" :: Options.exclude options |}.

Definition graphqlSearchOptions (options : Options.t)
    (srcDir schemaPath : string) : SearchOptions.t :=
  {| SearchOptions.extensions := ["graphql"];
     SearchOptions.include := Options.include options;
     SearchOptions.exclude :=
       [path.relative srcDir schemaPath] ++ Options.exclude options |}.

Definition rootFileMessage (srcDir : string) : string :=
  JsString.trim
    (nl +:+ "--watch requires that the src directory have a valid watchman "
        +:+ JsString.dquote +:+ "root" +:+ JsString.dquote +:+ " file." +:+
     nl +:+
     nl +:+ "Root files can include:" +:+
     nl +:+ "- A .git/ Git folder" +:+
     nl +:+ "- A .hg/ Mercurial folder" +:+
     nl +:+ "- A .watchmanconfig file" +:+
     nl +:+
     nl +:+ "Ensure that one such file exists in " +:+ srcDir +:+ " or its parents." +:+
     nl +:+ "    ").

Definition run (options : Options.t) : M unit :=
  cwd <- process.cwd ;;
  let schemaPath := path.resolve cwd (Options.schema options) in
  schemaExists <- fs.existsSync schemaPath ;;
  when (negb schemaExists)
    (throwNew ("--schema path does not exist: " +:+ schemaPath +:+ ".")) ;;;
  cwd <- process.cwd ;;
  let srcDir := path.resolve cwd (Options.src options) in
  srcExists <- fs.existsSync srcDir ;;
  when (negb srcExists)
    (throwNew ("--source path does not exist: " +:+ srcDir +:+ ".")) ;;;
  when (truthy (Options.watch options) && negb (Options.watchman options))
    (throwNew "Watchman is required to watch for changes.") ;;;
  noRootFile <-
    (if truthy (Options.watch options)
     then found <- hasWatchmanRootFile srcDir ;; ret (negb found)
     else ret false) ;;
  when noRootFile (throwNew (rootFileMessage srcDir)) ;;;
  when (Options.verbose options && Options.quiet options)
    (throwNew "I can't be quiet and verbose at the same time") ;;;

  let reporter :=
    {| ConsoleReporter.verbose := Options.verbose options;
       ConsoleReporter.quiet := Options.quiet options |} in
  emit (NewConsoleReporter reporter) ;;;

  useWatchman <-
    (if Options.watchman options then WatchmanClient.isAvailable else ret false) ;;

  schema <- getSchema schemaPath ;;

  languagePlugin <- getLanguagePlugin (Options.language options) ;;

  let inputExtensions :=
    match Options.extensions options with
    | Some extensions => extensions
    | None => Plugin.inputExtensions languagePlugin
    end in
  let outputExtension := Plugin.outputExtension languagePlugin in

  let sourceParserName := JsString.join "/" inputExtensions in
  let sourceWriterName := outputExtension in

  let sourceModuleParser :=
    Lib.RelaySourceModuleParser (Plugin.findGraphQLTags languagePlugin) in

  artifactDirectory <-
    match Options.artifactDirectory options with
    | Some providedArtifactDirectory =>
        cwd <- process.cwd ;;
        ret (Some (path.resolve cwd providedArtifactDirectory))
    | None => ret None
    end ;;

  let generatedDirectoryName :=
    match artifactDirectory with
    | Some d => if String.eqb d "" then "__generated__" else d
    | None => "__generated__"
    end in

  let sourceSearchOptions := sourceSearchOptions options inputExtensions in
  let graphqlSearchOptions := graphqlSearchOptions options srcDir schemaPath in

  sourceFilepaths <-
    (if useWatchman then ret None
     else filepaths <- getFilepathsFromGlob srcDir sourceSearchOptions ;;
          ret (Some filepaths)) ;;
  graphqlFilepaths <-
    (if useWatchman then ret None
     else filepaths <- getFilepathsFromGlob srcDir graphqlSearchOptions ;;
          ret (Some filepaths)) ;;

  let parserConfigs : gmap string ParserConfig.t :=
    <[ "graphql" :=
         {| ParserConfig.baseDir := srcDir;
            ParserConfig.getFileFilter := None;
            ParserConfig.getParser := Lib.DotGraphQLParser_getParser;
            ParserConfig.getSchema := schema;
            ParserConfig.watchmanExpression :=
              if useWatchman
              then Some (buildWatchExpression graphqlSearchOptions)
              else None;
            ParserConfig.filepaths := graphqlFilepaths |} ]>
    (<[ sourceParserName :=
         {| ParserConfig.baseDir := srcDir;
            ParserConfig.getFileFilter := Some (fst sourceModuleParser);
            ParserConfig.getParser := snd sourceModuleParser;
            ParserConfig.getSchema := schema;
            ParserConfig.watchmanExpression :=
              if useWatchman
              then Some (buildWatchExpression sourceSearchOptions)
              else None;
            ParserConfig.filepaths := sourceFilepaths |} ]> ∅) in
  let writerConfigs : gmap string WriterConfig.t :=
    {[ sourceWriterName :=
         {| WriterConfig.getWriter :=
              getRelayFileWriter srcDir languagePlugin
                (Options.customScalars options)
                (Options.noFutureProofEnums options)
                artifactDirectory;
            WriterConfig.isGeneratedFile := fun filePath =>
              JsString.endsWith filePath (".graphql." +:+ outputExtension)
              && JsString.includes filePath generatedDirectoryName;
            WriterConfig.parser := sourceParserName;
            WriterConfig.baseParsers := ["graphql"] |} ]} in
  runner <-
    codegenRunner.create
      {| CodegenRunner.reporter := reporter;
         CodegenRunner.parserConfigs := parserConfigs;
         CodegenRunner.writerConfigs := writerConfigs;
         CodegenRunner.onlyValidate := Options.validate options;
         CodegenRunner.sourceControl := None |} ;;
  when (negb (Options.validate options) && negb (truthy (Options.watch options))
        && Options.watchman options)
    (console.log "HINT: pass --watch to keep watching for changes.") ;;;
  result <-
    (if truthy (Options.watch options)
     then codegenRunner.watchAll runner
     else codegenRunner.compileAll runner) ;;

  when (strictEq result "ERROR") (process.exit 100) ;;;
  when (Options.validate options && negb (strictEq result "NO_CHANGES"))
    (process.exit 101).

End Program.

(** ** What the specification says of the directives

    The two declarations the schema loader is said to put in front of
    the schema: [include] and [skip], each with a single Boolean [if]
    argument, applicable to fragment spreads and fields; and how a
    declaration is written in the schema definition language. *)

Module Sdl.

Inductive DirectiveLocation := FRAGMENT_SPREAD | FIELD.

Record Argument := { argName : string; argType : string }.

Record DirectiveDeclaration := {
  name : string;
  arguments : list Argument;
  locations : list DirectiveLocation
}.

Definition printLocation (l : DirectiveLocation) : string :=
  match l with
  | FRAGMENT_SPREAD => "FRAGMENT_SPREAD"
  | FIELD => "FIELD"
  end.

Definition printArgument (a : Argument) : string :=
  argName a +:+ ": " +:+ argType a.

Definition printDeclaration (d : DirectiveDeclaration) : string :=
  "directive @" +:+ name d +:+
  "(" +:+ JsString.join ", " (map printArgument (arguments d)) +:+ ")" +:+
  " on " +:+ JsString.join " | " (map printLocation (locations d)).

Definition ifBoolean : Argument := {| argName := "if"; argType := "Boolean" |}.

Definition include : DirectiveDeclaration :=
  {| name := "include"; arguments := [ifBoolean];
     locations := [FRAGMENT_SPREAD; FIELD] |}.

Definition skip : DirectiveDeclaration :=
  {| name := "skip"; arguments := [ifBoolean];
     locations := [FRAGMENT_SPREAD; FIELD] |}.

End Sdl.

(** A loaded module that is a function, or whose [default] export is a
    function: what the specification asks of a language plugin. *)
Definition exportsFunction `{Library} (v : JsValue) : bool :=
  match v with
  | Function _ _ => true
  | Object (Function _ _) => true
  | _ => false
  end.

(** ** What a trace shows *)

Definition isEngineCall `{Library} (e : event) : bool :=
  match e with
  | NewCodegenRunner _ | CompileAll _ | WatchAll _ => true
  | _ => false
  end.

(** The trace has a call to the compile/watch engine. *)
Definition invokesEngine `{Library} (tr : list event) : bool :=
  existsb isEngineCall tr.

Definition isExistsSync `{Library} (e : event) : bool :=
  match e with
  | ExistsSync _ => true
  | _ => false
  end.

(** The calls [getSchema] makes. *)
Definition isSchemaCall `{Library} (e : event) : bool :=
  match e with
  | ReadFileSync _ | JsonParse _ | BuildClientSchema _ | PrintSchema _
  | Parse _ | BuildASTSchema _ => true
  | _ => false
  end.

(** The calls [getLanguagePlugin] makes. *)
Definition isPluginCall `{Library} (e : event) : bool :=
  match e with
  | ExistsSync _ | Require _ => true
  | _ => false
  end.

Definition isGlobSync `{Library} (e : event) : bool :=
  match e with
  | GlobSync _ _ _ => true
  | _ => false
  end.

(** The calls [getFilepathsFromGlob] makes. *)
Definition isSearchCall `{Library} (e : event) : bool :=
  match e with
  | Require _ | GlobSync _ _ _ => true
  | _ => false
  end.

(** ** What is said of computations *)

Section Predicates.

Context {L : Library} {P : path.ops}.

(** [m] appends to the trace the events it would append to the empty
    one, all of them satisfying [Q], and ends the same way. *)
Definition Emits {A} (Q : event -> bool) (m : M A) : Prop :=
  forall w tr,
    m w tr = (fst (m w []), tr ++ snd (m w []))
    /\ forallb Q (snd (m w [])) = true.

(** [m] does not run out of fuel. *)
Definition Total {A} (m : M A) : Prop :=
  forall w tr, fst (m w tr) <> OutOfFuel.

(** [Holds w Keep Post m]: started in [w] on a trace of [Keep] events,
    [m] ends in an outcome and a trace that satisfy [Post]. *)
Definition Holds {A} (w : World.t) (Keep : event -> bool)
    (Post : Outcome A -> list event -> Prop) (m : M A) : Prop :=
  forall tr0, forallb Keep tr0 = true ->
  forall out tr, m w tr0 = (out, tr) -> Post out tr.

(** [Post] holds of every trace of [Keep] events. *)
Definition Vacuous {A} (Keep : event -> bool)
    (Post : Outcome A -> list event -> Prop) : Prop :=
  forall out tr, forallb Keep tr = true -> Post out tr.

(** A directory that is not its own parent, among [p] and the
    directories above it, has a root file. *)
Definition rootFileBelowTop (w : World.t) (p : string) : Prop :=
  exists n,
    path.dirname (ancestor n p) <> ancestor n p
    /\ containsRootFile w (ancestor n p) = true.

(** The [patterns] of [getFilepathsFromGlob]. *)
Definition globPatterns (options : SearchOptions.t) : list string :=
  map (fun inc =>
         inc +:+ "/*.+(" +:+ JsString.join "|" (SearchOptions.extensions options)
             +:+ ")")
    (SearchOptions.include options).

(** The parser configuration [config] holds the search for [options]:
    the watch expression when watchman is used, else the paths the glob
    gave. *)
Definition searched (w : World.t) (useWatchman : bool) (srcDir : string)
    (options : SearchOptions.t) (config : ParserConfig.t) : Prop :=
  if useWatchman then
    ParserConfig.watchmanExpression config = Some (buildWatchExpression options)
    /\ ParserConfig.filepaths config = None
  else
    ParserConfig.watchmanExpression config = None
    /\ exists filepaths,
         World.globSync w (globPatterns options) srcDir
           (SearchOptions.exclude options) = inr filepaths
         /\ ParserConfig.filepaths config = Some filepaths.

Definition beforeSearches (e : event) : bool :=
  negb (isGlobSync e) && negb (isEngineCall e).

End Predicates.

(** ** [JsString.trim] on a text between white space *)

Module JsStringFacts.
Import JsString.

Lemma list_of_append (a b : string) :
  list_ascii_of_string (a +:+ b)
  = list_ascii_of_string a ++ list_ascii_of_string b.
Proof. induction a as [|c a IH]; [reflexivity | simpl; congruence]. Qed.

Lemma string_of_app (l1 l2 : list ascii) :
  string_of_list_ascii (l1 ++ l2)
  = string_of_list_ascii l1 +:+ string_of_list_ascii l2.
Proof.
  induction l1 as [|c l1 IH]; [reflexivity|].
  change (String c (string_of_list_ascii (l1 ++ l2))
          = String c (string_of_list_ascii l1 +:+ string_of_list_ascii l2)).
  f_equal. exact IH.
Qed.

Lemma append_assoc (a b c : string) : (a +:+ b) +:+ c = a +:+ b +:+ c.
Proof.
  induction a as [|x a IH]; [reflexivity|].
  change (String x ((a +:+ b) +:+ c) = String x (a +:+ b +:+ c)).
  f_equal. exact IH.
Qed.

Lemma trimStart_skip (ws rest : list ascii) (c : ascii) :
  forallb isWhiteSpace ws = true ->
  isWhiteSpace c = false ->
  trimStart (string_of_list_ascii (ws ++ c :: rest))
  = string_of_list_ascii (c :: rest).
Proof.
  intros Hws Hc. induction ws as [|x ws IH]; simpl in *.
  - rewrite Hc. reflexivity.
  - apply andb_true_iff in Hws as [Hx Hws]. rewrite Hx. auto.
Qed.

(** The white space after the last character that is not white space
    goes. *)
Lemma trimEnd_spaces (s ws : string) (c : ascii) :
  isWhiteSpace c = false ->
  forallb isWhiteSpace (list_ascii_of_string ws) = true ->
  trimEnd (s +:+ String c ws) = s +:+ String c EmptyString.
Proof.
  intros Hc Hws. unfold trimEnd, rev.
  rewrite list_of_append. cbn [list_ascii_of_string].
  rewrite rev_app_distr. cbn [List.rev]. rewrite <- app_assoc. cbn [app].
  rewrite trimStart_skip; [|rewrite forallb_forall in *; intros x Hx;
                             apply Hws, in_rev, Hx | exact Hc].
  rewrite list_ascii_of_string_of_list_ascii.
  cbn [List.rev]. rewrite rev_involutive, string_of_app.
  rewrite string_of_list_ascii_of_string. reflexivity.
Qed.

End JsStringFacts.

(** ** [Posix.dirname] reaches a directory that is its own parent *)

Module PosixFacts.
Import Posix.

Lemma length_dropWhile {A} (f : A -> bool) (l : list A) :
  List.length (dropWhile f l) <= List.length l.
Proof.
  induction l as [|x l IH]; simpl; [lia|].
  destruct (f x); simpl; lia.
Qed.

Lemma string_length_of_list (l : list ascii) :
  String.length (string_of_list_ascii l) = List.length l.
Proof. induction l; simpl; congruence. Qed.

(** After the trailing separators are dropped, the list does not start
    with a separator. *)
Lemma dropWhile_head (l : list ascii) :
  forall r, dropWhile isSlash l <> slash :: r.
Proof.
  induction l as [|x l IH]; intros r; simpl; [discriminate|].
  destruct (isSlash x) eqn:Hx; [apply IH|].
  intros Heq. injection Heq as -> _. discriminate.
Qed.

(** The last segment is not empty: what is left once it is dropped is
    strictly shorter. *)
Lemma dropWhile_segment (r1 : list ascii) (c : ascii) (before : list ascii) :
  (forall r, r1 <> slash :: r) ->
  dropWhile (fun c => negb (isSlash c)) r1 = c :: before ->
  List.length (c :: before) < List.length r1.
Proof.
  intros Hhead H. destruct r1 as [|x r1']; [discriminate|].
  simpl in H. destruct (isSlash x) eqn:Hx; simpl in H.
  - unfold isSlash in Hx. apply Ascii.eqb_eq in Hx. subst x.
    exfalso. apply (Hhead r1'). reflexivity.
  - rewrite <- H.
    pose proof (length_dropWhile (fun c => negb (isSlash c)) r1').
    simpl. lia.
Qed.

Lemma dirname_chars_shorter (l : list ascii) :
  dirname_chars l = [slash] \/ dirname_chars l = [dot]
  \/ List.length (dirname_chars l) < List.length l.
Proof.
  destruct l as [|c0 rest]; [right; left; reflexivity|].
  unfold dirname_chars.
  set (r1 := dropWhile isSlash (List.rev rest)).
  destruct (dropWhile (fun c => negb (isSlash c)) r1) as [|c before] eqn:Hr2.
  - destruct (isSlash c0); auto.
  - right; right.
    pose proof (dropWhile_segment r1 c before (dropWhile_head _) Hr2) as Hlt.
    pose proof (length_dropWhile isSlash (List.rev rest)) as Hle.
    fold r1 in Hle. rewrite length_rev in Hle.
    destruct (isSlash c0 && (List.length (c :: before) =? 1)) eqn:Hb;
      simpl in *.
    + lia.
    + rewrite length_rev. lia.
Qed.

Lemma dirname_height (p : string) :
  dirname p <> p -> height (dirname p) < height p.
Proof.
  intros Hne. unfold height at 2.
  destruct (String.eqb p "/") eqn:E1.
  { apply String.eqb_eq in E1. subst p. exfalso. apply Hne. reflexivity. }
  destruct (String.eqb p ".") eqn:E2.
  { apply String.eqb_eq in E2. subst p. exfalso. apply Hne. reflexivity. }
  simpl. unfold dirname.
  destruct (dirname_chars_shorter (list_ascii_of_string p)) as [H|[H|H]].
  - rewrite H. cbv [height string_of_list_ascii slash]. simpl. lia.
  - rewrite H. cbv [height string_of_list_ascii dot]. simpl. lia.
  - unfold height.
    destruct (_ || _); [lia|].
    rewrite string_length_of_list.
    rewrite <- (string_of_list_ascii_of_string p) at 2.
    rewrite string_length_of_list. lia.
Qed.

End PosixFacts.

#[global] Instance posix : path.ops := {|
  path.resolve := Posix.resolve;
  path.relative := Posix.relative;
  path.dirname := Posix.dirname;
  path.join := Posix.join;
  path.extname := Posix.extname;
  path.height := Posix.height;
  path.dirname_height := PosixFacts.dirname_height
|}.

(** ** A small installation, to run the program on

    A library whose values are texts: parsing and building keep the text
    they are given.  A POSIX machine with a project in [/app]. *)

Module Example.

#[local] Instance library : Library := {|
  Lib.Json := string;
  Lib.DocumentNode := string;
  Lib.GraphQLSchema := string;
  Lib.JSON_parse := fun text =>
    if JsString.startsWith text "{" then inr text
    else inl {| message := "Unexpected token"; stack := "SyntaxError: Unexpected token" |};
  Lib.get_data := inr;
  Lib.buildClientSchema := inr;
  Lib.printSchema := inr;
  Lib.parse := inr;
  Lib.buildASTSchema := inr;
  Lib.FindGraphQLTags := unit;
  Lib.FormatModule := unit;
  Lib.TypeGenerator := unit;
  Lib.FileFilter := unit;
  Lib.GetParser := unit;
  Lib.IRTransforms := unit;
  Lib.SchemaExtensions := unit;
  Lib.SourceControl := unit;
  Lib.GetWriterOptions := unit;
  Lib.RelaySourceModuleParser := fun _ => (tt, tt);
  Lib.DotGraphQLParser_getParser := tt;
  Lib.commonTransforms := tt;
  Lib.codegenTransforms := tt;
  Lib.fragmentTransforms := tt;
  Lib.printTransforms := tt;
  Lib.queryTransforms := tt;
  Lib.schemaExtensions := tt
|}.

Definition javascript : Plugin.t :=
  {| Plugin.inputExtensions := ["js"; "jsx"];
     Plugin.outputExtension := "js";
     Plugin.findGraphQLTags := tt;
     Plugin.formatModule := tt;
     Plugin.typeGenerator := tt |}.

Definition moduleNotFound (name : string) : JsError :=
  {| message := "Cannot find module '" +:+ name +:+ "'";
     stack := "Error: Cannot find module '" +:+ name +:+ "'" |}.

(** A machine given by the paths that exist on it, the text of its
    files, and what the engine answers.  Of the modules the program
    loads by name, fast-glob is installed; no language plugin is. *)
Definition machine (paths : list string) (files : list (string * string))
    (engine : option string) : World.t :=
  {| World.cwd := "/app";
     World.existsSync := fun p => existsb (String.eqb p) paths;
     World.readFileSync := fun p =>
       match List.find (fun f => String.eqb p (fst f)) files with
       | Some f => inr (snd f)
       | None =>
           inl {| message := "ENOENT: no such file or directory, open '" +:+ p +:+ "'";
                  stack := "Error: ENOENT: no such file or directory, open '" +:+ p +:+ "'" |}
       end;
     World.require := fun name =>
       if String.eqb name "fast-glob" then inr (Object Undefined)
       else inl (moduleNotFound name);
     World.watchmanIsAvailable := true;
     World.globSync := fun _ _ _ => inr ["App.js"];
     World.compileAll := fun _ => inr engine;
     World.watchAll := fun _ => inr None;
     World.captureStack := fun msg => "Error: " +:+ msg;
     World.nullishTypeError :=
       {| message := "Cannot read property 'default' of undefined";
          stack := "TypeError: Cannot read property 'default' of undefined" |};
     World.RelayLanguagePluginJavascript := javascript |}.

Definition optionsWith (schema : string) (verbose quiet : bool)
    (watch : option bool) (watchman validate : bool) (language : string)
    : Options.t :=
  {| Options.schema := schema;
     Options.src := "src";
     Options.extensions := None;
     Options.include := ["**"];
     Options.exclude := ["**/node_modules/**"; "**/__mocks__/**"; "**/__generated__/**"];
     Options.verbose := verbose;
     Options.watchman := watchman;
     Options.watch := watch;
     Options.validate := validate;
     Options.quiet := quiet;
     Options.noFutureProofEnums := false;
     Options.language := language;
     Options.artifactDirectory := None;
     Options.customScalars := ∅ |}.

(** The options of a plain one-shot run. *)
Definition options : Options.t :=
  optionsWith "schema.graphql" false false None false false "javascript".

Definition quietAndVerbose : Options.t :=
  optionsWith "schema.graphql" true true None false false "javascript".

Definition watching : Options.t :=
  optionsWith "schema.graphql" false false (Some true) true false "javascript".

Definition sdl : string := "type Query { me: String }".

Definition introspection : string :=
  "{" +:+ JsString.dquote +:+ "data" +:+ JsString.dquote +:+ ": {}}".

Definition files : list (string * string) :=
  [("/app/schema.graphql", sdl); ("/app/schema.json", introspection)].

(** The project: a schema and a source directory, no repository. *)
Definition project : list string := ["/app/schema.graphql"; "/app/src"].

(** The source directory without the schema. *)
Definition noSchema : list string := ["/app/src"].

(** A repository at the root of the file system. *)
Definition repositoryAtRoot : list string := ["/.git"; "/app"].

(** The project in a repository at the root of the file system. *)
Definition projectAtRoot : list string :=
  ["/.git"; "/app"; "/app/schema.graphql"; "/app/src"].

End Example.

(** ** Computations extend the trace and do not read it *)

Section Traces.

Context {L : Library}.

Lemma emits_inv {A} Q (m : M A) w tr o tr' :
  Emits Q m -> m w tr = (o, tr') ->
  exists new, tr' = tr ++ new /\ m w [] = (o, new) /\ forallb Q new = true.
Proof.
  intros Hm H. destruct (Hm w tr) as [Heq HQ].
  rewrite Heq in H. injection H as <- <-.
  exists (snd (m w [])). repeat split; auto.
  destruct (m w []); reflexivity.
Qed.

Lemma emits_weaken {A} (Q Q' : event -> bool) (m : M A) :
  (forall e, Q e = true -> Q' e = true) -> Emits Q m -> Emits Q' m.
Proof.
  intros HQ Hm w tr. destruct (Hm w tr) as [Heq Hall]. split; [exact Heq|].
  rewrite forallb_forall in *. auto.
Qed.

Lemma emits_ret {A} Q (a : A) : Emits Q (ret a).
Proof. intros w tr. simpl. rewrite app_nil_r. auto. Qed.

Lemma emits_throw {A} Q e : Emits Q (@throw _ A e).
Proof. intros w tr. simpl. rewrite app_nil_r. auto. Qed.

Lemma emits_outOfFuel {A} Q : Emits Q (@outOfFuel _ A).
Proof. intros w tr. simpl. rewrite app_nil_r. auto. Qed.

Lemma emits_ask {A} Q (f : World.t -> A) : Emits Q (ask f).
Proof. intros w tr. simpl. rewrite app_nil_r. auto. Qed.

Lemma emits_lift {A} Q (r : Res A) : Emits Q (lift r).
Proof. destruct r; [apply emits_throw | apply emits_ret]. Qed.

Lemma emits_emit Q e : Q e = true -> Emits Q (emit e).
Proof. intros He w tr. simpl. rewrite He. auto. Qed.

Lemma emits_exit {A} Q code : Q (Exit code) = true -> Emits Q (@process.exit _ A code).
Proof. intros He w tr. simpl. rewrite He. auto. Qed.

Lemma emits_bind {A B} Q (m : M A) (k : A -> M B) :
  Emits Q m -> (forall a, Emits Q (k a)) -> Emits Q (bind m k).
Proof.
  intros Hm Hk w tr. unfold bind.
  destruct (Hm w tr) as [Heq HQ]. rewrite Heq.
  destruct (m w []) as [[a|e|c|] n]; simpl in *; auto.
  destruct (Hk a w (tr ++ n)) as [Heq1 HQ1].
  destruct (Hk a w n) as [Heq2 _].
  rewrite Heq1, Heq2. simpl. rewrite app_assoc. split; [reflexivity|].
  rewrite forallb_app, HQ, HQ1. reflexivity.
Qed.

Lemma emits_try_catch {A} Q (body : M A) (handler : JsError -> M A) :
  Emits Q body -> (forall e, Emits Q (handler e)) ->
  Emits Q (try_catch body handler).
Proof.
  intros Hm Hk w tr. unfold try_catch.
  destruct (Hm w tr) as [Heq HQ]. rewrite Heq.
  destruct (body w []) as [[a|e|c|] n]; simpl in *; auto.
  destruct (Hk e w (tr ++ n)) as [Heq1 HQ1].
  destruct (Hk e w n) as [Heq2 _].
  rewrite Heq1, Heq2. simpl. rewrite app_assoc. split; [reflexivity|].
  rewrite forallb_app, HQ, HQ1. reflexivity.
Qed.

Lemma emits_when Q (b : bool) (m : M unit) : Emits Q m -> Emits Q (when b m).
Proof. destruct b; simpl; auto using emits_ret. Qed.

Lemma emits_Error Q msg : Emits Q (Error msg).
Proof. apply emits_ask. Qed.

Lemma emits_throwNew {A} Q msg : Emits Q (@throwNew _ A msg).
Proof.
  apply emits_bind; [apply emits_ask|]. intros; apply emits_throw.
Qed.

End Traces.

Create HintDb emits.
#[global] Hint Resolve emits_ret emits_throw emits_outOfFuel emits_ask
  emits_lift emits_when emits_Error emits_throwNew : emits.

(** Proves [Emits Q m] along the structure of [m]. *)
Ltac emits :=
  repeat first
    [ solve [auto with emits]
    | apply emits_bind; [|intros]
    | apply emits_try_catch; [|intros]
    | apply emits_emit; reflexivity
    | apply emits_exit; reflexivity
    | solve [auto with emits]
    | match goal with
      | |- Emits _ (if ?b then _ else _) => destruct b
      | |- Emits _ (match ?x with _ => _ end) => destruct x
      end ].

(** ** Computations that do not run out of fuel *)

Section Totality.

Context {L : Library}.

Lemma total_ret {A} (a : A) : Total (ret a).
Proof. intros w tr. discriminate. Qed.

Lemma total_throw {A} e : Total (@throw _ A e).
Proof. intros w tr. discriminate. Qed.

Lemma total_ask {A} (f : World.t -> A) : Total (ask f).
Proof. intros w tr. discriminate. Qed.

Lemma total_emit e : Total (emit e).
Proof. intros w tr. discriminate. Qed.

Lemma total_exit {A} code : Total (@process.exit _ A code).
Proof. intros w tr. discriminate. Qed.

Lemma total_lift {A} (r : Res A) : Total (lift r).
Proof. destruct r; [apply total_throw | apply total_ret]. Qed.

Lemma total_bind {A B} (m : M A) (k : A -> M B) :
  Total m -> (forall a, Total (k a)) -> Total (bind m k).
Proof.
  intros Hm Hk w tr. unfold bind. specialize (Hm w tr).
  destruct (m w tr) as [[a|e|c|] t]; cbn [fst] in *;
    [apply Hk | discriminate | discriminate | contradiction].
Qed.

Lemma total_try_catch {A} (body : M A) (handler : JsError -> M A) :
  Total body -> (forall e, Total (handler e)) -> Total (try_catch body handler).
Proof.
  intros Hm Hk w tr. unfold try_catch. specialize (Hm w tr).
  destruct (body w tr) as [[a|e|c|] t]; cbn [fst] in *;
    [discriminate | apply Hk | discriminate | contradiction].
Qed.

Lemma total_when (b : bool) (m : M unit) : Total m -> Total (when b m).
Proof. destruct b; simpl; auto using total_ret. Qed.

Lemma total_Error msg : Total (Error msg).
Proof. apply total_ask. Qed.

Lemma total_throwNew {A} msg : Total (@throwNew _ A msg).
Proof. apply total_bind; [apply total_ask|]. intros; apply total_throw. Qed.

End Totality.

Create HintDb total.
#[global] Hint Resolve total_ret total_throw total_ask total_emit total_exit
  total_lift total_when total_Error total_throwNew : total.

(** Proves [Total m] along the structure of [m]. *)
Ltac total :=
  repeat first
    [ solve [auto with total]
    | apply total_bind; [|intros]
    | apply total_try_catch; [|intros]
    | match goal with
      | |- Total (if ?b then _ else _) => destruct b
      | |- Total (match ?x with _ => _ end) => destruct x
      end ].

(** ** Facts about the helpers of [run] *)

Section ProgramFacts.

Context {L : Library} {P : path.ops}.

Lemma emits_existsSync p : Emits isExistsSync (fs.existsSync p).
Proof. unfold fs.existsSync. emits. Qed.

Lemma emits_some {A} Q (f : A -> M bool) (l : list A) :
  (forall x, Emits Q (f x)) -> Emits Q (some f l).
Proof. intros Hf. induction l as [|x l IH]; simpl; emits; auto. Qed.

Lemma emits_hasWatchmanRootFile_loop fuel p :
  Emits isExistsSync (hasWatchmanRootFile_loop fuel p).
Proof.
  revert p. induction fuel as [|fuel IH]; intros p; simpl; emits; auto.
Qed.

Lemma emits_hasWatchmanRootFile p :
  Emits isExistsSync (hasWatchmanRootFile p).
Proof. apply emits_hasWatchmanRootFile_loop. Qed.

Lemma emits_getSchema p : Emits isSchemaCall (getSchema p).
Proof.
  unfold getSchema, fs.readFileSync, JSON.parse, buildClientSchema,
    printSchema, parse, buildASTSchema.
  emits.
Qed.

Lemma emits_getLanguagePlugin language :
  Emits isPluginCall (getLanguagePlugin language).
Proof.
  unfold getLanguagePlugin, process.cwd, fs.existsSync, get_default, Error.
  emits.
Qed.

Lemma emits_getFilepathsFromGlob baseDir options :
  Emits isSearchCall (getFilepathsFromGlob baseDir options).
Proof. unfold getFilepathsFromGlob. emits. Qed.

(** *** The loop of [hasWatchmanRootFile] *)

Lemma ancestor_dirname n p :
  ancestor n (path.dirname p) = ancestor (S n) p.
Proof. unfold ancestor. symmetry. apply Nat.iter_succ_r. Qed.

Lemma ancestor_fixed n p : path.dirname p = p -> ancestor n p = p.
Proof.
  intros H. induction n as [|n IH]; [reflexivity|].
  unfold ancestor in *. simpl. rewrite IH. exact H.
Qed.

Lemma some_existsSync (w : World.t) dir files :
  fst (some (fun file => fs.existsSync (path.join dir file)) files w [])
  = Returned (existsb (fun file => World.existsSync w (path.join dir file)) files).
Proof.
  induction files as [|file files IH]; [reflexivity|].
  cbn [some existsb].
  unfold bind at 1.
  destruct (emits_existsSync (path.join dir file) w []) as [_ _].
  unfold fs.existsSync at 1. cbn [bind emit ask].
  destruct (World.existsSync w (path.join dir file)); [reflexivity|].
  cbn [orb].
  destruct (emits_some isExistsSync
              (fun file => fs.existsSync (path.join dir file)) files
              (fun x => emits_existsSync _) w ([] ++ [ExistsSync (path.join dir file)]))
    as [Heq _].
  rewrite Heq. cbn [fst]. exact IH.
Qed.

Lemma hasWatchmanRootFile_loop_spec (w : World.t) fuel :
  forall p, path.height p < fuel ->
  exists b,
    fst (hasWatchmanRootFile_loop fuel p w []) = Returned b
    /\ (b = true <-> rootFileBelowTop w p).
Proof.
  induction fuel as [|fuel IH]; intros p Hfuel; [lia|].
  cbn [hasWatchmanRootFile_loop].
  destruct (String.eqb (path.dirname p) p) eqn:Hroot; cbn [negb].
  - apply String.eqb_eq in Hroot.
    exists false. split; [reflexivity|]. split; [discriminate|].
    intros [n [Hn _]]. exfalso. apply Hn.
    rewrite (ancestor_fixed n p Hroot). exact Hroot.
  - apply String.eqb_neq in Hroot.
    unfold bind at 1.
    pose proof (some_existsSync w p WATCHMAN_ROOT_FILES) as Hsome.
    fold (containsRootFile w p) in Hsome.
    destruct (some _ WATCHMAN_ROOT_FILES w []) as [o tr1] eqn:Hrun.
    cbn [fst] in Hsome. subst o.
    destruct (containsRootFile w p) eqn:Hfound.
    + exists true. split; [reflexivity|]. split; [|reflexivity].
      intros _. exists 0. split; assumption.
    + destruct (IH (path.dirname p)) as [b [Hb Hiff]].
      { pose proof (path.dirname_height p Hroot). lia. }
      exists b. split.
      * destruct (emits_hasWatchmanRootFile_loop fuel (path.dirname p) w tr1)
          as [Heq _].
        rewrite Heq. exact Hb.
      * rewrite Hiff. split.
        -- intros [n [Hn Hc]]. exists (S n).
           rewrite <- ancestor_dirname. split; assumption.
        -- intros [[|n] [Hn Hc]].
           ++ change (ancestor 0 p) with p in Hc. congruence.
           ++ exists n. rewrite ancestor_dirname. split; assumption.
Qed.

(** [hasWatchmanRootFile] returns for every path, and says whether a
    directory below the top one has a root file. *)
Lemma hasWatchmanRootFile_spec (w : World.t) p tr :
  exists b new,
    hasWatchmanRootFile p w tr = (Returned b, tr ++ new)
    /\ forallb isExistsSync new = true
    /\ (b = true <-> rootFileBelowTop w p).
Proof.
  destruct (hasWatchmanRootFile_loop_spec w (S (path.height p)) p) as [b [Hb Hiff]];
    [lia|].
  fold (hasWatchmanRootFile p) in Hb.
  destruct (emits_hasWatchmanRootFile p w tr) as [Heq HQ].
  exists b, (snd (hasWatchmanRootFile p w [])).
  rewrite Heq, Hb. auto.
Qed.

(** *** No helper runs out of fuel *)

Lemma total_hasWatchmanRootFile p : Total (hasWatchmanRootFile p).
Proof.
  intros w tr.
  destruct (hasWatchmanRootFile_spec w p tr) as (b & new & E & _).
  rewrite E. discriminate.
Qed.

Lemma total_getSchema p : Total (getSchema p).
Proof.
  unfold getSchema, fs.readFileSync, JSON.parse, buildClientSchema,
    printSchema, parse, buildASTSchema.
  total.
Qed.

Lemma total_getLanguagePlugin language : Total (getLanguagePlugin language).
Proof.
  unfold getLanguagePlugin, process.cwd, fs.existsSync, get_default.
  total.
Qed.

Lemma total_getFilepathsFromGlob baseDir options :
  Total (getFilepathsFromGlob baseDir options).
Proof. unfold getFilepathsFromGlob. total. Qed.

#[local] Hint Resolve total_hasWatchmanRootFile total_getSchema
  total_getLanguagePlugin total_getFilepathsFromGlob : total.

(** [run] ends by returning, throwing or exiting: the fuel of the loop
    is never what stops it. *)
Lemma total_run options : Total (run options).
Proof.
  unfold run, codegenRunner.create, codegenRunner.compileAll,
    codegenRunner.watchAll, WatchmanClient.isAvailable, console.log,
    fs.existsSync, process.cwd.
  total.
Qed.

End ProgramFacts.


(** ** A model of graphql for a schema example

    What graphql does with a schema file is not decided by the program.
    To run the schema loader on a schema all the same, here is the part
    of graphql-js that a small schema goes through, after its lexer,
    parser and [buildASTSchema]: documents made of directive definitions,
    object type definitions and scalar type definitions, without
    descriptions, default values, interfaces and applied directives.  A
    text outside this part is refused with a syntax error; the functions
    of the introspection path are not modelled and refuse their input. *)

Module Graphql.

Inductive Token :=
| Name (value : string)
| Punctuator (c : ascii).

Definition syntaxError (msg : string) : JsError :=
  {| message := "Syntax Error: " +:+ msg;
     stack := "GraphQLError: Syntax Error: " +:+ msg |}.

Definition between (lo hi : nat) (c : ascii) : bool :=
  (lo <=? nat_of_ascii c) && (nat_of_ascii c <=? hi).

(** [_A-Za-z] *)
Definition isNameStart (c : ascii) : bool :=
  between 65 90 c || Ascii.eqb c "_" || between 97 122 c.

(** [_0-9A-Za-z] *)
Definition isNameContinue (c : ascii) : bool :=
  isNameStart c || between 48 57 c.

(** Tab, line feed, carriage return, space and comma separate tokens. *)
Definition isIgnored (c : ascii) : bool :=
  existsb (Nat.eqb (nat_of_ascii c)) [9; 10; 13; 32; 44].

Definition isPunctuator (c : ascii) : bool :=
  existsb (Ascii.eqb c)
    ["!"; "$"; "&"; "("; ")"; ":"; "="; "@"; "["; "]"; "{"; "|"; "}"]%char.

(** A comment runs up to the next control character that is not a
    tab. *)
Definition inComment (c : ascii) : bool :=
  (32 <=? nat_of_ascii c) || (nat_of_ascii c =? 9).

Definition token (t : Token) (rest : Res (list Token)) : Res (list Token) :=
  match rest with
  | inl e => inl e
  | inr tokens => inr (t :: tokens)
  end.

(** The name read so far, last character first, is a token. *)
Definition endName (name : list ascii) (rest : Res (list Token))
    : Res (list Token) :=
  match name with
  | [] => rest
  | _ => token (Name (string_of_list_ascii (List.rev name))) rest
  end.

(** The lexer: [name] holds the characters of the name being read,
    [comment] says whether a comment is being skipped. *)
Fixpoint lexFrom (name : list ascii) (comment : bool) (s : string)
    : Res (list Token) :=
  match s with
  | EmptyString => endName name (inr [])
  | String c rest =>
      if comment && inComment c then lexFrom [] true rest
      else if match name with
              | [] => isNameStart c
              | _ => isNameContinue c
              end
      then lexFrom (c :: name) false rest
      else
        endName name
          (if isIgnored c then lexFrom [] false rest
           else if Ascii.eqb c "#" then lexFrom [] true rest
           else if isPunctuator c then token (Punctuator c) (lexFrom [] false rest)
           else inl (syntaxError "Cannot parse the unexpected character."))
  end.

Definition lex (s : string) : Res (list Token) := lexFrom [] false s.

(** *** The documents *)

Inductive TypeReference :=
| NamedType (name : string)
| ListType (type : TypeReference)
| NonNullType (type : TypeReference).

Record InputValueDefinition := {
  inputName : string;
  inputType : TypeReference
}.

Record FieldDefinition := {
  fieldName : string;
  fieldArguments : list InputValueDefinition;
  fieldType : TypeReference
}.

Inductive DefinitionNode :=
| DirectiveDefinition (name : string) (arguments : list InputValueDefinition)
    (locations : list string)
| ObjectTypeDefinition (name : string) (fields : list FieldDefinition)
| ScalarTypeDefinition (name : string).

Definition Parser (A : Type) : Type := list Token -> Res (A * list Token).

Definition unexpected {A} (tokens : list Token) : Res A :=
  inl (syntaxError
         match tokens with
         | [] => "Unexpected <EOF>"
         | Name value :: _ => "Unexpected Name " +:+ value
         | Punctuator c :: _ => "Unexpected " +:+ String c EmptyString
         end).

Definition expect (c : ascii) : Parser unit := fun tokens =>
  match tokens with
  | Punctuator c' :: rest =>
      if Ascii.eqb c c' then inr (tt, rest) else unexpected tokens
  | _ => unexpected tokens
  end.

Definition parseName : Parser string := fun tokens =>
  match tokens with
  | Name value :: rest => inr (value, rest)
  | _ => unexpected tokens
  end.

(** [!] after a type *)
Definition nonNull (type : TypeReference) : Parser TypeReference :=
  fun tokens =>
    match tokens with
    | Punctuator "!" :: rest => inr (NonNullType type, rest)
    | _ => inr (type, tokens)
    end.

Fixpoint parseTypeReference (fuel : nat) : Parser TypeReference := fun tokens =>
  match fuel with
  | O => unexpected tokens
  | S fuel' =>
      match tokens with
      | Punctuator "[" :: rest =>
          match parseTypeReference fuel' rest with
          | inl e => inl e
          | inr (type, rest') =>
              match expect "]" rest' with
              | inl e => inl e
              | inr (_, rest'') => nonNull (ListType type) rest''
              end
          end
      | Name value :: rest => nonNull (NamedType value) rest
      | _ => unexpected tokens
      end
  end.

Definition parseInputValueDef : Parser InputValueDefinition := fun tokens =>
  match parseName tokens with
  | inl e => inl e
  | inr (name, rest) =>
      match expect ":" rest with
      | inl e => inl e
      | inr (_, rest') =>
          match parseTypeReference (List.length rest') rest' with
          | inl e => inl e
          | inr (type, rest'') =>
              inr ({| inputName := name; inputType := type |}, rest'')
          end
      end
  end.

(** The items up to the closing punctuator; the first item has been
    read. *)
Fixpoint manyMore {A} (fuel : nat) (item : Parser A) (close : ascii)
    : Parser (list A) := fun tokens =>
  match fuel with
  | O => unexpected tokens
  | S fuel' =>
      match tokens with
      | Punctuator c :: rest =>
          if Ascii.eqb c close then inr ([], rest)
          else unexpected tokens
      | _ =>
          match item tokens with
          | inl e => inl e
          | inr (a, rest) =>
              match manyMore fuel' item close rest with
              | inl e => inl e
              | inr (more, rest') => inr (a :: more, rest')
              end
          end
      end
  end.

(** [many]: the opening punctuator, one item or more, the closing
    punctuator. *)
Definition many {A} (open : ascii) (item : Parser A) (close : ascii)
    : Parser (list A) := fun tokens =>
  match expect open tokens with
  | inl e => inl e
  | inr (_, rest) =>
      match item rest with
      | inl e => inl e
      | inr (a, rest') =>
          match manyMore (List.length rest') item close rest' with
          | inl e => inl e
          | inr (more, rest'') => inr (a :: more, rest'')
          end
      end
  end.

Definition parseArgumentDefs : Parser (list InputValueDefinition) :=
  fun tokens =>
    match tokens with
    | Punctuator "(" :: _ => many "(" parseInputValueDef ")" tokens
    | _ => inr ([], tokens)
    end.

Definition parseFieldDefinition : Parser FieldDefinition := fun tokens =>
  match parseName tokens with
  | inl e => inl e
  | inr (name, rest) =>
      match parseArgumentDefs rest with
      | inl e => inl e
      | inr (arguments, rest') =>
          match expect ":" rest' with
          | inl e => inl e
          | inr (_, rest'') =>
              match parseTypeReference (List.length rest'') rest'' with
              | inl e => inl e
              | inr (type, rest''') =>
                  inr ({| fieldName := name; fieldArguments := arguments;
                          fieldType := type |}, rest''')
              end
          end
      end
  end.

Definition parseFieldsDefinition : Parser (list FieldDefinition) :=
  fun tokens =>
    match tokens with
    | Punctuator "{" :: _ => many "{" parseFieldDefinition "}" tokens
    | _ => inr ([], tokens)
    end.

Definition directiveLocations : list string :=
  ["QUERY"; "MUTATION"; "SUBSCRIPTION"; "FIELD"; "FRAGMENT_DEFINITION";
   "FRAGMENT_SPREAD"; "INLINE_FRAGMENT"; "VARIABLE_DEFINITION"; "SCHEMA";
   "SCALAR"; "OBJECT"; "FIELD_DEFINITION"; "ARGUMENT_DEFINITION"; "INTERFACE";
   "UNION"; "ENUM"; "ENUM_VALUE"; "INPUT_OBJECT"; "INPUT_FIELD_DEFINITION"].

Definition parseDirectiveLocation : Parser string := fun tokens =>
  match tokens with
  | Name value :: rest =>
      if existsb (String.eqb value) directiveLocations then inr (value, rest)
      else unexpected tokens
  | _ => unexpected tokens
  end.

(** The locations after the first, each behind a [|]. *)
Fixpoint moreDirectiveLocations (fuel : nat) : Parser (list string) :=
  fun tokens =>
    match fuel, tokens with
    | S fuel', Punctuator "|" :: rest =>
        match parseDirectiveLocation rest with
        | inl e => inl e
        | inr (location, rest') =>
            match moreDirectiveLocations fuel' rest' with
            | inl e => inl e
            | inr (more, rest'') => inr (location :: more, rest'')
            end
        end
    | _, _ => inr ([], tokens)
    end.

Definition parseDirectiveLocations : Parser (list string) := fun tokens =>
  let tokens :=
    match tokens with
    | Punctuator "|" :: rest => rest      (* an optional leading pipe *)
    | _ => tokens
    end in
  match parseDirectiveLocation tokens with
  | inl e => inl e
  | inr (location, rest) =>
      match moreDirectiveLocations (List.length rest) rest with
      | inl e => inl e
      | inr (more, rest') => inr (location :: more, rest')
      end
  end.

Definition parseDefinition : Parser DefinitionNode := fun tokens =>
  match tokens with
  | Name "directive" :: rest =>
      match expect "@" rest with
      | inl e => inl e
      | inr (_, rest1) =>
          match parseName rest1 with
          | inl e => inl e
          | inr (name, rest2) =>
              match parseArgumentDefs rest2 with
              | inl e => inl e
              | inr (arguments, rest3) =>
                  match rest3 with
                  | Name "on" :: rest4 =>
                      match parseDirectiveLocations rest4 with
                      | inl e => inl e
                      | inr (locations, rest5) =>
                          inr (DirectiveDefinition name arguments locations, rest5)
                      end
                  | _ => unexpected rest3
                  end
              end
          end
      end
  | Name "type" :: rest =>
      match parseName rest with
      | inl e => inl e
      | inr (name, rest1) =>
          match parseFieldsDefinition rest1 with
          | inl e => inl e
          | inr (fields, rest2) => inr (ObjectTypeDefinition name fields, rest2)
          end
      end
  | Name "scalar" :: rest =>
      match parseName rest with
      | inl e => inl e
      | inr (name, rest1) => inr (ScalarTypeDefinition name, rest1)
      end
  | _ => unexpected tokens
  end.

(** The definitions up to the end of the text. *)
Fixpoint parseDefinitions (fuel : nat) (tokens : list Token)
    : Res (list DefinitionNode) :=
  match fuel, tokens with
  | _, [] => inr []
  | O, _ => unexpected tokens
  | S fuel', _ =>
      match parseDefinition tokens with
      | inl e => inl e
      | inr (definition, rest) =>
          match parseDefinitions fuel' rest with
          | inl e => inl e
          | inr definitions => inr (definition :: definitions)
          end
      end
  end.

(** A document has one definition at least. *)
Definition parse (text : string) : Res (list DefinitionNode) :=
  match lex text with
  | inl e => inl e
  | inr [] => unexpected []
  | inr tokens => parseDefinitions (List.length tokens) tokens
  end.

(** *** The schema built from a document *)

Record Directive := {
  name : string;
  arguments : list InputValueDefinition;
  locations : list string
}.

Record Schema := {
  types : list string;
  directives : list Directive
}.

(** The directives graphql specifies. *)
Definition ifBoolean : InputValueDefinition :=
  {| inputName := "if"; inputType := NonNullType (NamedType "Boolean") |}.

Definition GraphQLSkipDirective : Directive :=
  {| name := "skip"; arguments := [ifBoolean];
     locations := ["FIELD"; "FRAGMENT_SPREAD"; "INLINE_FRAGMENT"] |}.

Definition GraphQLIncludeDirective : Directive :=
  {| name := "include"; arguments := [ifBoolean];
     locations := ["FIELD"; "FRAGMENT_SPREAD"; "INLINE_FRAGMENT"] |}.

Definition GraphQLDeprecatedDirective : Directive :=
  {| name := "deprecated";
     arguments := [{| inputName := "reason"; inputType := NamedType "String" |}];
     locations := ["FIELD_DEFINITION"; "ENUM_VALUE"] |}.

Definition typeName (d : DefinitionNode) : option string :=
  match d with
  | ObjectTypeDefinition name _ | ScalarTypeDefinition name => Some name
  | DirectiveDefinition _ _ _ => None
  end.

Definition directiveOf (d : DefinitionNode) : option Directive :=
  match d with
  | DirectiveDefinition name arguments locations =>
      Some {| name := name; arguments := arguments; locations := locations |}
  | _ => None
  end.

Fixpoint namedType (t : TypeReference) : string :=
  match t with
  | NamedType name => name
  | ListType t' | NonNullType t' => namedType t'
  end.

(** The types a definition refers to. *)
Definition referredTypes (d : DefinitionNode) : list string :=
  match d with
  | DirectiveDefinition _ arguments _ =>
      map (fun a => namedType (inputType a)) arguments
  | ObjectTypeDefinition _ fields =>
      flat_map (fun f =>
                  map (fun a => namedType (inputType a)) (fieldArguments f)
                  ++ [namedType (fieldType f)])
        fields
  | ScalarTypeDefinition _ => []
  end.

(** The types every schema has: the scalars and the types of
    introspection. *)
Definition standardTypes : list string :=
  ["String"; "Int"; "Float"; "Boolean"; "ID";
   "__Schema"; "__Directive"; "__DirectiveLocation"; "__Type"; "__Field";
   "__InputValue"; "__EnumValue"; "__TypeKind"].

Definition buildError (msg : string) : JsError :=
  {| message := msg; stack := "Error: " +:+ msg |}.

Fixpoint firstRepeated (names : list string) : option string :=
  match names with
  | [] => None
  | n :: names' =>
      if existsb (String.eqb n) names' then Some n else firstRepeated names'
  end.

(** If a specified directive was not declared, it is added. *)
Definition addSpecified (specified : Directive) (directives : list Directive)
    : list Directive :=
  if existsb (fun d => String.eqb (name d) (name specified)) directives
  then directives
  else directives ++ [specified].

(** [buildASTSchema(document, { assumeValid: true })] *)
Definition buildASTSchema (document : list DefinitionNode) : Res Schema :=
  let typeNames := omap typeName document in
  match firstRepeated typeNames with
  | Some n =>
      inl (buildError ("Type " +:+ JsString.dquote +:+ n +:+ JsString.dquote
                       +:+ " was defined more than once."))
  | None =>
      match List.find
              (fun n => negb (existsb (String.eqb n) (typeNames ++ standardTypes)))
              (flat_map referredTypes document) with
      | Some n =>
          inl (buildError ("Type " +:+ JsString.dquote +:+ n +:+ JsString.dquote
                           +:+ " not found in document."))
      | None =>
          inr {| types := typeNames;
                 directives :=
                   addSpecified GraphQLDeprecatedDirective
                     (addSpecified GraphQLIncludeDirective
                        (addSpecified GraphQLSkipDirective
                           (omap directiveOf document))) |}
      end
  end.

Definition notModelled {A} : Res A :=
  inl (buildError "Introspection data is not modelled.").

#[local] Instance library : Library := {|
  Lib.Json := unit;
  Lib.DocumentNode := list DefinitionNode;
  Lib.GraphQLSchema := Schema;
  Lib.JSON_parse := fun _ => notModelled;
  Lib.get_data := fun _ => notModelled;
  Lib.buildClientSchema := fun _ => notModelled;
  Lib.printSchema := fun _ => notModelled;
  Lib.parse := parse;
  Lib.buildASTSchema := buildASTSchema;
  Lib.FindGraphQLTags := unit;
  Lib.FormatModule := unit;
  Lib.TypeGenerator := unit;
  Lib.FileFilter := unit;
  Lib.GetParser := unit;
  Lib.IRTransforms := unit;
  Lib.SchemaExtensions := unit;
  Lib.SourceControl := unit;
  Lib.GetWriterOptions := unit;
  Lib.RelaySourceModuleParser := fun _ => (tt, tt);
  Lib.DotGraphQLParser_getParser := tt;
  Lib.commonTransforms := tt;
  Lib.codegenTransforms := tt;
  Lib.fragmentTransforms := tt;
  Lib.printTransforms := tt;
  Lib.queryTransforms := tt;
  Lib.schemaExtensions := tt
|}.


Definition javascript : Plugin.t :=
  {| Plugin.inputExtensions := ["js"; "jsx"];
     Plugin.outputExtension := "js";
     Plugin.findGraphQLTags := tt;
     Plugin.formatModule := tt;
     Plugin.typeGenerator := tt |}.

(** A machine with one schema file, and a project around it that does
    not matter to the schema loader. *)
Definition machine (schemaPath contents : string) : World.t :=
  {| World.cwd := "/app";
     World.existsSync := String.eqb schemaPath;
     World.readFileSync := fun p =>
       if String.eqb p schemaPath then inr contents
       else inl (buildError ("ENOENT: no such file or directory, open '"
                             +:+ p +:+ "'"));
     World.require := fun name =>
       if String.eqb name "fast-glob" then inr (Object Undefined)
       else inl (buildError ("Cannot find module '" +:+ name +:+ "'"));
     World.watchmanIsAvailable := false;
     World.globSync := fun _ _ _ => inr [];
     World.compileAll := fun _ => inr None;
     World.watchAll := fun _ => inr None;
     World.captureStack := fun msg => "Error: " +:+ msg;
     World.nullishTypeError :=
       buildError "Cannot read property 'default' of undefined";
     World.RelayLanguagePluginJavascript := javascript |}.







End Graphql.
(** ** Running [run] step by step *)

(** Unfolds the calls of [run] down to those of its helpers. *)
Ltac unfold_calls :=
  unfold codegenRunner.create, codegenRunner.compileAll,
    codegenRunner.watchAll, WatchmanClient.isAvailable, console.log,
    fs.existsSync, process.cwd, process.exit, when, throwNew, Error, lift,
    bind, ask, ret, throw, emit.

Ltac unfold_calls_in H :=
  unfold codegenRunner.create, codegenRunner.compileAll,
    codegenRunner.watchAll, WatchmanClient.isAvailable, console.log,
    fs.existsSync, process.cwd, process.exit, when, throwNew, Error, lift,
    bind, ask, ret, throw, emit in H.

(** The term whose value decides how the computation [t] goes on. *)
Ltac head_scrutinee t :=
  lazymatch t with
  | match ?s with _ => _ end => head_scrutinee s
  | negb ?b => head_scrutinee b
  | andb ?b _ => head_scrutinee b
  | ?f ?w ?tr =>
      lazymatch f with
      | match ?s with _ => _ end => head_scrutinee s
      | _ => constr:(t)
      end
  | _ => constr:(t)
  end.

(** One step of [H : computation = (out, tr)]: a case analysis on the
    next call or test; for a helper, what it adds to the trace. *)
Ltac exec_helper H s lem :=
  let o := fresh "o" in
  let t := fresh "t" in
  let E := fresh "E" in
  let new := fresh "new" in
  let HQ := fresh "HQ" in
  destruct s as [o t] eqn:E;
  apply (emits_inv _ _ _ _ _ _ lem) in E;
  destruct E as (new & -> & E & HQ);
  destruct o.

Ltac exec_step H :=
  cbn beta iota zeta delta [negb andb] in H;
  lazymatch type of H with
  | ?lhs = _ =>
      let s := head_scrutinee lhs in
      lazymatch s with
      | (_, _) => fail
      | hasWatchmanRootFile ?p ?w ?tr =>
          let b := fresh "found" in
          let new := fresh "new" in
          let E := fresh "E" in
          let HQ := fresh "HQ" in
          let Hiff := fresh "Hfound" in
          destruct (hasWatchmanRootFile_spec w p tr) as (b & new & E & HQ & Hiff);
          rewrite E in H; clear E
      | getSchema ?p _ _ => exec_helper H s (emits_getSchema p)
      | getLanguagePlugin ?l _ _ => exec_helper H s (emits_getLanguagePlugin l)
      | getFilepathsFromGlob ?d ?o _ _ =>
          exec_helper H s (emits_getFilepathsFromGlob d o)
      | _ => destruct s eqn:?
      end
  end.

Ltac exec H :=
  unfold_calls_in H; repeat exec_step H;
  cbn beta iota zeta delta [negb andb] in H.

(** [e] is not in a trace whose parts are known. *)
Ltac not_in_trace Hin :=
  repeat (rewrite in_app_iff in Hin);
  cbn [In] in Hin;
  repeat match goal with
         | H : _ \/ _ |- _ => destruct H
         | H : False |- _ => destruct H
         | H : @eq event _ _ |- _ => discriminate H
         | HQ : forallb ?Q ?new = true, H : In _ ?new |- _ =>
             rewrite forallb_forall in HQ; apply HQ in H; discriminate H
         end.

(** A helper of [run] emits calls of its own kind, hence of any kind
    that contains them. *)
Ltac emits_helper :=
  eapply emits_weaken;
  [| first [ apply emits_hasWatchmanRootFile
           | apply emits_getSchema
           | apply emits_getLanguagePlugin
           | apply emits_getFilepathsFromGlob
           | apply emits_existsSync ] ];
  let e := fresh "e" in
  intros e; destruct e; first [reflexivity | discriminate].

Ltac emits_run :=
  unfold codegenRunner.create, codegenRunner.compileAll,
    codegenRunner.watchAll, WatchmanClient.isAvailable, console.log,
    process.cwd;
  repeat first [ emits_helper | progress emits ].

(** ** A program logic for the prefix of a run *)

Section Logic.

Context {L : Library}.

Lemma holds_bind {A B} w Keep (Post : Outcome B -> list event -> Prop)
    (m : M A) (k : A -> M B) :
  Emits Keep m -> Vacuous Keep Post ->
  (forall a, Holds w Keep Post (k a)) ->
  Holds w Keep Post (bind m k).
Proof.
  intros Hm Hvac Hk tr0 Htr0 out tr H. unfold bind in H.
  destruct (m w tr0) as [o t] eqn:E.
  apply (emits_inv _ _ _ _ _ _ Hm) in E. destruct E as (new & -> & _ & HQ).
  assert (Hall : forallb Keep (tr0 ++ new) = true)
    by (rewrite forallb_app, Htr0, HQ; reflexivity).
  destruct o; try (injection H as <- <-; apply Hvac; exact Hall).
  apply (Hk a _ Hall _ _ H).
Qed.

Lemma holds_bind_ask {A B} w Keep (Post : Outcome B -> list event -> Prop)
    (f : World.t -> A) (k : A -> M B) :
  Holds w Keep Post (k (f w)) -> Holds w Keep Post (bind (ask f) k).
Proof. intros Hk tr0 Htr0 out tr H. apply (Hk tr0 Htr0 out tr H). Qed.

Lemma holds_run {A} w Keep (Post : Outcome A -> list event -> Prop) (m : M A)
    out tr :
  Holds w Keep Post m -> m w [] = (out, tr) -> Post out tr.
Proof. intros Hm H. apply (Hm [] eq_refl out tr H). Qed.

End Logic.

(** Walks through the binds of a computation as long as they emit [Keep]
    events only. *)
Ltac holds_prefix Hvac :=
  repeat first
    [ apply holds_bind_ask; cbn zeta
    | apply holds_bind; [solve [emits_run] | exact Hvac | intros ?]; cbn zeta ].

(** ** The option checks of [run] *)

Section Validation.

Context {L : Library} {P : path.ops}.

Lemma invokesEngine_app (tr1 tr2 : list event) :
  invokesEngine (tr1 ++ tr2) = invokesEngine tr1 || invokesEngine tr2.
Proof. apply existsb_app. Qed.

Lemma existsSync_not_engine (tr : list event) :
  forallb isExistsSync tr = true -> existsb isEngineCall tr = false.
Proof.
  induction tr as [|e tr IH]; [reflexivity|].
  cbn [forallb existsb]. intros H.
  apply andb_true_iff in H as [He Htr].
  destruct e; try discriminate He. apply IH. exact Htr.
Qed.

(** Proves that a trace, given by its parts, has no call to the
    engine. *)
Ltac no_engine :=
  unfold invokesEngine;
  repeat rewrite existsb_app;
  cbn [existsb isEngineCall orb];
  repeat match goal with
         | HQ : forallb isExistsSync ?new = true |- _ =>
             rewrite (existsSync_not_engine new HQ)
         end;
  reflexivity.

(** C3: when the schema path or the src path, resolved from the working
    directory, does not exist, [run] throws the error of the first
    missing path, and its trace has no call to the engine. *)
Theorem missing_path_rejected (options : Options.t) (w : World.t) :
  let schemaPath := path.resolve (World.cwd w) (Options.schema options) in
  let srcDir := path.resolve (World.cwd w) (Options.src options) in
  World.existsSync w schemaPath = false \/ World.existsSync w srcDir = false ->
  exists msg tr,
    run options w [] = (Threw (newError w msg), tr)
    /\ (World.existsSync w schemaPath = false ->
        msg = "--schema path does not exist: " +:+ schemaPath +:+ ".")
    /\ (World.existsSync w schemaPath = true ->
        msg = "--source path does not exist: " +:+ srcDir +:+ ".")
    /\ invokesEngine tr = false.
Proof.
  intros schemaPath srcDir H.
  unfold run. unfold_calls. cbn beta iota zeta.
  fold schemaPath.
  destruct (World.existsSync w schemaPath) eqn:Hschema;
    cbn beta iota delta [negb].
  - fold srcDir. destruct H as [H|H]; [discriminate|].
    rewrite H. cbn beta iota delta [negb].
    eexists _, _. split; [reflexivity|]. repeat split; discriminate.
  - eexists _, _. split; [reflexivity|]. repeat split; discriminate.
Qed.

(** C2, amended: with [verbose] and [quiet] both set, [run] throws before
    any call to the engine; what it throws is the mutual-exclusivity error
    when the schema and src paths exist and, if [watch] is set,
    [watchman] is set and a directory that is not its own parent, among
    the source directory and the directories above it, has a root file. *)
Theorem quiet_and_verbose_rejected (options : Options.t) (w : World.t) :
  let schemaPath := path.resolve (World.cwd w) (Options.schema options) in
  let srcDir := path.resolve (World.cwd w) (Options.src options) in
  Options.verbose options = true ->
  Options.quiet options = true ->
  exists e tr,
    run options w [] = (Threw e, tr)
    /\ invokesEngine tr = false
    /\ (World.existsSync w schemaPath = true ->
        World.existsSync w srcDir = true ->
        truthy (Options.watch options) = false
        \/ (Options.watchman options = true /\ rootFileBelowTop w srcDir) ->
        e = newError w "I can't be quiet and verbose at the same time").
Proof.
  intros schemaPath srcDir Hverbose Hquiet.
  destruct (run options w []) as [out tr] eqn:H.
  unfold run in H. rewrite Hverbose, Hquiet in H.
  fold schemaPath srcDir in H.
  exec H.
  all: injection H as <- <-.
  all: eexists _, _; split; [reflexivity|].
  all: split; [no_engine|].
  all: intros Hs Hd Hw; try reflexivity.
  all: exfalso; unfold schemaPath, srcDir in *.
  all: first
    [ congruence
    | destruct Hw as [Hw|[Hw Hroot]];
      first [congruence | apply Hfound in Hroot; congruence] ].
Qed.

(** The text of the root-file error. *)
Lemma rootFileMessage_eq (srcDir : string) :
  rootFileMessage srcDir
  = "--watch requires that the src directory have a valid watchman "
    +:+ JsString.dquote +:+ "root" +:+ JsString.dquote +:+ " file." +:+
    nl +:+
    nl +:+ "Root files can include:" +:+
    nl +:+ "- A .git/ Git folder" +:+
    nl +:+ "- A .hg/ Mercurial folder" +:+
    nl +:+ "- A .watchmanconfig file" +:+
    nl +:+
    nl +:+ "Ensure that one such file exists in " +:+ srcDir +:+ " or its parents.".
Proof.
  unfold rootFileMessage, JsString.trim.
  set (before :=
         "--watch requires that the src directory have a valid watchman "
         +:+ JsString.dquote +:+ "root" +:+ JsString.dquote +:+ " file." +:+
         nl +:+
         nl +:+ "Root files can include:" +:+
         nl +:+ "- A .git/ Git folder" +:+
         nl +:+ "- A .hg/ Mercurial folder" +:+
         nl +:+ "- A .watchmanconfig file" +:+
         nl +:+
         nl +:+ "Ensure that one such file exists in ").
  change (JsString.trimEnd
            (JsString.trimStart
               (nl +:+ before +:+ srcDir +:+ " or its parents." +:+ nl +:+ "    "))
          = before +:+ srcDir +:+ " or its parents.").
  replace (JsString.trimStart
             (nl +:+ before +:+ srcDir +:+ " or its parents." +:+ nl +:+ "    "))
    with ((before +:+ srcDir +:+ " or its parents")
          +:+ String "."%char (nl +:+ "    ")).
  - rewrite JsStringFacts.trimEnd_spaces by reflexivity.
    rewrite !JsStringFacts.append_assoc. reflexivity.
  - rewrite !JsStringFacts.append_assoc. reflexivity.
Qed.

(** C4, amended: when the schema and src paths exist, [watch] and
    [watchman] are set, and neither the source directory nor any directory
    above it has an entry named [.git], [.hg] or [.watchmanconfig], [run]
    throws the root-file error, and its trace has no call to the
    engine. *)
Theorem missing_root_file_rejected (options : Options.t) (w : World.t) :
  let schemaPath := path.resolve (World.cwd w) (Options.schema options) in
  let srcDir := path.resolve (World.cwd w) (Options.src options) in
  World.existsSync w schemaPath = true ->
  World.existsSync w srcDir = true ->
  Options.watch options = Some true ->
  Options.watchman options = true ->
  (forall n, containsRootFile w (ancestor n srcDir) = false) ->
  exists tr,
    run options w [] = (Threw (newError w (rootFileMessage srcDir)), tr)
    /\ invokesEngine tr = false.
Proof.
  intros schemaPath srcDir Hschema Hsrc Hwatch Hwatchman Hnone.
  destruct (run options w []) as [out tr] eqn:H.
  unfold run in H. rewrite Hwatch, Hwatchman in H.
  unfold_calls_in H. fold schemaPath srcDir in H.
  cbn beta iota zeta delta [negb andb truthy] in H.
  rewrite Hschema in H. cbn beta iota zeta delta [negb andb truthy] in H.
  rewrite Hsrc in H. cbn beta iota zeta delta [negb andb truthy] in H.
  destruct (hasWatchmanRootFile_spec w srcDir
              ([] ++ [ExistsSync schemaPath] ++ [ExistsSync srcDir]))
    as (found & new & E & HQ & Hfound).
  destruct found.
  { destruct (proj1 Hfound eq_refl) as [n [_ Hn]].
    rewrite Hnone in Hn. discriminate. }
  cbn [app] in E, H.
  rewrite E in H. cbn beta iota zeta delta [negb andb truthy] in H.
  injection H as <- <-.
  eexists. split; [reflexivity|]. no_engine.
Qed.

End Validation.

(** ** The schema loader *)

Ltac unfold_getSchema_in H :=
  unfold getSchema, try_catch, fs.readFileSync, JSON.parse, buildClientSchema,
    printSchema, parse, buildASTSchema in H;
  unfold_calls_in H.

Section SchemaLoader.

Context {L : Library} {P : path.ops}.

Lemma schemaPrelude_declarations :
  schemaPrelude
  = nl +:+ "  " +:+ Sdl.printDeclaration Sdl.include +:+
    nl +:+ "  " +:+ Sdl.printDeclaration Sdl.skip +:+
    nl +:+ nl +:+ "  ".
Proof. reflexivity. Qed.


End SchemaLoader.

(** ** The language plugin resolver *)

Section PluginResolver.

Context {L : Library} {P : path.ops}.

(** C7: for the language [javascript], the resolver returns the
    built-in plugin and leaves the trace as it is: no look at the file
    system, no module load. *)
Theorem getLanguagePlugin_javascript (w : World.t) (tr : list event) :
  getLanguagePlugin "javascript" w tr
  = (Returned (World.RelayLanguagePluginJavascript w), tr).
Proof. reflexivity. Qed.

(** C8: for a language other than the built-in one that is not the path
    of an existing file, when loading the prefixed package throws, or
    gives a value that neither is a function nor has a function as its
    [default], the resolver throws an error whose message names the
    prefixed package and ends with the message of the cause, and whose
    stack is the stack of the cause. *)
Theorem getLanguagePlugin_unloadable (language : string) (w : World.t) :
  let requirePath := "relay-compiler-language-" +:+ language in
  language <> "javascript" ->
  World.existsSync w (path.resolve (World.cwd w) language) = false ->
  (exists err, World.require w requirePath = inl err)
  \/ (exists v, World.require w requirePath = inr v /\ exportsFunction v = false) ->
  exists cause,
    getLanguagePlugin language w []
    = (Threw {| message := "Unable to load language plugin " +:+ requirePath
                           +:+ ": " +:+ message cause;
                stack := stack cause |},
       [ExistsSync (path.resolve (World.cwd w) language); Require requirePath])
    /\ (forall err, World.require w requirePath = inl err -> cause = err)
    /\ (forall v, World.require w requirePath = inr v ->
        cause = World.nullishTypeError w
        \/ cause = newError w "Expected plugin to export a function.").
Proof.
  intros requirePath Hlanguage Hexists Hload.
  apply String.eqb_neq in Hlanguage.
  unfold getLanguagePlugin, try_catch, get_default.
  rewrite Hlanguage. unfold_calls. cbn beta iota zeta.
  rewrite Hexists. cbn beta iota zeta. fold requirePath.
  destruct Hload as [[err Herr]|[v [Hv Hshape]]].
  - rewrite Herr. cbn beta iota zeta.
    exists err. repeat split; [congruence | discriminate].
  - rewrite Hv.
    destruct v as [| |truthy|[| |truthy'|d'|call' d']|call d];
      try discriminate Hshape; cbn beta iota zeta delta [isTruthy].
    all: try destruct truthy'; cbn beta iota zeta.
    all: first
      [ exists (World.nullishTypeError w); repeat apply conj;
        [reflexivity | discriminate | intros; auto]
      | exists (newError w "Expected plugin to export a function.");
        repeat apply conj; [reflexivity | discriminate | intros; auto] ].
Qed.

End PluginResolver.

(** ** The two file searches and the engine *)

Section Engine.

Context {L : Library} {P : path.ops}.

Lemma beforeSearches_no_glob (tr : list event) :
  forallb beforeSearches tr = true -> List.filter isGlobSync tr = [].
Proof.
  induction tr as [|e tr IH]; [reflexivity|].
  cbn [forallb List.filter]. intros H.
  apply andb_true_iff in H as [He Htr].
  unfold beforeSearches in He. apply andb_true_iff in He as [He _].
  destruct (isGlobSync e); [discriminate|]. auto.
Qed.

(** Brings the glob calls of a trace, given by its parts, to the
    front. *)
Ltac glob_calls :=
  rewrite ?List.filter_app;
  match goal with
  | Htr0 : forallb beforeSearches ?tr0 = true |- _ =>
      rewrite ?(beforeSearches_no_glob tr0 Htr0)
  end;
  cbn [List.filter isGlobSync app].

(** The parser configurations of the engine hold the two searches. *)
Ltac searches_held :=
  cbn [CodegenRunner.parserConfigs];
  split; [reflexivity|];
  unfold searched;
  cbn [ParserConfig.watchmanExpression ParserConfig.filepaths];
  repeat apply conj;
  first
    [ reflexivity
    | eexists; split; [eassumption | reflexivity] ].

(** C9: in every run the exclude list of the source search holds the
    artifacts pattern and every exclude pattern of the options, and the one
    of the graphql search holds the schema path relative to the source
    directory and every exclude pattern of the options; the glob calls of
    the run are these two searches, in this order, or the first of them, or
    none; and a run that builds the engine hands it the two parser
    configurations that hold the two searches, as watch expressions when
    watchman is used, else as the paths the two globs gave. *)
Theorem run_two_searches (options : Options.t) (w : World.t)
    (out : Outcome unit) (tr : list event) :
  let schemaPath := path.resolve (World.cwd w) (Options.schema options) in
  let srcDir := path.resolve (World.cwd w) (Options.src options) in
  run options w [] = (out, tr) ->
  exists inputExtensions,
    let source := sourceSearchOptions options inputExtensions in
    let graphql := graphqlSearchOptions options srcDir schemaPath in
    let sourceGlob :=
      GlobSync (globPatterns source) srcDir (SearchOptions.exclude source) in
    let graphqlGlob :=
      GlobSync (globPatterns graphql) srcDir (SearchOptions.exclude graphql) in
    In "**/*.graphql.*" (SearchOptions.exclude source)
    /\ incl (Options.exclude options) (SearchOptions.exclude source)
    /\ In (path.relative srcDir schemaPath) (SearchOptions.exclude graphql)
    /\ incl (Options.exclude options) (SearchOptions.exclude graphql)
    /\ (List.filter isGlobSync tr = []
        \/ List.filter isGlobSync tr = [sourceGlob]
        \/ List.filter isGlobSync tr = [sourceGlob; graphqlGlob])
    /\ forall args, In (NewCodegenRunner args) tr ->
       exists useWatchman sourceConfig graphqlConfig,
         CodegenRunner.parserConfigs args
         = <[ "graphql" := graphqlConfig ]>
             (<[ JsString.join "/" inputExtensions := sourceConfig ]> ∅)
         /\ searched w useWatchman srcDir source sourceConfig
         /\ searched w useWatchman srcDir graphql graphqlConfig
         /\ List.filter isGlobSync tr
            = (if useWatchman then [] else [sourceGlob; graphqlGlob]).
Proof.
  intros schemaPath srcDir H.
  set (Post := fun (out : Outcome unit) (tr : list event) =>
    exists inputExtensions,
      let source := sourceSearchOptions options inputExtensions in
      let graphql := graphqlSearchOptions options srcDir schemaPath in
      let sourceGlob :=
        GlobSync (globPatterns source) srcDir (SearchOptions.exclude source) in
      let graphqlGlob :=
        GlobSync (globPatterns graphql) srcDir (SearchOptions.exclude graphql) in
      In "**/*.graphql.*" (SearchOptions.exclude source)
      /\ incl (Options.exclude options) (SearchOptions.exclude source)
      /\ In (path.relative srcDir schemaPath) (SearchOptions.exclude graphql)
      /\ incl (Options.exclude options) (SearchOptions.exclude graphql)
      /\ (List.filter isGlobSync tr = []
          \/ List.filter isGlobSync tr = [sourceGlob]
          \/ List.filter isGlobSync tr = [sourceGlob; graphqlGlob])
      /\ forall args, In (NewCodegenRunner args) tr ->
         exists useWatchman sourceConfig graphqlConfig,
           CodegenRunner.parserConfigs args
           = <[ "graphql" := graphqlConfig ]>
               (<[ JsString.join "/" inputExtensions := sourceConfig ]> ∅)
           /\ searched w useWatchman srcDir source sourceConfig
           /\ searched w useWatchman srcDir graphql graphqlConfig
           /\ List.filter isGlobSync tr
              = (if useWatchman then [] else [sourceGlob; graphqlGlob])).
  change (Post out tr).
  apply (holds_run w beforeSearches Post (run options) out tr); [clear H|exact H].
  assert (Hvac : Vacuous beforeSearches Post).
  { intros o t Hall. exists []. cbn zeta.
    repeat apply conj; try (cbn; auto using incl_tl, incl_refl; fail).
    - left. apply beforeSearches_no_glob, Hall.
    - intros args Hin. exfalso. not_in_trace Hin. }
  unfold run. unfold process.cwd.
  holds_prefix Hvac.
  clear Hvac. intros tr0 Htr0 out' tr' H.
  unfold getFilepathsFromGlob in H.
  exec H.
  all: injection H as <- <-.
  all: match goal with
       | plugin : Plugin.t |- _ =>
           exists (match Options.extensions options with
                   | Some extensions => extensions
                   | None => Plugin.inputExtensions plugin
                   end)
       end.
  all: cbn zeta; glob_calls.
  all: repeat apply conj; try (cbn; auto using incl_tl, incl_refl; fail).
  all: try (first [ left; reflexivity
                  | right; left; reflexivity
                  | right; right; reflexivity ]).
  all: intros args Hin; rewrite !in_app_iff in Hin; cbn [In] in Hin.
  all: repeat match goal with
              | H : _ \/ _ |- _ => destruct H
              | H : False |- _ => destruct H
              | HQ : forallb _ ?t = true, H : In _ ?t |- _ =>
                  rewrite forallb_forall in HQ; apply HQ in H;
                  discriminate H
              | H : NewCodegenRunner _ = NewCodegenRunner _ |- _ =>
                  injection H as <-
              | H : @eq event _ _ |- _ => discriminate H
              end.
  all: first [ exists true; eexists _, _; solve [searches_held]
             | exists false; eexists _, _; solve [searches_held] ].
Qed.

(** C1: in a run that calls the engine and gets a result from it,
    [ERROR] makes the process exit with code 100; any other result than
    [NO_CHANGES], when [validate] is set, makes it exit with code 101;
    otherwise [run] returns. *)
Theorem run_exit_code (options : Options.t) (w : World.t)
    (out : Outcome unit) (tr : list event)
    (runner : CodegenRunner.t) (result : option string) :
  run options w [] = (out, tr) ->
  (In (CompileAll runner) tr /\ World.compileAll w runner = inr result)
  \/ (In (WatchAll runner) tr /\ World.watchAll w runner = inr result) ->
  out = if strictEq result "ERROR" then Exited 100
        else if Options.validate options && negb (strictEq result "NO_CHANGES")
             then Exited 101
             else Returned tt.
Proof.
  intros H.
  set (Keep := fun e : event => negb (isEngineCall e)).
  set (Post := fun (out : Outcome unit) (tr : list event) =>
         (In (CompileAll runner) tr /\ World.compileAll w runner = inr result)
         \/ (In (WatchAll runner) tr /\ World.watchAll w runner = inr result) ->
         out = if strictEq result "ERROR" then Exited 100
               else if Options.validate options
                       && negb (strictEq result "NO_CHANGES")
                    then Exited 101
                    else Returned tt).
  change (Post out tr).
  apply (holds_run w Keep Post (run options) out tr); [clear H|exact H].
  assert (Hvac : Vacuous Keep Post).
  { intros o t Hall [[Hin _]|[Hin _]]; exfalso; not_in_trace Hin. }
  unfold run. unfold process.cwd.
  holds_prefix Hvac.
  match goal with
  | |- Holds _ _ _ (bind (codegenRunner.create ?args) _) =>
      let r := fresh "args" in generalize args; intros r
  end.
  clear Hvac. intros tr0 Htr0 out' tr' H Hin.
  exec H.
  all: injection H as <- <-.
  all: destruct Hin as [[Hin Hres]|[Hin Hres]].
  all: try solve [exfalso; not_in_trace Hin].
  all: rewrite !in_app_iff in Hin; cbn [In] in Hin.
  all: repeat match goal with
              | H : _ \/ _ |- _ => destruct H
              | H : False |- _ => destruct H
              | HQ : forallb _ ?t = true, H : In _ ?t |- _ =>
                  rewrite forallb_forall in HQ; apply HQ in H;
                  discriminate H
              | H : CompileAll _ = CompileAll _ |- _ => injection H as ->
              | H : WatchAll _ = WatchAll _ |- _ => injection H as ->
              | H : @eq event _ _ |- _ => discriminate H
              end.
  all: rewrite Hres in *.
  all: try discriminate.
  all: match goal with H : inr _ = inr _ |- _ => injection H as -> end.
  all: repeat match goal with H : _ = _ |- _ => rewrite H end.
  all: reflexivity.
Qed.

End Engine.

(** ** The directives of a loaded schema

    With graphql as modelled in [Graphql]: what the two declarations in
    front of the schema text make of the loaded schema. *)

Section GraphqlParsing.

Import Graphql.













End GraphqlParsing.

Section SchemaDirectives.

Context {P : path.ops}.

#[local] Existing Instance Graphql.library.




End SchemaDirectives.

(** ** Finding a call in a computed trace *)

Section Finding.

Context {L : Library}.

Lemma compileAll_in_trace (tr : list event) :
  existsb (fun e => match e with CompileAll _ => true | _ => false end) tr = true ->
  exists runner, In (CompileAll runner) tr.
Proof.
  intros H. apply existsb_exists in H. destruct H as [e [Hin He]].
  destruct e; try discriminate He. eexists. exact Hin.
Qed.

Lemma newCodegenRunner_in_trace (tr : list event) :
  existsb (fun e => match e with NewCodegenRunner _ => true | _ => false end) tr = true ->
  exists args, In (NewCodegenRunner args) tr.
Proof.
  intros H. apply existsb_exists in H. destruct H as [e [Hin He]].
  destruct e; try discriminate He. eexists. exact Hin.
Qed.

End Finding.

(** ** The properties at work on the small installation *)

Section OnPosix.

Import Example.
#[local] Existing Instance library.

Lemma ancestors_of_src (n : nat) :
  ancestor n "/app/src" = "/app/src"
  \/ ancestor n "/app/src" = "/app"
  \/ ancestor n "/app/src" = "/".
Proof.
  destruct n as [|[|n]]; [left; reflexivity | right; left; reflexivity |].
  right; right.
  rewrite <- !ancestor_dirname.
  apply (ancestor_fixed n "/"). reflexivity.
Qed.

Lemma project_has_no_root_file (n : nat) :
  containsRootFile (machine project files None) (ancestor n "/app/src") = false.
Proof.
  destruct (ancestors_of_src n) as [H|[H|H]]; rewrite H; reflexivity.
Qed.

Lemma noSchema_has_no_root_file (n : nat) :
  containsRootFile (machine noSchema files None) (ancestor n "/app/src") = false.
Proof.
  destruct (ancestors_of_src n) as [H|[H|H]]; rewrite H; reflexivity.
Qed.

(** C1 at work: the engine answers [ERROR], the process exits with
    code 100. *)
Lemma run_exit_code_witness :
  fst (run options (machine project files (Some "ERROR")) []) = Exited 100.
Proof.
  set (w := machine project files (Some "ERROR")).
  destruct (compileAll_in_trace (snd (run options w []))) as [runner Hin];
    [vm_compute; reflexivity|].
  apply (run_exit_code options w _ (snd (run options w [])) runner (Some "ERROR")).
  - apply surjective_pairing.
  - left. split; [exact Hin | reflexivity].
Defined.

(** C2 at work: both paths exist and [watch] is not set, the error is
    the mutual-exclusivity one. *)
Lemma quiet_and_verbose_rejected_witness :
  fst (run quietAndVerbose (machine project files None) [])
  = Threw (newError (machine project files None)
             "I can't be quiet and verbose at the same time").
Proof.
  destruct (quiet_and_verbose_rejected quietAndVerbose
              (machine project files None) eq_refl eq_refl)
    as (e & tr & Hrun & _ & He).
  rewrite Hrun. cbn [fst]. f_equal.
  apply He; [reflexivity | reflexivity | left; reflexivity].
Defined.

(** C2 as stated fails: with [verbose] and [quiet] set and no schema
    file, the error is the one of the schema path. *)
Lemma quiet_and_verbose_counterexample :
  Options.verbose quietAndVerbose = true
  /\ Options.quiet quietAndVerbose = true
  /\ exists e tr,
       run quietAndVerbose (machine noSchema files None) [] = (Threw e, tr)
       /\ message e = "--schema path does not exist: /app/schema.graphql."
       /\ message e <> "I can't be quiet and verbose at the same time".
Proof.
  split; [reflexivity|]. split; [reflexivity|].
  exists (newError (machine noSchema files None)
            "--schema path does not exist: /app/schema.graphql."),
    [ExistsSync "/app/schema.graphql"].
  split; [reflexivity|]. split; [reflexivity|]. discriminate.
Qed.

(** C3 at work: no schema file. *)
Lemma missing_path_rejected_witness :
  exists msg tr,
    run options (machine noSchema files None) []
    = (Threw (newError (machine noSchema files None) msg), tr)
    /\ msg = "--schema path does not exist: /app/schema.graphql."
    /\ invokesEngine tr = false.
Proof.
  destruct (missing_path_rejected options (machine noSchema files None)
              ltac:(left; reflexivity))
    as (msg & tr & Hrun & Hmsg & _ & Hengine).
  exists msg, tr. split; [exact Hrun|]. split; [|exact Hengine].
  apply Hmsg. reflexivity.
Defined.

(** C4 at work: the project is in no repository. *)
Lemma missing_root_file_rejected_witness :
  exists tr,
    run watching (machine project files None) []
    = (Threw (newError (machine project files None)
                (rootFileMessage
                   (path.resolve (World.cwd (machine project files None))
                      (Options.src watching)))), tr)
    /\ invokesEngine tr = false.
Proof.
  exact (missing_root_file_rejected watching (machine project files None)
           eq_refl eq_refl eq_refl eq_refl project_has_no_root_file).
Defined.

(** C4 as stated fails: [watch] and [watchman] set, no root file
    anywhere, and no schema file: the error is the one of the schema
    path. *)
Lemma missing_root_file_counterexample :
  Options.watch watching = Some true
  /\ Options.watchman watching = true
  /\ (forall n,
        containsRootFile (machine noSchema files None)
          (ancestor n (path.resolve "/app" (Options.src watching))) = false)
  /\ exists e tr,
       run watching (machine noSchema files None) [] = (Threw e, tr)
       /\ message e = "--schema path does not exist: /app/schema.graphql."
       /\ message e <> rootFileMessage (path.resolve "/app" (Options.src watching)).
Proof.
  split; [reflexivity|]. split; [reflexivity|].
  split; [exact noSchema_has_no_root_file|].
  exists (newError (machine noSchema files None)
            "--schema path does not exist: /app/schema.graphql."),
    [ExistsSync "/app/schema.graphql"].
  split; [reflexivity|]. split; [reflexivity|]. 
  vm_compute. discriminate.
Qed.

(** C8 at work: no plugin for typescript is installed. *)
Lemma getLanguagePlugin_unloadable_witness :
  fst (getLanguagePlugin "typescript" (machine project files None) [])
  = Threw
      {| message :=
           "Unable to load language plugin relay-compiler-language-typescript: "
           +:+ "Cannot find module 'relay-compiler-language-typescript'";
         stack := "Error: Cannot find module 'relay-compiler-language-typescript'" |}.
Proof.
  destruct (getLanguagePlugin_unloadable "typescript"
              (machine project files None)
              ltac:(discriminate) eq_refl
              (or_introl (ex_intro _ _ eq_refl)))
    as (cause & Hrun & Herr & _).
  rewrite Hrun. rewrite (Herr _ eq_refl). reflexivity.
Defined.

(** C9 at work: the two globs of a plain run. *)
Lemma run_two_searches_witness :
  exists inputExtensions,
    List.filter isGlobSync (snd (run options (machine project files None) []))
    = [GlobSync
         (globPatterns (sourceSearchOptions options inputExtensions))
         "/app/src"
         ["**/*.graphql.*"; "**/node_modules/**"; "**/__mocks__/**";
          "**/__generated__/**"];
       GlobSync ["**/*.+(graphql)"] "/app/src"
         ["../schema.graphql"; "**/node_modules/**"; "**/__mocks__/**";
          "**/__generated__/**"]].
Proof.
  destruct (run_two_searches options (machine project files None) _ _
              (surjective_pairing _))
    as (inputExtensions & _ & _ & _ & _ & [Hglobs|[Hglobs|Hglobs]] & _);
    [ exfalso; revert Hglobs; vm_compute; discriminate
    | exfalso; revert Hglobs; vm_compute; discriminate |].
  exists inputExtensions. exact Hglobs.
Defined.

(** C10, where the code departs from it: the repository is at the root of
    the file system and the source directory is [/app].  The root
    directory, parent of [/app], has an entry [.git]; the loop looks
    into [/app] only and answers [false]. *)
Theorem root_file_at_root_not_found :
  hasWatchmanRootFile "/app" (machine repositoryAtRoot [] None) []
  = (Returned false,
     [ExistsSync "/app/.git"; ExistsSync "/app/.hg";
      ExistsSync "/app/.watchmanconfig"])
  /\ ancestor 1 "/app" = "/"
  /\ containsRootFile (machine repositoryAtRoot [] None) "/" = true.
Proof. repeat split. Qed.

(** What it does to [run]: with [watch] set, the project of a
    repository at the root of the file system is refused with the
    root-file error. *)
Lemma watch_refused_in_repository_at_root :
  containsRootFile (machine projectAtRoot files None) (ancestor 2 "/app/src")
  = true
  /\ fst (run watching (machine projectAtRoot files None) [])
     = Threw (newError (machine projectAtRoot files None)
                (rootFileMessage "/app/src")).
Proof. split; vm_compute; reflexivity. Qed.

End OnPosix.

(** ** The schema loader with graphql *)

Section OnGraphql.

#[local] Existing Instance posix.
#[local] Existing Instance Graphql.library.



End OnGraphql.

(** * Further properties of the program

    What the functions of [run.js] do besides what the specification says
    of them: the probes of the root-file search, the errors of the schema
    loader and of the plugin resolver, the watch expressions, the option
    checks, the arguments [run] hands to the engine, and the order and the
    extent of the calls of a run. *)

(** ** The probes of [hasWatchmanRootFile] *)

Section RootFileSearch.

Context {L : Library} {P : path.ops}.

(** The probes stop at the first path that exists. *)
Definition stopsAtFirstHit (w : World.t) (found : bool) (probes : list string)
    : Prop :=
  if found then
    exists before hit,
      probes = before ++ [hit]
      /\ World.existsSync w hit = true
      /\ forall q, In q before -> World.existsSync w q = false
  else forall q, In q probes -> World.existsSync w q = false.

Lemma some_probes (w : World.t) dir files tr :
  exists probes,
    some (fun file => fs.existsSync (path.join dir file)) files w tr
    = (Returned (existsb (fun file => World.existsSync w (path.join dir file)) files),
       tr ++ map ExistsSync probes)
    /\ (forall q, In q probes -> exists file, q = path.join dir file /\ In file files)
    /\ stopsAtFirstHit w
         (existsb (fun file => World.existsSync w (path.join dir file)) files)
         probes.
Proof.
  revert tr. induction files as [|file files IH]; intros tr.
  - exists []. cbn. rewrite app_nil_r. repeat split; intros q [].
  - cbn [some existsb]. unfold bind at 1, fs.existsSync at 1.
    unfold bind at 1, emit, ask.
    destruct (World.existsSync w (path.join dir file)) eqn:Hfile; cbn [orb].
    + exists [path.join dir file]. repeat split.
      * intros q [<-|[]]. exists file. split; [reflexivity | left; reflexivity].
      * exists [], (path.join dir file). repeat split; [exact Hfile | intros q []].
    + destruct (IH (tr ++ [ExistsSync (path.join dir file)]))
        as (probes & Hrun & Hin & Hstop).
      exists (path.join dir file :: probes). rewrite Hrun.
      rewrite <- app_assoc. repeat split.
      * intros q [<-|Hq].
        -- exists file. split; [reflexivity | left; reflexivity].
        -- destruct (Hin q Hq) as (f & -> & Hf). exists f.
           split; [reflexivity | right; exact Hf].
      * unfold stopsAtFirstHit in *.
        destruct (existsb _ files).
        -- destruct Hstop as (before & hit & -> & Hhit & Hbefore).
           exists (path.join dir file :: before), hit.
           repeat split; [exact Hhit|].
           intros q [<-|Hq]; [exact Hfile | apply Hbefore, Hq].
        -- intros q [<-|Hq]; [exact Hfile | apply Hstop, Hq].
Qed.

Lemma stopsAtFirstHit_after (w : World.t) found before probes :
  (forall q, In q before -> World.existsSync w q = false) ->
  stopsAtFirstHit w found probes ->
  stopsAtFirstHit w found (before ++ probes).
Proof.
  intros Hbefore. unfold stopsAtFirstHit. destruct found.
  - intros (pre & hit & -> & Hhit & Hpre).
    exists (before ++ pre), hit. rewrite app_assoc.
    repeat split; [exact Hhit|].
    intros q Hq. apply in_app_or in Hq as [Hq|Hq]; auto.
  - intros Hprobes q Hq. apply in_app_or in Hq as [Hq|Hq]; auto.
Qed.

Lemma hasWatchmanRootFile_loop_probes (w : World.t) fuel :
  forall p tr, path.height p < fuel ->
  exists found probes,
    hasWatchmanRootFile_loop fuel p w tr
    = (Returned found, tr ++ map ExistsSync probes)
    /\ (forall q, In q probes ->
        exists n file,
          q = path.join (ancestor n p) file
          /\ In file WATCHMAN_ROOT_FILES
          /\ path.dirname (ancestor n p) <> ancestor n p)
    /\ stopsAtFirstHit w found probes.
Proof.
  induction fuel as [|fuel IH]; intros p tr Hfuel; [lia|].
  cbn [hasWatchmanRootFile_loop].
  destruct (String.eqb (path.dirname p) p) eqn:Hroot; cbn [negb].
  - exists false, []. cbn. rewrite app_nil_r.
    repeat split; intros q [].
  - apply String.eqb_neq in Hroot.
    unfold bind at 1.
    destruct (some_probes w p WATCHMAN_ROOT_FILES tr)
      as (here & Hrun & Hhere & Hstop).
    rewrite Hrun.
    destruct (existsb _ WATCHMAN_ROOT_FILES) eqn:Hfound.
    + exists true, here. repeat split; [|exact Hstop].
      intros q Hq. destruct (Hhere q Hq) as (file & -> & Hfile).
      exists 0, file. repeat split; assumption.
    + destruct (IH (path.dirname p) (tr ++ map ExistsSync here))
        as (found & above & Hloop & Habove & Hstop').
      { pose proof (path.dirname_height p Hroot). lia. }
      exists found, (here ++ above). rewrite Hloop.
      rewrite map_app, app_assoc. repeat split.
      * intros q Hq. apply in_app_or in Hq as [Hq|Hq].
        -- destruct (Hhere q Hq) as (file & -> & Hfile).
           exists 0, file. repeat split; assumption.
        -- destruct (Habove q Hq) as (n & file & -> & Hfile & Hn).
           exists (S n), file. rewrite <- ancestor_dirname.
           repeat split; assumption.
      * apply stopsAtFirstHit_after; [exact Hstop | exact Hstop'].
Qed.

(** X1: [hasWatchmanRootFile] returns for every path.  It asks the file
    system about nothing but entries named [.git], [.hg] or
    [.watchmanconfig] in the given directory and the directories above it
    that are not their own parent; it stops at the first of them that
    exists; and it answers [true] exactly when one of these directories
    has such an entry. *)
Theorem hasWatchmanRootFile_probes (w : World.t) (p : string) (tr : list event) :
  exists found probes,
    hasWatchmanRootFile p w tr = (Returned found, tr ++ map ExistsSync probes)
    /\ (found = true <-> rootFileBelowTop w p)
    /\ (forall q, In q probes ->
        exists n file,
          q = path.join (ancestor n p) file
          /\ In file WATCHMAN_ROOT_FILES
          /\ path.dirname (ancestor n p) <> ancestor n p)
    /\ stopsAtFirstHit w found probes.
Proof.
  destruct (hasWatchmanRootFile_loop_probes w (S (path.height p)) p tr)
    as (found & probes & Hrun & Hprobes & Hstop); [lia|].
  fold (hasWatchmanRootFile p) in Hrun.
  exists found, probes. repeat apply conj; try assumption.
  - intros ->.
    destruct (hasWatchmanRootFile_spec w p tr) as (b & new & E & _ & Hiff).
    rewrite Hrun in E. injection E as <- _. apply Hiff. reflexivity.
  - intros Hbelow.
    destruct (hasWatchmanRootFile_spec w p tr) as (b & new & E & _ & Hiff).
    rewrite Hrun in E. injection E as <- _. apply Hiff, Hbelow.
Qed.

(** A directory that is its own parent is never looked into: the search
    answers [false] there without asking the file system. *)
Lemma hasWatchmanRootFile_top (w : World.t) (p : string) (tr : list event) :
  path.dirname p = p -> hasWatchmanRootFile p w tr = (Returned false, tr).
Proof.
  intros Htop. unfold hasWatchmanRootFile.
  cbn [hasWatchmanRootFile_loop].
  apply String.eqb_eq in Htop. rewrite Htop. reflexivity.
Qed.

End RootFileSearch.

(** ** More on the strings of JavaScript *)

Module JsStringMore.
Import JsString JsStringFacts.

Lemma rev_append (a b : string) : rev (a +:+ b) = rev b +:+ rev a.
Proof.
  unfold rev. rewrite list_of_append, rev_app_distr. apply string_of_app.
Qed.

Lemma rev_rev (s : string) : rev (rev s) = s.
Proof.
  unfold rev. rewrite list_ascii_of_string_of_list_ascii, rev_involutive.
  apply string_of_list_ascii_of_string.
Qed.

Lemma rev_empty (s : string) : rev s = EmptyString -> s = EmptyString.
Proof. intros H. rewrite <- (rev_rev s), H. reflexivity. Qed.

Lemma trimStart_append_blank (a b : string) :
  trimStart a = EmptyString -> trimStart (a +:+ b) = trimStart b.
Proof.
  induction a as [|c a IH]; [reflexivity|].
  change (String c a +:+ b) with (String c (a +:+ b)).
  cbn [trimStart]. destruct (isWhiteSpace c); [exact IH | discriminate].
Qed.

Lemma trimStart_append_kept (a b : string) :
  trimStart a <> EmptyString -> trimStart (a +:+ b) = trimStart a +:+ b.
Proof.
  induction a as [|c a IH]; [intros H; destruct H; reflexivity|].
  change (String c a +:+ b) with (String c (a +:+ b)).
  cbn [trimStart]. destruct (isWhiteSpace c); [exact IH | reflexivity].
Qed.

(** White space at the end goes. *)
Lemma trimEnd_append_blank (a b : string) :
  trimEnd b = EmptyString -> trimEnd (a +:+ b) = trimEnd a.
Proof.
  intros H. unfold trimEnd in *. apply rev_empty in H.
  rewrite rev_append, trimStart_append_blank; [reflexivity | exact H].
Qed.

(** What comes before a character that stays is untouched. *)
Lemma trimEnd_append_kept (a b : string) :
  trimEnd b <> EmptyString -> trimEnd (a +:+ b) = a +:+ trimEnd b.
Proof.
  intros H. unfold trimEnd in *.
  rewrite rev_append, trimStart_append_kept.
  - rewrite rev_append, rev_rev. reflexivity.
  - intros E. apply H. rewrite E. reflexivity.
Qed.

Lemma trimEnd_String (c : ascii) (s : string) :
  isWhiteSpace c = false -> trimEnd (String c s) = String c (trimEnd s).
Proof.
  intros Hc.
  change (String c s) with (String c EmptyString +:+ s).
  destruct (string_dec (trimEnd s) EmptyString) as [E|E].
  - rewrite trimEnd_append_blank by exact E. rewrite E.
    unfold trimEnd, rev. cbn. rewrite Hc. reflexivity.
  - rewrite trimEnd_append_kept by exact E. reflexivity.
Qed.

Lemma prefix_iff (p s : string) :
  String.prefix p s = true <-> exists rest, s = p +:+ rest.
Proof.
  revert s. induction p as [|c p IH]; intros s.
  - split; [intros _; exists s; reflexivity | intros _; destruct s; reflexivity].
  - destruct s as [|d s]; cbn [String.prefix].
    + split; [discriminate | intros [rest H]; discriminate H].
    + destruct (ascii_dec c d) as [->|Hcd].
      * rewrite IH. split; intros [rest H]; exists rest.
        -- rewrite H. reflexivity.
        -- change (String d p +:+ rest) with (String d (p +:+ rest)) in H.
           congruence.
      * split; [discriminate|]. intros [rest H].
        change (String c p +:+ rest) with (String c (p +:+ rest)) in H.
        congruence.
Qed.

(** [s.endsWith(suffix)]: [s] is a text followed by [suffix]. *)
Lemma endsWith_iff (s suf : string) :
  endsWith s suf = true <-> exists stem, s = stem +:+ suf.
Proof.
  unfold endsWith. rewrite prefix_iff. split.
  - intros [rest H]. exists (rev rest).
    rewrite <- (rev_rev s), H, rev_append, rev_rev. reflexivity.
  - intros [stem ->]. exists (rev stem). apply rev_append.
Qed.

(** [s.includes(sub)]: [sub] occurs somewhere in [s]. *)
Lemma includes_iff (s sub : string) :
  includes s sub = true <-> exists before after, s = before +:+ sub +:+ after.
Proof.
  induction s as [|c s IH].
  - cbn [includes]. rewrite orb_false_r, prefix_iff. split.
    + intros [rest H]. exists EmptyString, rest. exact H.
    + intros [[|x before] [after H]]; [exists after; exact H | discriminate H].
  - cbn [includes]. rewrite orb_true_iff, IH, prefix_iff. split.
    + intros [[rest H]|[before [after H]]].
      * exists EmptyString, rest. exact H.
      * exists (String c before), after. rewrite H. reflexivity.
    + intros [[|x before] [after H]].
      * left. exists after. exact H.
      * right. exists before, after.
        change (String x before +:+ sub +:+ after)
          with (String x (before +:+ sub +:+ after)) in H.
        congruence.
Qed.

End JsStringMore.

(** ** The errors of the schema loader *)

Section SchemaErrors.

Context {L : Library} {P : path.ops}.

(** The error a call of the schema loader ends with in [w], if it
    fails.  [JSON.parse(source).data] fails when the parse does, or when
    the property cannot be read. *)
Definition callFailure (w : World.t) (e : event) : option JsError :=
  match e with
  | ReadFileSync p =>
      match World.readFileSync w p with inl err => Some err | inr _ => None end
  | JsonParse text =>
      match Lib.JSON_parse text with
      | inl err => Some err
      | inr json =>
          match Lib.get_data json with inl err => Some err | inr _ => None end
      end
  | BuildClientSchema j =>
      match Lib.buildClientSchema j with inl err => Some err | inr _ => None end
  | PrintSchema s =>
      match Lib.printSchema s with inl err => Some err | inr _ => None end
  | Parse text =>
      match Lib.parse text with inl err => Some err | inr _ => None end
  | BuildASTSchema d =>
      match Lib.buildASTSchema d with inl err => Some err | inr _ => None end
  | _ => None
  end.

(** The message of the error thrown in the [catch] of [getSchema]. *)
Definition schemaErrorMessage (cause : JsError) : string :=
  "Error loading schema. Expected the schema to be a .graphql or a .json" +:+
  nl +:+ "file, describing your GraphQL server's API. Error detail:" +:+
  JsString.trimEnd (nl +:+ nl +:+ stack cause).

Lemma schemaErrorMessage_eq (cause : JsError) :
  JsString.trim
    (nl +:+ "Error loading schema. Expected the schema to be a .graphql or a .json" +:+
     nl +:+ "file, describing your GraphQL server's API. Error detail:" +:+
     nl +:+ nl +:+ stack cause +:+
     nl +:+ "    ")
  = schemaErrorMessage cause.
Proof.
  unfold schemaErrorMessage, JsString.trim.
  set (head :=
         "Error loading schema. Expected the schema to be a .graphql or a .json"
         +:+ nl +:+ "file, describing your GraphQL server's API. Error detail").
  replace (JsString.trimStart _)
    with (head +:+ String ":"%char ((nl +:+ nl +:+ stack cause) +:+ (nl +:+ "    "))).
  - assert (Hkept : JsString.trimEnd (String ":"%char ((nl +:+ nl +:+ stack cause) +:+ (nl +:+ "    ")))
                    = String ":"%char (JsString.trimEnd (nl +:+ nl +:+ stack cause))).
    { rewrite JsStringMore.trimEnd_String by reflexivity.
      rewrite JsStringMore.trimEnd_append_blank by reflexivity. reflexivity. }
    rewrite JsStringMore.trimEnd_append_kept; rewrite Hkept; [|discriminate].
    rewrite <- JsStringFacts.append_assoc.
    reflexivity.
  - rewrite !JsStringFacts.append_assoc. reflexivity.
Qed.

(** What the calls made so far answered. *)
Ltac answers :=
  cbn [callFailure];
  repeat match goal with
         | H : _ = inl _ |- _ => rewrite H
         | H : _ = inr _ |- _ => rewrite H
         end;
  reflexivity.

Ltac succeeded Hc :=
  cbn [In] in Hc;
  repeat (destruct Hc as [<-|Hc]; [answers|]);
  destruct Hc.

(** The computation has failed at the call that follows [before]. *)
Ltac failed_at before :=
  eexists _, _; split; [reflexivity|]; right;
  exists before; eexists _, _;
  split; [reflexivity|];
  split; [let c := fresh "c" in let Hc := fresh "Hc" in
          intros c Hc; succeeded Hc|];
  split; [answers | rewrite schemaErrorMessage_eq; reflexivity].

(** X2: [getSchema] stops at the first call that fails and wraps its error:
    the first call is the read of the schema file; if all calls succeed a
    schema is returned; otherwise the last call made is the only one that
    failed, and the error thrown is a new error whose message is the
    heading [Error loading schema ...] followed by the stack of the error
    of that call, white space at the end removed. *)
Theorem getSchema_stops_at_first_failure (schemaPath : string) (w : World.t) :
  exists out rest,
    getSchema schemaPath w [] = (out, ReadFileSync schemaPath :: rest)
    /\ ((exists schema,
           out = Returned schema
           /\ forall call, In call (ReadFileSync schemaPath :: rest) ->
                callFailure w call = None)
        \/ (exists before call cause,
              ReadFileSync schemaPath :: rest = before ++ [call]
              /\ (forall c, In c before -> callFailure w c = None)
              /\ callFailure w call = Some cause
              /\ out = Threw (newError w (schemaErrorMessage cause)))).
Proof.
  unfold getSchema, try_catch, throwNew, Error.
  unfold fs.readFileSync, JSON.parse, buildClientSchema, printSchema, parse,
    buildASTSchema.
  unfold_calls. cbn beta iota zeta.
  destruct (World.readFileSync w schemaPath) as [err|source] eqn:Hread;
    cbn beta iota zeta; [failed_at (@nil event)|].
  destruct (String.eqb (path.extname schemaPath) ".json"); cbn beta iota zeta.
  - destruct (Lib.JSON_parse source) as [err|json] eqn:Hjson;
      cbn beta iota zeta; [failed_at [ReadFileSync schemaPath]|].
    destruct (Lib.get_data json) as [err|data] eqn:Hdata;
      cbn beta iota zeta; [failed_at [ReadFileSync schemaPath]|].
    destruct (Lib.buildClientSchema data) as [err|client] eqn:Hclient;
      cbn beta iota zeta;
      [failed_at [ReadFileSync schemaPath; JsonParse source]|].
    destruct (Lib.printSchema client) as [err|printed] eqn:Hprint;
      cbn beta iota zeta;
      [failed_at [ReadFileSync schemaPath; JsonParse source;
                  BuildClientSchema data]|].
    destruct (Lib.parse _) as [err|document] eqn:Hparse;
      cbn beta iota zeta;
      [failed_at [ReadFileSync schemaPath; JsonParse source;
                  BuildClientSchema data; PrintSchema client]|].
    destruct (Lib.buildASTSchema document) as [err|schema] eqn:Hbuild;
      cbn beta iota zeta;
      [failed_at [ReadFileSync schemaPath; JsonParse source;
                  BuildClientSchema data; PrintSchema client;
                  Parse (schemaPrelude +:+ printed +:+ schemaEpilogue)]|].
    eexists _, _. split; [reflexivity|]. left.
    exists schema. split; [reflexivity | intros c Hc; succeeded Hc].
  - destruct (Lib.parse _) as [err|document] eqn:Hparse;
      cbn beta iota zeta; [failed_at [ReadFileSync schemaPath]|].
    destruct (Lib.buildASTSchema document) as [err|schema] eqn:Hbuild;
      cbn beta iota zeta;
      [failed_at [ReadFileSync schemaPath;
                  Parse (schemaPrelude +:+ source +:+ schemaEpilogue)]|].
    eexists _, _. split; [reflexivity|]. left.
    exists schema. split; [reflexivity | intros c Hc; succeeded Hc].
Qed.

End SchemaErrors.

(** ** What the plugin resolver loads *)

Section PluginLoading.

Context {L : Library} {P : path.ops}.

(** The constant [requirePath] of [getLanguagePlugin]. *)
Definition requirePath (w : World.t) (language : string) : string :=
  let pluginPath := path.resolve (World.cwd w) language in
  if World.existsSync w pluginPath then pluginPath
  else "relay-compiler-language-" +:+ language.

(** The error [e] of the [catch] of [getLanguagePlugin]. *)
Definition pluginLoadError (requirePath : string) (err : JsError) : JsError :=
  {| message := "Unable to load language plugin " +:+ requirePath +:+ ": "
                +:+ message err;
     stack := stack err |}.

(** What the resolver makes of the answer of the initializer. *)
Definition initialized (requirePath : string) (call : Res Plugin.t)
    : Outcome Plugin.t :=
  match call with
  | inr plugin => Returned plugin
  | inl err => Threw (pluginLoadError requirePath err)
  end.

Ltac resolve_plugin Hlanguage :=
  apply String.eqb_neq in Hlanguage;
  unfold getLanguagePlugin, try_catch, get_default, requirePath;
  rewrite Hlanguage; unfold_calls; cbn beta iota zeta;
  match goal with
  | |- context [World.existsSync ?w ?p] => destruct (World.existsSync w p)
  end;
  cbn beta iota zeta.

(** X3: for a language other than the built-in one the resolver asks once
    whether the language is the path of an existing file and loads one
    module: that file if it exists, else the package
    [relay-compiler-language-<language>].  It returns a plugin or throws
    an error that names what it tried to load, with the message and the
    stack of the cause; when the load itself fails, the cause is the error
    of the load. *)
Theorem getLanguagePlugin_loads_one_module (language : string) (w : World.t) :
  language <> "javascript" ->
  exists out,
    getLanguagePlugin language w []
    = (out, [ExistsSync (path.resolve (World.cwd w) language);
             Require (requirePath w language)])
    /\ ((exists plugin, out = Returned plugin)
        \/ (exists cause,
              out = Threw (pluginLoadError (requirePath w language) cause)
              /\ forall err,
                   World.require w (requirePath w language) = inl err ->
                   cause = err)).
Proof.
  intros Hlanguage. resolve_plugin Hlanguage.
  all: destruct (World.require w _) as [err|v]; cbn beta iota zeta.
  all: try (eexists; split; [reflexivity|]; right; exists err;
            split; [reflexivity | congruence]).
  all: destruct v as [| |truthy|[| |truthy'|d'|[err|plugin] d']|[err|plugin] d];
    cbn beta iota zeta delta [isTruthy].
  all: try destruct truthy'; try destruct d as [| |[|]|?|[?|?] ?];
    cbn beta iota zeta delta [isTruthy].
  all: eexists; (split; [reflexivity|]).
  all: first [ left; eexists; reflexivity
             | right; eexists; split; [reflexivity | discriminate] ].
Qed.

(** X4: a module that is a function, with no [default] export or a falsy
    one, is the initializer: the plugin is what calling it returns, and an
    error it throws is reported with the location of the module. *)
Theorem getLanguagePlugin_calls_module (language : string) (w : World.t)
    (call : Res Plugin.t) (default : JsValue) :
  language <> "javascript" ->
  World.require w (requirePath w language) = inr (Function call default) ->
  isTruthy default = false ->
  fst (getLanguagePlugin language w [])
  = initialized (requirePath w language) call.
Proof.
  intros Hlanguage Hload Hdefault. revert Hload. resolve_plugin Hlanguage.
  all: intros ->; cbn beta iota zeta; rewrite Hdefault.
  all: destruct call; reflexivity.
Qed.

(** X5: the [default] export comes first.  When the loaded module has a
    truthy [default], that value alone decides: if it is a function, the
    plugin is what calling it returns; if not, the resolver fails with
    [Expected plugin to export a function.], also when the module itself is
    a function. *)
Theorem getLanguagePlugin_default_first (language : string) (w : World.t)
    (loaded default : JsValue) :
  language <> "javascript" ->
  World.require w (requirePath w language) = inr loaded ->
  (loaded = Object default \/ exists call, loaded = Function call default) ->
  isTruthy default = true ->
  fst (getLanguagePlugin language w [])
  = match default with
    | Function call _ => initialized (requirePath w language) call
    | _ =>
        Threw (pluginLoadError (requirePath w language)
                 (newError w "Expected plugin to export a function."))
    end.
Proof.
  intros Hlanguage Hload Hshape Hdefault. revert Hload.
  resolve_plugin Hlanguage.
  all: intros ->; cbn beta iota zeta.
  all: destruct Hshape as [->|[call ->]]; cbn beta iota zeta; rewrite Hdefault.
  all: destruct default as [| |truthy|d'|[err|plugin] d'];
    try discriminate Hdefault; reflexivity.
Qed.

End PluginLoading.

(** ** The watch expressions *)

Section WatchExpressions.

Context {L : Library} {P : path.ops}.

Lemma map_injective {A B} (f : A -> B) (l1 l2 : list A) :
  (forall x y, f x = f y -> x = y) -> map f l1 = map f l2 -> l1 = l2.
Proof.
  intros Hf. revert l2.
  induction l1 as [|x l1 IH]; intros [|y l2] H; try discriminate H;
    [reflexivity|].
  cbn [map] in H. injection H as Hxy H. f_equal; auto.
Qed.

(** X6: the watch expression built from search options carries all of them:
    two sets of search options give the same expression only if they have
    the same extensions, the same include patterns and the same exclude
    patterns, in the same order. *)
Theorem buildWatchExpression_faithful (options1 options2 : SearchOptions.t) :
  buildWatchExpression options1 = buildWatchExpression options2
  <-> options1 = options2.
Proof.
  split; [|intros ->; reflexivity].
  destruct options1 as [extensions1 include1 exclude1].
  destruct options2 as [extensions2 include2 exclude2].
  unfold buildWatchExpression.
  cbn [SearchOptions.extensions SearchOptions.include SearchOptions.exclude app].
  intros H. injection H as Hext Hinc Hexc.
  apply map_injective in Hext; [|intros x y E; congruence].
  apply map_injective in Hinc; [|intros x y E; congruence].
  apply map_injective in Hexc; [|intros x y E; congruence].
  congruence.
Qed.

End WatchExpressions.

(** ** Computations that return or throw *)

Section Settling.

Context {L : Library} {P : path.ops}.

(** [m] neither leaves the process nor runs out of fuel. *)
Definition Settles {A} (m : M A) : Prop :=
  forall w tr,
    match fst (m w tr) with
    | Returned _ | Threw _ => True
    | Exited _ | OutOfFuel => False
    end.

Lemma settles_ret {A} (a : A) : Settles (ret a).
Proof. intros w tr. exact I. Qed.

Lemma settles_throw {A} e : Settles (@throw _ A e).
Proof. intros w tr. exact I. Qed.

Lemma settles_ask {A} (f : World.t -> A) : Settles (ask f).
Proof. intros w tr. exact I. Qed.

Lemma settles_emit e : Settles (emit e).
Proof. intros w tr. exact I. Qed.

Lemma settles_lift {A} (r : Res A) : Settles (lift r).
Proof. destruct r; intros w tr; exact I. Qed.

Lemma settles_bind {A B} (m : M A) (k : A -> M B) :
  Settles m -> (forall a, Settles (k a)) -> Settles (bind m k).
Proof.
  intros Hm Hk w tr. unfold bind. specialize (Hm w tr).
  destruct (m w tr) as [[a|e|c|] tr']; cbn [fst] in *;
    [apply Hk | exact I | contradiction | contradiction].
Qed.

Lemma settles_try_catch {A} (body : M A) (handler : JsError -> M A) :
  Settles body -> (forall e, Settles (handler e)) ->
  Settles (try_catch body handler).
Proof.
  intros Hm Hk w tr. unfold try_catch. specialize (Hm w tr).
  destruct (body w tr) as [[a|e|c|] tr']; cbn [fst] in *;
    [exact I | apply Hk | contradiction | contradiction].
Qed.

Lemma settles_when (b : bool) (m : M unit) : Settles m -> Settles (when b m).
Proof. destruct b; [auto | intros _; apply settles_ret]. Qed.

Lemma settles_Error msg : Settles (Error msg).
Proof. apply settles_ask. Qed.

Lemma settles_throwNew {A} msg : Settles (@throwNew _ A msg).
Proof. apply settles_bind; [apply settles_ask | intros; apply settles_throw]. Qed.

End Settling.

Create HintDb settles.
#[global] Hint Resolve settles_ret settles_throw settles_ask settles_emit
  settles_lift settles_when settles_Error settles_throwNew : settles.

(** Proves [Settles m] along the structure of [m]. *)
Ltac settles :=
  repeat first
    [ solve [auto with settles]
    | apply settles_bind; [|intros]
    | apply settles_try_catch; [|intros]
    | match goal with
      | |- Settles (if ?b then _ else _) => destruct b
      | |- Settles (match ?x with _ => _ end) => destruct x
      end ].

Section HelpersSettle.

Context {L : Library} {P : path.ops}.

Lemma settles_hasWatchmanRootFile p : Settles (hasWatchmanRootFile p).
Proof.
  intros w tr.
  destruct (hasWatchmanRootFile_spec w p tr) as (b & new & E & _).
  rewrite E. exact I.
Qed.

Lemma settles_getSchema p : Settles (getSchema p).
Proof.
  unfold getSchema, fs.readFileSync, JSON.parse, buildClientSchema,
    printSchema, parse, buildASTSchema.
  settles.
Qed.

Lemma settles_getLanguagePlugin language :
  Settles (getLanguagePlugin language).
Proof.
  unfold getLanguagePlugin, process.cwd, fs.existsSync, get_default.
  settles.
Qed.

Lemma settles_getFilepathsFromGlob baseDir options :
  Settles (getFilepathsFromGlob baseDir options).
Proof. unfold getFilepathsFromGlob. settles. Qed.

End HelpersSettle.

#[global] Hint Resolve settles_hasWatchmanRootFile settles_getSchema
  settles_getLanguagePlugin settles_getFilepathsFromGlob : settles.

Ltac settles_run :=
  unfold codegenRunner.create, codegenRunner.compileAll,
    codegenRunner.watchAll, WatchmanClient.isAvailable, console.log,
    fs.existsSync, process.cwd;
  settles.

(** ** More rules for the prefix of a run *)

Section MoreLogic.

Context {L : Library} {P : path.ops}.

(** As [holds_bind], with what [m] returned known in the rest. *)
Lemma holds_bind_result {A B} w Keep (Post : Outcome B -> list event -> Prop)
    (m : M A) (k : A -> M B) :
  Emits Keep m -> Vacuous Keep Post ->
  (forall a, fst (m w []) = Returned a -> Holds w Keep Post (k a)) ->
  Holds w Keep Post (bind m k).
Proof.
  intros Hm Hvac Hk tr0 Htr0 out tr H. unfold bind in H.
  destruct (m w tr0) as [o t] eqn:E.
  apply (emits_inv _ _ _ _ _ _ Hm) in E. destruct E as (new & -> & E & HQ).
  assert (Hall : forallb Keep (tr0 ++ new) = true)
    by (rewrite forallb_app, Htr0, HQ; reflexivity).
  destruct o; try (injection H as <- <-; apply Hvac; exact Hall).
  apply (Hk a ltac:(rewrite E; reflexivity) _ Hall _ _ H).
Qed.

(** As [holds_bind], for an [m] that returns or throws: the
    postcondition is asked of the thrown errors only. *)
Lemma holds_bind_settles {A B} w Keep (Post : Outcome B -> list event -> Prop)
    (m : M A) (k : A -> M B) :
  Emits Keep m -> Settles m ->
  (forall e tr, forallb Keep tr = true -> Post (Threw e) tr) ->
  (forall a, Holds w Keep Post (k a)) ->
  Holds w Keep Post (bind m k).
Proof.
  intros Hm Hs Hvac Hk tr0 Htr0 out tr H. unfold bind in H.
  specialize (Hs w tr0).
  destruct (m w tr0) as [o t] eqn:E.
  apply (emits_inv _ _ _ _ _ _ Hm) in E. destruct E as (new & -> & E & HQ).
  assert (Hall : forallb Keep (tr0 ++ new) = true)
    by (rewrite forallb_app, Htr0, HQ; reflexivity).
  cbn [fst] in Hs.
  destruct o; try contradiction.
  - apply (Hk a _ Hall _ _ H).
  - injection H as <- <-. apply Hvac. exact Hall.
Qed.

(** What the steps of [run] return. *)
Lemma result_existsSync (w : World.t) p b :
  fst (fs.existsSync p w []) = Returned b -> b = World.existsSync w p.
Proof. cbn. congruence. Qed.

Lemma result_when_throwNew (w : World.t) (b : bool) msg u :
  fst (when b (throwNew msg) w []) = Returned u -> b = false.
Proof. destruct b; [discriminate | reflexivity]. Qed.

Lemma result_noRootFile (w : World.t) (watch : bool) srcDir noRootFile :
  fst ((if watch
        then bind (hasWatchmanRootFile srcDir) (fun found => ret (negb found))
        else ret false) w []) = Returned noRootFile ->
  noRootFile = false -> watch = true -> rootFileBelowTop w srcDir.
Proof.
  intros H -> ->. unfold bind in H.
  destruct (hasWatchmanRootFile_spec w srcDir []) as (b & new & E & _ & Hiff).
  rewrite E in H. cbn in H. apply Hiff.
  destruct b; [reflexivity | discriminate H].
Qed.

Lemma result_useWatchman (w : World.t) (watchman useWatchman : bool) :
  fst ((if watchman then WatchmanClient.isAvailable else ret false) w [])
  = Returned useWatchman ->
  useWatchman = watchman && World.watchmanIsAvailable w.
Proof. destruct watchman; cbn; congruence. Qed.

Lemma result_artifactDirectory (w : World.t) (provided : option string) dir :
  fst (match provided with
       | Some providedArtifactDirectory =>
           bind process.cwd (fun cwd =>
             ret (Some (path.resolve cwd providedArtifactDirectory)))
       | None => ret None
       end w []) = Returned dir ->
  dir = option_map (path.resolve (World.cwd w)) provided.
Proof. destruct provided; cbn; congruence. Qed.

End MoreLogic.

(** Walks through the binds of a computation as long as they emit [Keep]
    events only, keeping what each step returned. *)
Ltac holds_prefix_results Hvac :=
  repeat first
    [ apply holds_bind_ask; cbn zeta
    | apply holds_bind_result;
      [solve [emits_run] | exact Hvac | intros ? ?]; cbn zeta ].

(** The same for steps that return or throw, with a postcondition that
    holds of thrown errors. *)
Ltac holds_prefix_settles Hvac :=
  repeat first
    [ apply holds_bind_ask; cbn zeta
    | apply holds_bind_settles;
      [solve [emits_run] | solve [settles_run] | exact Hvac | intros ?];
      cbn zeta ].

(** ** The option checks, one by one *)

Section Checks.

Context {L : Library} {P : path.ops}.

(** X7: with [watch] set and [watchman] off, once the two paths are found,
    [run] throws [Watchman is required to watch for changes.]; it has
    asked the file system about the two paths and nothing else, and has
    not looked for a root file. *)
Theorem run_watch_needs_watchman (options : Options.t) (w : World.t) :
  let schemaPath := path.resolve (World.cwd w) (Options.schema options) in
  let srcDir := path.resolve (World.cwd w) (Options.src options) in
  World.existsSync w schemaPath = true ->
  World.existsSync w srcDir = true ->
  Options.watch options = Some true ->
  Options.watchman options = false ->
  run options w []
  = (Threw (newError w "Watchman is required to watch for changes."),
     [ExistsSync schemaPath; ExistsSync srcDir]).
Proof.
  intros schemaPath srcDir Hschema Hsrc Hwatch Hwatchman.
  unfold run. rewrite Hwatch, Hwatchman.
  unfold_calls. fold schemaPath srcDir.
  cbn beta iota zeta delta [negb andb truthy].
  rewrite Hschema. cbn beta iota zeta delta [negb andb truthy].
  rewrite Hsrc. reflexivity.
Qed.

(** X8: with [watch] and [watchman] set, a source directory that is its own
    parent (the root of the file system) is refused with the root-file
    error whatever the file system holds: no entry of that directory is
    looked at. *)
Theorem run_watch_at_top_directory (options : Options.t) (w : World.t) :
  let schemaPath := path.resolve (World.cwd w) (Options.schema options) in
  let srcDir := path.resolve (World.cwd w) (Options.src options) in
  World.existsSync w schemaPath = true ->
  World.existsSync w srcDir = true ->
  Options.watch options = Some true ->
  Options.watchman options = true ->
  path.dirname srcDir = srcDir ->
  run options w []
  = (Threw (newError w (rootFileMessage srcDir)),
     [ExistsSync schemaPath; ExistsSync srcDir]).
Proof.
  intros schemaPath srcDir Hschema Hsrc Hwatch Hwatchman Htop.
  unfold run. rewrite Hwatch, Hwatchman.
  unfold_calls. fold schemaPath srcDir.
  cbn beta iota zeta delta [negb andb truthy].
  rewrite Hschema. cbn beta iota zeta delta [negb andb truthy].
  rewrite Hsrc. cbn beta iota zeta delta [negb andb truthy].
  rewrite (hasWatchmanRootFile_top w srcDir _ Htop).
  reflexivity.
Qed.

End Checks.

(** ** The engine phase of [run] *)

Definition isExit `{Library} (e : event) : bool :=
  match e with
  | Exit _ => true
  | _ => false
  end.

Definition isConsoleLog `{Library} (e : event) : bool :=
  match e with
  | ConsoleLog _ => true
  | _ => false
  end.

(** The events before the engine is built. *)
Definition beforeEngine `{Library} (e : event) : bool :=
  negb (isEngineCall e) && negb (isExit e) && negb (isConsoleLog e).

Section EnginePhase.

Context {L : Library} {P : path.ops}.

Lemma beforeEngine_filter (Q : event -> bool) (tr : list event) :
  (forall e, Q e = true -> beforeEngine e = false) ->
  forallb beforeEngine tr = true -> List.filter Q tr = [].
Proof.
  intros HQ. induction tr as [|e tr IH]; [reflexivity|].
  cbn [forallb List.filter]. intros H.
  apply andb_true_iff in H as [He Htr].
  destruct (Q e) eqn:E; [|auto].
  rewrite (HQ e E) in He. discriminate He.
Qed.

Lemma beforeEngine_not_in (Q : event -> bool) (tr : list event) (e : event) :
  Q e = true -> (forall e, Q e = true -> beforeEngine e = false) ->
  forallb beforeEngine tr = true -> ~ In e tr.
Proof.
  intros He HQ Hall Hin. rewrite forallb_forall in Hall.
  apply Hall in Hin. rewrite (HQ e He) in Hin. discriminate Hin.
Qed.

Lemma beforeEngine_invokesEngine (tr : list event) :
  forallb beforeEngine tr = true -> invokesEngine tr = false.
Proof.
  intros Hall. unfold invokesEngine.
  destruct (existsb isEngineCall tr) eqn:E; [|reflexivity].
  apply existsb_exists in E as [e [Hin He]].
  rewrite forallb_forall in Hall. apply Hall in Hin.
  unfold beforeEngine in Hin. rewrite He in Hin. discriminate Hin.
Qed.

(** Starts a proof about the run [H] by the postcondition [Post]: the
    prefix up to the construction of the engine is walked through, the
    rest is run case by case. *)
Ltac engine_phase Post H Hvac :=
  match type of H with
  | run ?options ?w [] = (?out, ?tr) =>
      change (Post out tr);
      apply (holds_run w beforeEngine Post (run options) out tr);
      [clear H | exact H];
      unfold run; unfold process.cwd;
      holds_prefix Hvac;
      match goal with
      | |- Holds _ _ _ (bind (codegenRunner.create ?args) _) =>
          let r := fresh "args" in generalize args; intros r
      end
  end.

(** In a trace given by its parts, brings the events [Q] to the
    front. *)
Ltac filter_trace Q :=
  rewrite ?List.filter_app;
  match goal with
  | Htr0 : forallb beforeEngine ?tr0 = true |- _ =>
      rewrite (beforeEngine_filter Q tr0 ltac:(intros [] E; first [discriminate E | reflexivity]) Htr0)
  end;
  cbn [List.filter isEngineCall isExit isConsoleLog app].

(** X9: the engine is built at most once, and what is built is run at
    once: the calls to the engine in a trace of [run] are none, or the
    construction of the engine followed by one call of a method of the
    engine built, [watchAll] when [watch] is set and [compileAll]
    otherwise. *)
Theorem run_engine_calls (options : Options.t) (w : World.t) :
  let tr := snd (run options w []) in
  List.filter isEngineCall tr = []
  \/ exists args,
       List.filter isEngineCall tr
       = [NewCodegenRunner args;
          if truthy (Options.watch options) then WatchAll args
          else CompileAll args].
Proof.
  destruct (run options w []) as [out tr] eqn:H. cbn [snd].
  set (Post := fun (out : Outcome unit) (tr : list event) =>
    List.filter isEngineCall tr = []
    \/ exists args,
         List.filter isEngineCall tr
         = [NewCodegenRunner args;
            if truthy (Options.watch options) then WatchAll args
            else CompileAll args]).
  assert (Hvac : Vacuous beforeEngine Post).
  { intros o t Hall. left.
    apply (beforeEngine_filter isEngineCall t); [|exact Hall].
    intros [] E; first [discriminate E | reflexivity]. }
  engine_phase Post H Hvac.
  clear Hvac. intros tr0 Htr0 out' tr' H.
  exec H.
  all: injection H as <- <-.
  all: right; exists args; filter_trace isEngineCall.
  all: repeat match goal with E : _ = _ |- _ => rewrite E end.
  all: reflexivity.
Qed.

(** X10: the hint is the only thing [run] prints, and it prints it exactly in
    the runs that build the engine with [validate] and [watch] off and
    [watchman] on. *)
Theorem run_prints_the_hint_only (options : Options.t) (w : World.t) :
  let tr := snd (run options w []) in
  let hint := "HINT: pass --watch to keep watching for changes." in
  let hinted :=
    negb (Options.validate options) && negb (truthy (Options.watch options))
    && Options.watchman options in
  List.filter isConsoleLog tr
  = if invokesEngine tr && hinted then [ConsoleLog hint] else [].
Proof.
  destruct (run options w []) as [out tr] eqn:H. cbn [snd]. cbn zeta.
  set (Post := fun (out : Outcome unit) (tr : list event) =>
    List.filter isConsoleLog tr
    = if invokesEngine tr
         && (negb (Options.validate options)
             && negb (truthy (Options.watch options))
             && Options.watchman options)
      then [ConsoleLog "HINT: pass --watch to keep watching for changes."]
      else []).
  assert (Hvac : Vacuous beforeEngine Post).
  { intros o t Hall. unfold Post.
    rewrite (beforeEngine_invokesEngine t Hall). cbn [andb].
    apply (beforeEngine_filter isConsoleLog t); [|exact Hall].
    intros [] E; first [discriminate E | reflexivity]. }
  engine_phase Post H Hvac.
  clear Hvac. intros tr0 Htr0 out' tr' H.
  exec H.
  all: injection H as <- <-.
  all: unfold Post; filter_trace isConsoleLog.
  all: unfold invokesEngine; rewrite ?existsb_app;
    cbn [existsb isEngineCall orb]; rewrite ?orb_true_r; cbn [andb].
  all: repeat match goal with E : _ = _ |- _ => rewrite E end.
  all: reflexivity.
Qed.

(** X11: [run] leaves the process only after the engine has run, and only
    with code 100 or 101: the trace has a call of [process.exit] exactly
    when the outcome is that exit, which then is the last event; every
    failure before the engine has run is a thrown error. *)
Theorem run_exits_after_engine_only (options : Options.t) (w : World.t) :
  let out := fst (run options w []) in
  let tr := snd (run options w []) in
  (forall code,
     out = Exited code ->
     (code = 100 \/ code = 101) /\ invokesEngine tr = true)
  /\ List.filter isExit tr
     = match out with
       | Exited code => [Exit code]
       | _ => []
       end
  /\ out <> OutOfFuel.
Proof.
  destruct (run options w []) as [out tr] eqn:H. cbn [fst snd].
  set (Post := fun (out : Outcome unit) (tr : list event) =>
    (forall code,
       out = Exited code ->
       (code = 100 \/ code = 101) /\ invokesEngine tr = true)
    /\ List.filter isExit tr
       = match out with
         | Exited code => [Exit code]
         | _ => []
         end
    /\ out <> OutOfFuel).
  assert (Hvac : forall e t, forallb beforeEngine t = true -> Post (Threw e) t).
  { intros e t Hall. repeat split; try discriminate.
    apply (beforeEngine_filter isExit t); [|exact Hall].
    intros [] E; first [discriminate E | reflexivity]. }
  change (Post out tr).
  apply (holds_run w beforeEngine Post (run options) out tr); [clear H|exact H].
  unfold run; unfold process.cwd.
  holds_prefix_settles Hvac.
  match goal with
  | |- Holds _ _ _ (bind (codegenRunner.create ?args) _) =>
      let r := fresh "args" in generalize args; intros r
  end.
  clear Hvac. intros tr0 Htr0 out' tr' H.
  exec H.
  all: injection H as <- <-.
  all: unfold Post; filter_trace isExit.
  all: split; [intros c Hc | split; [reflexivity | discriminate]].
  all: try discriminate Hc.
  all: injection Hc as <-.
  all: split; [first [left; reflexivity | right; reflexivity]|].
  all: unfold invokesEngine; rewrite ?existsb_app;
    cbn [existsb isEngineCall orb]; rewrite ?orb_true_r; reflexivity.
Qed.

(** X12: when the engine fails, that is when the promise of [compileAll] or
    [watchAll] is rejected, [run] fails with the error of the engine,
    as it is, and [process.exit] is not called. *)
Theorem run_engine_failure (options : Options.t) (w : World.t)
    (runner : CodegenRunner.t) (e : JsError) :
  let out := fst (run options w []) in
  let tr := snd (run options w []) in
  (In (CompileAll runner) tr /\ World.compileAll w runner = inl e)
  \/ (In (WatchAll runner) tr /\ World.watchAll w runner = inl e) ->
  out = Threw e /\ List.filter isExit tr = [].
Proof.
  destruct (run options w []) as [out tr] eqn:H. cbn [fst snd]. cbn zeta.
  set (Post := fun (out : Outcome unit) (tr : list event) =>
    (In (CompileAll runner) tr /\ World.compileAll w runner = inl e)
    \/ (In (WatchAll runner) tr /\ World.watchAll w runner = inl e) ->
    out = Threw e /\ List.filter isExit tr = []).
  assert (Hvac : Vacuous beforeEngine Post).
  { intros o t Hall [[Hin _]|[Hin _]]; exfalso; revert Hin.
    - apply (beforeEngine_not_in isEngineCall); [reflexivity | | exact Hall].
      intros [] E; first [discriminate E | reflexivity].
    - apply (beforeEngine_not_in isEngineCall); [reflexivity | | exact Hall].
      intros [] E; first [discriminate E | reflexivity]. }
  engine_phase Post H Hvac.
  clear Hvac. intros tr0 Htr0 out' tr' H Hin.
  exec H.
  all: injection H as <- <-.
  all: filter_trace isExit.
  all: destruct Hin as [[Hin Hres]|[Hin Hres]].
  all: rewrite !in_app_iff in Hin; cbn [In] in Hin.
  all: repeat match goal with
              | H : _ \/ _ |- _ => destruct H
              | H : False |- _ => destruct H
              | Hall : forallb beforeEngine ?t = true, H : In _ ?t |- _ =>
                  exfalso; revert H;
                  apply (beforeEngine_not_in isEngineCall);
                  [reflexivity
                  | intros [] E; first [discriminate E | reflexivity]
                  | exact Hall]
              | H : CompileAll _ = CompileAll _ |- _ => injection H as ->
              | H : WatchAll _ = WatchAll _ |- _ => injection H as ->
              | H : @eq event _ _ |- _ => discriminate H
              end.
  all: rewrite Hres in *.
  all: try discriminate.
  all: match goal with H : inl _ = inl _ |- _ => injection H as -> end.
  all: split; reflexivity.
Qed.

End EnginePhase.

(** ** The file searches *)

Section Searches.

Context {L : Library} {P : path.ops}.

Lemma beforeSearches_not_in (tr : list event) (e : event) :
  beforeSearches e = false -> forallb beforeSearches tr = true -> ~ In e tr.
Proof.
  intros He Hall Hin. rewrite forallb_forall in Hall.
  apply Hall in Hin. congruence.
Qed.

Lemma beforeSearches_invokesEngine (tr : list event) :
  forallb beforeSearches tr = true -> invokesEngine tr = false.
Proof.
  intros Hall. unfold invokesEngine.
  destruct (existsb isEngineCall tr) eqn:E; [|reflexivity].
  apply existsb_exists in E as [e [Hin He]].
  rewrite forallb_forall in Hall. apply Hall in Hin.
  unfold beforeSearches in Hin. rewrite He, andb_false_r in Hin.
  discriminate Hin.
Qed.

(** X13: when a file search fails, [run] fails with the error of the search,
    as it is, and the engine is not built. *)
Theorem run_search_failure (options : Options.t) (w : World.t)
    (patterns : list string) (cwd : string) (ignore : list string)
    (e : JsError) :
  let out := fst (run options w []) in
  let tr := snd (run options w []) in
  In (GlobSync patterns cwd ignore) tr ->
  World.globSync w patterns cwd ignore = inl e ->
  out = Threw e /\ invokesEngine tr = false.
Proof.
  destruct (run options w []) as [out tr] eqn:H. cbn [fst snd]. cbn zeta.
  set (Post := fun (out : Outcome unit) (tr : list event) =>
    In (GlobSync patterns cwd ignore) tr ->
    World.globSync w patterns cwd ignore = inl e ->
    out = Threw e /\ invokesEngine tr = false).
  change (Post out tr).
  apply (holds_run w beforeSearches Post (run options) out tr); [clear H|exact H].
  assert (Hvac : Vacuous beforeSearches Post).
  { intros o t Hall Hin. exfalso. revert Hin.
    apply beforeSearches_not_in; [reflexivity | exact Hall]. }
  unfold run. unfold process.cwd.
  holds_prefix Hvac.
  clear Hvac. intros tr0 Htr0 out' tr' H Hin Hres.
  unfold getFilepathsFromGlob in H.
  exec H.
  all: injection H as <- <-.
  all: cbv beta iota delta
         [sourceSearchOptions graphqlSearchOptions SearchOptions.extensions
          SearchOptions.include SearchOptions.exclude] in *.
  all: cbn [app] in *.
  all: change (JsString.join "|" ["graphql"]) with "graphql" in *.
  all: rewrite !in_app_iff in Hin; cbn [In] in Hin.
  all: repeat match goal with
              | H : _ \/ _ |- _ => destruct H
              | H : False |- _ => destruct H
              | Hall : forallb beforeSearches ?t = true, H : In _ ?t |- _ =>
                  exfalso; revert H;
                  apply beforeSearches_not_in; [reflexivity | exact Hall]
              | H : GlobSync _ _ _ = GlobSync _ _ _ |- _ =>
                  injection H as <- <- <-
              | H : @eq event _ _ |- _ => discriminate H
              end.
  all: try congruence.
  all: split; [congruence|].
  all: rewrite ?invokesEngine_app, (beforeSearches_invokesEngine _ Htr0);
    reflexivity.
Qed.

End Searches.

(** ** What gets a run past the option checks *)

Definition isNewConsoleReporter `{Library} (e : event) : bool :=
  match e with
  | NewConsoleReporter _ => true
  | _ => false
  end.

(** [Emits] for the rest of a run, up to its end. *)
Ltac emits_rest :=
  unfold codegenRunner.create, codegenRunner.compileAll,
    codegenRunner.watchAll, WatchmanClient.isAvailable, console.log,
    process.cwd;
  repeat first
    [ emits_helper
    | progress emits
    | apply emits_when
    | apply emits_emit; reflexivity
    | apply emits_exit; reflexivity ].

Section PassingChecks.

Context {L : Library} {P : path.ops}.

Lemma bind_returned {A B} (m : M A) (k : A -> M B) w tr a tr' :
  m w tr = (Returned a, tr') -> bind m k w tr = k a w tr'.
Proof. intros H. unfold bind. rewrite H. reflexivity. Qed.

Lemma emitted_in_trace {B} (e : event) (k : unit -> M B) w tr0 :
  Emits (fun _ => true) (k tt) -> In e (snd (bind (emit e) k w tr0)).
Proof.
  intros Hk. unfold bind, emit.
  destruct (k tt w (tr0 ++ [e])) as [out tr] eqn:H.
  apply (emits_inv _ _ _ _ _ _ Hk) in H. destruct H as (new & -> & _).
  cbn [snd]. rewrite !in_app_iff. left. right. left. reflexivity.
Qed.

(** Turns what the steps of the checks returned into equations. *)
Ltac results :=
  repeat match goal with
         | H : fst (fs.existsSync _ _ []) = Returned _ |- _ =>
             apply result_existsSync in H
         | H : fst (when _ (throwNew _) _ []) = Returned _ |- _ =>
             apply result_when_throwNew in H
         | H : fst ((if _ then bind (hasWatchmanRootFile _) _ else ret false) _ [])
               = Returned _ |- _ =>
             let H' := fresh "Hroot" in
             pose proof (result_noRootFile _ _ _ _ H) as H'; clear H
         end.

(** X14: [run] gets past its option checks, to the construction of the
    reporter, exactly when the schema path and the source path exist,
    [watch] is not set or else [watchman] is set and a directory that
    is not its own parent, among the source directory and those above it,
    has a root file, and [verbose] and [quiet] are not both set.  A run
    that does not get there throws, having asked the file system whether
    paths exist and nothing else. *)
Theorem run_passes_checks (options : Options.t) (w : World.t) :
  let schemaPath := path.resolve (World.cwd w) (Options.schema options) in
  let srcDir := path.resolve (World.cwd w) (Options.src options) in
  let out := fst (run options w []) in
  let tr := snd (run options w []) in
  let reporter :=
    {| ConsoleReporter.verbose := Options.verbose options;
       ConsoleReporter.quiet := Options.quiet options |} in
  (In (NewConsoleReporter reporter) tr
   <-> World.existsSync w schemaPath = true
       /\ World.existsSync w srcDir = true
       /\ (truthy (Options.watch options) = true ->
           Options.watchman options = true /\ rootFileBelowTop w srcDir)
       /\ Options.verbose options && Options.quiet options = false)
  /\ (In (NewConsoleReporter reporter) tr
      \/ ((exists e, out = Threw e) /\ forallb isExistsSync tr = true)).
Proof.
  intros schemaPath srcDir out tr reporter.
  split; [split|].
  - (* the reporter is built only after the checks *)
    subst out tr. destruct (run options w []) as [out tr] eqn:H. cbn [snd].
    set (Keep := fun e : event => negb (isNewConsoleReporter e)).
    set (Post := fun (out : Outcome unit) (tr : list event) =>
      In (NewConsoleReporter reporter) tr ->
      World.existsSync w schemaPath = true
      /\ World.existsSync w srcDir = true
      /\ (truthy (Options.watch options) = true ->
          Options.watchman options = true /\ rootFileBelowTop w srcDir)
      /\ Options.verbose options && Options.quiet options = false).
    change (Post out tr).
    apply (holds_run w Keep Post (run options) out tr); [clear H|exact H].
    assert (Hvac : Vacuous Keep Post).
    { intros o t Hall Hin. exfalso.
      rewrite forallb_forall in Hall. apply Hall in Hin. discriminate Hin. }
    unfold run. unfold process.cwd.
    holds_prefix_results Hvac.
    clear Hvac. intros tr0 Htr0 out' tr' _ _.
    results.
    repeat match goal with
           | H : ?a = World.existsSync _ _ |- _ => subst a
           | H : negb _ = false |- _ => apply negb_false_iff in H
           end.
    repeat apply conj; try assumption.
    intros Hwatch. split.
    + match goal with
      | H : truthy _ && negb _ = false |- _ =>
          rewrite Hwatch in H; apply negb_false_iff in H; exact H
      end.
    + auto.
  - (* the checks passed, the reporter is built *)
    intros (Hschema & Hsrc & Hwatch & Hboth).
    subst tr. unfold run. unfold process.cwd.
    cbn zeta.
    erewrite bind_returned by reflexivity.
    erewrite bind_returned by reflexivity. cbn beta. fold schemaPath.
    rewrite Hschema.
    erewrite bind_returned by reflexivity.
    erewrite bind_returned by reflexivity.
    erewrite bind_returned by reflexivity. cbn beta. fold srcDir.
    rewrite Hsrc.
    erewrite bind_returned by reflexivity.
    destruct (truthy (Options.watch options)) eqn:Ewatch.
    + destruct (Hwatch eq_refl) as [Hwatchman Hroot].
      rewrite Hwatchman.
      erewrite bind_returned by reflexivity.
      destruct (hasWatchmanRootFile_spec w srcDir
                  (([] ++ [ExistsSync schemaPath]) ++ [ExistsSync srcDir]))
        as (found & new & E & _ & Hfound).
      apply Hfound in Hroot. subst found.
      erewrite bind_returned
        by (unfold bind at 1; rewrite E; reflexivity).
      erewrite bind_returned by reflexivity.
      rewrite Hboth.
      erewrite bind_returned by reflexivity.
      apply emitted_in_trace. emits_rest.
    + erewrite bind_returned by reflexivity.
      erewrite bind_returned by reflexivity.
      erewrite bind_returned by reflexivity.
      rewrite Hboth.
      erewrite bind_returned by reflexivity.
      apply emitted_in_trace. emits_rest.
  - (* a run that stops before throws, after probes only *)
    subst out tr. destruct (run options w []) as [out tr] eqn:H.
    cbn [fst snd].
    set (Post := fun (out : Outcome unit) (tr : list event) =>
      In (NewConsoleReporter reporter) tr
      \/ ((exists e, out = Threw e) /\ forallb isExistsSync tr = true)).
    change (Post out tr).
    apply (holds_run w isExistsSync Post (run options) out tr);
      [clear H|exact H].
    assert (Hvac : forall e t, forallb isExistsSync t = true -> Post (Threw e) t).
    { intros e t Hall. right. split; [exists e; reflexivity | exact Hall]. }
    unfold run. unfold process.cwd.
    holds_prefix_settles Hvac.
    clear Hvac. intros tr0 Htr0 out' tr' H. left.
    replace tr' with (snd (out', tr')) by reflexivity. rewrite <- H.
    apply emitted_in_trace. emits_rest.
Qed.

End PassingChecks.

(** ** What the engine is built from *)

Definition isNewCodegenRunner `{Library} (e : event) : bool :=
  match e with
  | NewCodegenRunner _ => true
  | _ => false
  end.

Definition isWatchmanIsAvailable `{Library} (e : event) : bool :=
  match e with
  | WatchmanIsAvailable => true
  | _ => false
  end.

Section EngineBuilt.

Context {L : Library} {P : path.ops}.

(** The engine built is the only one. *)
Lemma created_once {B} (r : CodegenRunner.t) (k : CodegenRunner.t -> M B)
    w tr0 out tr args :
  forallb beforeEngine tr0 = true ->
  Emits (fun e => negb (isNewCodegenRunner e)) (k r) ->
  bind (codegenRunner.create r) k w tr0 = (out, tr) ->
  In (NewCodegenRunner args) tr -> args = r.
Proof.
  intros Htr0 Hk H Hin.
  unfold bind, codegenRunner.create, emit, ret in H.
  apply (emits_inv _ _ _ _ _ _ Hk) in H. destruct H as (new & -> & _ & HQ).
  rewrite !in_app_iff in Hin. cbn [In] in Hin.
  destruct Hin as [[Hin|[Hin|[]]]|Hin].
  - exfalso. rewrite forallb_forall in Htr0. apply Htr0 in Hin.
    discriminate Hin.
  - congruence.
  - exfalso. rewrite forallb_forall in HQ. apply HQ in Hin.
    discriminate Hin.
Qed.

Lemma engine_not_built (Post : Prop) (args : CodegenRunner.t) tr :
  forallb beforeEngine tr = true -> In (NewCodegenRunner args) tr -> Post.
Proof.
  intros Hall Hin. exfalso. revert Hin.
  apply (beforeEngine_not_in isEngineCall); [reflexivity | | exact Hall].
  intros [] E; first [discriminate E | reflexivity].
Qed.

(** The two parser configurations are all there is. *)
Lemma parserConfigs_lookup (graphql source : ParserConfig.t)
    (sourceParserName name : string) (config : ParserConfig.t) :
  (<[ "graphql" := graphql ]>
     (<[ sourceParserName := source ]> (∅ : gmap string ParserConfig.t)))
  !! name = Some config ->
  config = graphql \/ config = source.
Proof.
  intros H. apply lookup_insert_Some in H as [[_ <-]|[_ H]]; [left; reflexivity|].
  apply lookup_insert_Some in H as [[_ <-]|[_ H]]; [right; reflexivity|].
  rewrite lookup_empty in H. discriminate H.
Qed.

Lemma result_filepaths (w : World.t) (useWatchman : bool) baseDir options
    (found : option (list string)) :
  fst ((if useWatchman then ret None
        else bind (getFilepathsFromGlob baseDir options)
               (fun filepaths => ret (Some filepaths))) w [])
  = Returned found ->
  if useWatchman then found = None
  else exists filepaths,
         found = Some filepaths
         /\ World.globSync w (globPatterns options) baseDir
              (SearchOptions.exclude options) = inr filepaths.
Proof.
  destruct useWatchman; [cbn; congruence|].
  unfold getFilepathsFromGlob, globPatterns. unfold_calls.
  cbn beta iota zeta.
  destruct (World.require w "fast-glob") as [e|glob];
    cbn beta iota zeta delta [fst]; [discriminate|].
  destruct (World.globSync w _ _ _) as [e|filepaths];
    cbn beta iota zeta delta [fst]; [discriminate|].
  intros H. injection H as <-. exists filepaths. split; reflexivity.
Qed.

End EngineBuilt.

(** Turns what the steps of [run] returned into equations. *)
Ltac results_of_run :=
  repeat match goal with
         | H : fst (fs.existsSync _ _ []) = Returned _ |- _ => clear H
         | H : fst (when _ _ _ []) = Returned _ |- _ => clear H
         | H : fst (emit _ _ []) = Returned _ |- _ => clear H
         | H : fst ((if _ then bind (hasWatchmanRootFile _) _ else ret false) _ [])
               = Returned _ |- _ => clear H
         | H : fst ((if _ then WatchmanClient.isAvailable else ret false) _ [])
               = Returned _ |- _ =>
             apply result_useWatchman in H
         | H : fst (match _ with Some _ => _ | None => ret None end _ [])
               = Returned _ |- _ =>
             apply result_artifactDirectory in H
         end.

(** For a goal [Post out tr] on the run [H], where [Post] says
    something of the arguments [args] of an engine built in the trace:
    leaves [Post] to be proved of the arguments [run] builds the engine
    with, knowing what the steps before returned. *)
Ltac engine_built Post H :=
  match type of H with
  | run ?options ?w [] = (?out, ?tr) =>
      change (Post out tr);
      apply (holds_run w beforeEngine Post (run options) out tr);
      [clear H | exact H];
      let Hvac := fresh "Hvac" in
      assert (Hvac : Vacuous beforeEngine Post)
        by (let Hall := fresh in let Hin := fresh in
            intros ? ? Hall Hin; exact (engine_not_built _ _ _ Hall Hin));
      unfold run; unfold process.cwd;
      holds_prefix_results Hvac;
      clear Hvac; subst Post;
      let tr0 := fresh "tr0" in
      let Htr0 := fresh "Htr0" in
      let Hrun := fresh "Hrun" in
      let Hin := fresh "Hin" in
      let Hargs := fresh "Hargs" in
      intros tr0 Htr0 ? ? Hrun Hin;
      assert (Hargs := fun Hk => created_once _ _ _ _ _ _ _ Htr0 Hk Hrun Hin);
      lapply Hargs; [clear Hargs Hrun Hin; intros -> | emits_rest];
      results_of_run
  end.

Section EngineArguments.

Context {L : Library} {P : path.ops}.

(** X15: the engine is built with the reporter of the options, [onlyValidate]
    as [validate] says and no source control; each of its parser
    configurations has the source directory as base directory and
    answers with the schema that [getSchema] loaded from the schema
    path. *)
Theorem run_engine_arguments (options : Options.t) (w : World.t)
    (args : CodegenRunner.t) :
  let schemaPath := path.resolve (World.cwd w) (Options.schema options) in
  let srcDir := path.resolve (World.cwd w) (Options.src options) in
  let tr := snd (run options w []) in
  In (NewCodegenRunner args) tr ->
  exists schema,
    fst (getSchema schemaPath w []) = Returned schema
    /\ CodegenRunner.reporter args
       = {| ConsoleReporter.verbose := Options.verbose options;
            ConsoleReporter.quiet := Options.quiet options |}
    /\ CodegenRunner.onlyValidate args = Options.validate options
    /\ CodegenRunner.sourceControl args = None
    /\ forall name config,
         CodegenRunner.parserConfigs args !! name = Some config ->
         ParserConfig.baseDir config = srcDir
         /\ ParserConfig.getSchema config = schema.
Proof.
  intros schemaPath srcDir tr. subst tr.
  destruct (run options w []) as [out tr] eqn:H. cbn [snd].
  set (Post := fun (out : Outcome unit) (tr : list event) =>
    In (NewCodegenRunner args) tr ->
    exists schema,
      fst (getSchema schemaPath w []) = Returned schema
      /\ CodegenRunner.reporter args
         = {| ConsoleReporter.verbose := Options.verbose options;
              ConsoleReporter.quiet := Options.quiet options |}
      /\ CodegenRunner.onlyValidate args = Options.validate options
      /\ CodegenRunner.sourceControl args = None
      /\ forall name config,
           CodegenRunner.parserConfigs args !! name = Some config ->
           ParserConfig.baseDir config = srcDir
           /\ ParserConfig.getSchema config = schema).
  engine_built Post H.
  match goal with
  | Hschema : fst (getSchema _ _ _) = Returned ?schema |- _ =>
      exists schema; split; [exact Hschema|]
  end.
  cbn [CodegenRunner.reporter CodegenRunner.onlyValidate
       CodegenRunner.sourceControl CodegenRunner.parserConfigs].
  repeat split.
  all: apply parserConfigs_lookup in H as [->| ->]; reflexivity.
Qed.

(** X16: files are found through watchman exactly when [watchman] is set and
    the watchman client is available: then each parser configuration of
    the engine has a watch expression and no list of paths; otherwise it has
    a list of paths and no watch expression.  The client is asked whether it
    is available only when [watchman] is set. *)
Theorem run_watchman_use (options : Options.t) (w : World.t) :
  let tr := snd (run options w []) in
  let useWatchman := Options.watchman options && World.watchmanIsAvailable w in
  (In WatchmanIsAvailable tr -> Options.watchman options = true)
  /\ forall args name config,
       In (NewCodegenRunner args) tr ->
       CodegenRunner.parserConfigs args !! name = Some config ->
       if useWatchman
       then is_Some (ParserConfig.watchmanExpression config)
            /\ ParserConfig.filepaths config = None
       else ParserConfig.watchmanExpression config = None
            /\ is_Some (ParserConfig.filepaths config).
Proof.
  intros tr useWatchman. split.
  - intros Hin. destruct (Options.watchman options) eqn:Hwatchman;
      [reflexivity | exfalso].
    assert (Hrun : Emits (fun e => negb (isWatchmanIsAvailable e)) (run options)).
    { unfold run. rewrite Hwatchman. emits_rest. }
    destruct (Hrun w []) as [_ HQ]. rewrite forallb_forall in HQ.
    apply HQ in Hin. discriminate Hin.
  - intros args name config. subst tr.
    destruct (run options w []) as [out tr] eqn:H. cbn [snd].
    set (Post := fun (out : Outcome unit) (tr : list event) =>
      In (NewCodegenRunner args) tr ->
      CodegenRunner.parserConfigs args !! name = Some config ->
      if useWatchman
      then is_Some (ParserConfig.watchmanExpression config)
           /\ ParserConfig.filepaths config = None
      else ParserConfig.watchmanExpression config = None
           /\ is_Some (ParserConfig.filepaths config)).
    engine_built Post H.
    cbn [CodegenRunner.parserConfigs]. intros Hconfig.
    repeat match goal with
           | H : fst ((if _ then ret None else _) _ []) = Returned _ |- _ =>
               apply result_filepaths in H
           end.
    subst useWatchman.
    match goal with
    | H : ?a = Options.watchman options && World.watchmanIsAvailable w |- _ =>
        rewrite <- H; clear H; destruct a
    end.
    all: apply parserConfigs_lookup in Hconfig as [->| ->].
    all: cbn [ParserConfig.watchmanExpression ParserConfig.filepaths].
    all: repeat match goal with
                | H : exists _, _ /\ _ |- _ => destruct H as (? & -> & _)
                | H : _ = None |- _ => rewrite H
                end.
    all: split; first [reflexivity | eexists; reflexivity].
Qed.

(** X17: the engine has one writer, registered under the output extension of
    the language plugin that [getLanguagePlugin] resolved.  It names as its
    parser the input extensions joined by [/] (those of the options, else
    those of the plugin) and as base parser [graphql]; both are among the
    parser configurations of the engine.  Its file writer is the one of
    [getRelayFileWriter] for the source directory, the plugin, the custom
    scalars and [noFutureProofEnums] of the options, and the artifact
    directory resolved from the working directory, if one is given. *)
Theorem run_writer_configuration (options : Options.t) (w : World.t)
    (args : CodegenRunner.t) :
  let srcDir := path.resolve (World.cwd w) (Options.src options) in
  let tr := snd (run options w []) in
  In (NewCodegenRunner args) tr ->
  exists plugin writer,
    fst (getLanguagePlugin (Options.language options) w []) = Returned plugin
    /\ CodegenRunner.writerConfigs args
       = {[ Plugin.outputExtension plugin := writer ]}
    /\ WriterConfig.parser writer
       = JsString.join "/"
           match Options.extensions options with
           | Some extensions => extensions
           | None => Plugin.inputExtensions plugin
           end
    /\ WriterConfig.baseParsers writer = ["graphql"]
    /\ is_Some (CodegenRunner.parserConfigs args !! WriterConfig.parser writer)
    /\ is_Some (CodegenRunner.parserConfigs args !! "graphql")
    /\ WriterConfig.getWriter writer
       = getRelayFileWriter srcDir plugin (Options.customScalars options)
           (Options.noFutureProofEnums options)
           (option_map (path.resolve (World.cwd w))
              (Options.artifactDirectory options)).
Proof.
  intros srcDir tr. subst tr.
  destruct (run options w []) as [out tr] eqn:H. cbn [snd].
  set (Post := fun (out : Outcome unit) (tr : list event) =>
    In (NewCodegenRunner args) tr ->
    exists plugin writer,
      fst (getLanguagePlugin (Options.language options) w []) = Returned plugin
      /\ CodegenRunner.writerConfigs args
         = {[ Plugin.outputExtension plugin := writer ]}
      /\ WriterConfig.parser writer
         = JsString.join "/"
             match Options.extensions options with
             | Some extensions => extensions
             | None => Plugin.inputExtensions plugin
             end
      /\ WriterConfig.baseParsers writer = ["graphql"]
      /\ is_Some (CodegenRunner.parserConfigs args !! WriterConfig.parser writer)
      /\ is_Some (CodegenRunner.parserConfigs args !! "graphql")
      /\ WriterConfig.getWriter writer
         = getRelayFileWriter srcDir plugin (Options.customScalars options)
             (Options.noFutureProofEnums options)
             (option_map (path.resolve (World.cwd w))
                (Options.artifactDirectory options))).
  engine_built Post H.
  match goal with
  | Hplugin : fst (getLanguagePlugin _ _ _) = Returned ?plugin |- _ =>
      exists plugin; eexists; split; [exact Hplugin|]
  end.
  cbn [CodegenRunner.writerConfigs CodegenRunner.parserConfigs].
  split; [reflexivity|].
  cbn [WriterConfig.parser WriterConfig.baseParsers WriterConfig.getWriter].
  repeat apply conj; try reflexivity.
  - match goal with
    | |- is_Some (<[ _ := _ ]> _ !! ?name) =>
        destruct (decide ("graphql" = name)) as [<-|Hname]
    end.
    + rewrite lookup_insert_eq. eexists; reflexivity.
    + rewrite lookup_insert_ne by exact Hname.
      rewrite lookup_insert_eq. eexists; reflexivity.
  - rewrite lookup_insert_eq. eexists; reflexivity.
  - subst. reflexivity.
Qed.

(** X18: the parser configurations of the engine: under [graphql], the
    parser of [.graphql] files, with no file filter; under the input
    extensions joined by [/], the source module parser made from the
    [findGraphQLTags] of the plugin, with its file filter, unless that name
    is [graphql] itself: then the entry of the [.graphql] parser has taken
    its place. *)
Theorem run_parser_configurations (options : Options.t) (w : World.t)
    (args : CodegenRunner.t) :
  let tr := snd (run options w []) in
  In (NewCodegenRunner args) tr ->
  exists plugin graphql,
    fst (getLanguagePlugin (Options.language options) w []) = Returned plugin
    /\ CodegenRunner.parserConfigs args !! "graphql" = Some graphql
    /\ ParserConfig.getParser graphql = Lib.DotGraphQLParser_getParser
    /\ ParserConfig.getFileFilter graphql = None
    /\ let sourceParserName :=
         JsString.join "/"
           match Options.extensions options with
           | Some extensions => extensions
           | None => Plugin.inputExtensions plugin
           end in
       let sourceModuleParser :=
         Lib.RelaySourceModuleParser (Plugin.findGraphQLTags plugin) in
       (forall name,
          is_Some (CodegenRunner.parserConfigs args !! name)
          <-> name = "graphql" \/ name = sourceParserName)
       /\ (sourceParserName <> "graphql" ->
           exists source,
             CodegenRunner.parserConfigs args !! sourceParserName = Some source
             /\ ParserConfig.getParser source = snd sourceModuleParser
             /\ ParserConfig.getFileFilter source
                = Some (fst sourceModuleParser)).
Proof.
  intros tr. subst tr.
  destruct (run options w []) as [out tr] eqn:H. cbn [snd].
  set (Post := fun (out : Outcome unit) (tr : list event) =>
    In (NewCodegenRunner args) tr ->
    exists plugin graphql,
      fst (getLanguagePlugin (Options.language options) w []) = Returned plugin
      /\ CodegenRunner.parserConfigs args !! "graphql" = Some graphql
      /\ ParserConfig.getParser graphql = Lib.DotGraphQLParser_getParser
      /\ ParserConfig.getFileFilter graphql = None
      /\ let sourceParserName :=
           JsString.join "/"
             match Options.extensions options with
             | Some extensions => extensions
             | None => Plugin.inputExtensions plugin
             end in
         let sourceModuleParser :=
           Lib.RelaySourceModuleParser (Plugin.findGraphQLTags plugin) in
         (forall name,
            is_Some (CodegenRunner.parserConfigs args !! name)
            <-> name = "graphql" \/ name = sourceParserName)
         /\ (sourceParserName <> "graphql" ->
             exists source,
               CodegenRunner.parserConfigs args !! sourceParserName = Some source
               /\ ParserConfig.getParser source = snd sourceModuleParser
               /\ ParserConfig.getFileFilter source
                  = Some (fst sourceModuleParser))).
  engine_built Post H.
  match goal with
  | Hplugin : fst (getLanguagePlugin _ _ _) = Returned ?plugin |- _ =>
      exists plugin; eexists; split; [exact Hplugin|]
  end.
  cbn [CodegenRunner.parserConfigs].
  split; [apply lookup_insert_eq|].
  cbn [ParserConfig.getParser ParserConfig.getFileFilter].
  repeat apply conj; try reflexivity.
  - intros name. split.
    + intros [config Hconfig].
      apply lookup_insert_Some in Hconfig as [[<- _]|[_ Hconfig]];
        [left; reflexivity|].
      apply lookup_insert_Some in Hconfig as [[<- _]|[_ Hconfig]];
        [right; reflexivity|].
      rewrite lookup_empty in Hconfig. discriminate Hconfig.
    + intros [->| ->].
      * rewrite lookup_insert_eq. eexists; reflexivity.
      * match goal with
        | |- is_Some (<[ _ := _ ]> _ !! ?name) =>
            destruct (decide ("graphql" = name)) as [<-|Hname]
        end.
        -- rewrite lookup_insert_eq. eexists; reflexivity.
        -- rewrite lookup_insert_ne by exact Hname.
           rewrite lookup_insert_eq. eexists; reflexivity.
  - intros Hname. eexists. split.
    + rewrite lookup_insert_ne by congruence. apply lookup_insert_eq.
    + split; reflexivity.
Qed.

(** X19: what the writer takes for a generated file: a path that ends with
    [.graphql.] and the extension under which the writer is registered,
    and in which the name of the directory of generated files occurs:
    the artifact directory resolved from the working directory if one is
    given, else [__generated__]. *)
Theorem run_generated_files (options : Options.t) (w : World.t)
    (args : CodegenRunner.t) (extension : string) (writer : WriterConfig.t)
    (filePath : string) :
  let tr := snd (run options w []) in
  let generatedDirectoryName :=
    match Options.artifactDirectory options with
    | Some providedArtifactDirectory =>
        let artifactDirectory :=
          path.resolve (World.cwd w) providedArtifactDirectory in
        if String.eqb artifactDirectory "" then "__generated__"
        else artifactDirectory
    | None => "__generated__"
    end in
  In (NewCodegenRunner args) tr ->
  CodegenRunner.writerConfigs args !! extension = Some writer ->
  WriterConfig.isGeneratedFile writer filePath = true
  <-> (exists stem, filePath = stem +:+ ".graphql." +:+ extension)
      /\ (exists before after,
            filePath = before +:+ generatedDirectoryName +:+ after).
Proof.
  intros tr generatedDirectoryName. subst tr.
  destruct (run options w []) as [out tr] eqn:H. cbn [snd].
  set (Post := fun (out : Outcome unit) (tr : list event) =>
    In (NewCodegenRunner args) tr ->
    CodegenRunner.writerConfigs args !! extension = Some writer ->
    WriterConfig.isGeneratedFile writer filePath = true
    <-> (exists stem, filePath = stem +:+ ".graphql." +:+ extension)
        /\ (exists before after,
              filePath = before +:+ generatedDirectoryName +:+ after)).
  engine_built Post H.
  cbn [CodegenRunner.writerConfigs]. intros Hwriter.
  apply lookup_singleton_Some in Hwriter as [<- <-].
  cbn [WriterConfig.isGeneratedFile].
  rewrite andb_true_iff, JsStringMore.endsWith_iff, JsStringMore.includes_iff.
  subst. subst generatedDirectoryName.
  destruct (Options.artifactDirectory options); reflexivity.
Qed.

End EngineArguments.

(** ** What a run touches *)

Section Footprint.

Context {L : Library} {P : path.ops}.

(** The file read, the modules loaded and the directory searched by a
    run with [options] in [w]. *)
Definition footprint (w : World.t) (options : Options.t) (e : event) : bool :=
  match e with
  | ReadFileSync p =>
      String.eqb p (path.resolve (World.cwd w) (Options.schema options))
  | Require p =>
      String.eqb p "fast-glob"
      || (negb (String.eqb (Options.language options) "javascript")
          && String.eqb p (requirePath w (Options.language options)))
  | GlobSync _ cwd _ =>
      String.eqb cwd (path.resolve (World.cwd w) (Options.src options))
  | _ => true
  end.

(** As [holds_bind], for a step whose events in [w] are known. *)
Lemma holds_bind_in {A B} w Keep (Post : Outcome B -> list event -> Prop)
    (Q : event -> bool) (m : M A) (k : A -> M B) :
  Emits Q m -> forallb Keep (snd (m w [])) = true ->
  Vacuous Keep Post ->
  (forall a, Holds w Keep Post (k a)) ->
  Holds w Keep Post (bind m k).
Proof.
  intros Hm Hnew Hvac Hk tr0 Htr0 out tr H. unfold bind in H.
  destruct (m w tr0) as [o t] eqn:E.
  apply (emits_inv _ _ _ _ _ _ Hm) in E. destruct E as (new & -> & E & _).
  rewrite E in Hnew. cbn [snd] in Hnew.
  assert (Hall : forallb Keep (tr0 ++ new) = true)
    by (rewrite forallb_app, Htr0, Hnew; reflexivity).
  destruct o; try (injection H as <- <-; apply Hvac; exact Hall).
  apply (Hk a _ Hall _ _ H).
Qed.

Lemma holds_emits {A} w Keep (m : M A) :
  Emits Keep m ->
  Holds w Keep (fun _ tr => forallb Keep tr = true) m.
Proof.
  intros Hm tr0 Htr0 out tr H.
  apply (emits_inv _ _ _ _ _ _ Hm) in H. destruct H as (new & -> & _ & HQ).
  rewrite forallb_app, Htr0, HQ. reflexivity.
Qed.

(** The calls of the plugin resolver. *)
Lemma getLanguagePlugin_calls (language : string) (w : World.t) :
  snd (getLanguagePlugin language w [])
  = if String.eqb language "javascript" then []
    else [ExistsSync (path.resolve (World.cwd w) language);
          Require (requirePath w language)].
Proof.
  unfold getLanguagePlugin, try_catch, get_default, requirePath.
  destruct (String.eqb language "javascript"); [reflexivity|].
  unfold_calls. cbn beta iota zeta.
  destruct (World.existsSync w _); cbn beta iota zeta.
  all: destruct (World.require w _) as [err|v]; cbn beta iota zeta;
    [reflexivity|].
  all: destruct v as [| |truthy|[| |truthy'|d'|[err|plugin] d']|[err|plugin] d];
    cbn beta iota zeta delta [isTruthy]; try reflexivity.
  all: try (destruct truthy'; reflexivity).
  all: destruct d as [| |[|]|?|[?|?] ?]; reflexivity.
Qed.

Ltac emits_footprint :=
  unfold codegenRunner.create, codegenRunner.compileAll,
    codegenRunner.watchAll, WatchmanClient.isAvailable, console.log,
    process.cwd, getFilepathsFromGlob, getSchema, fs.readFileSync, JSON.parse,
    buildClientSchema, printSchema, parse, buildASTSchema;
  repeat first
    [ emits_helper
    | progress emits
    | apply emits_when
    | apply emits_emit; first [reflexivity | apply String.eqb_refl]
    | apply emits_exit; reflexivity ].

(** X20: a run reads no file but the schema, loads no module but
    fast-glob, for its file searches, and the language plugin, when the
    language is not the built-in one, and searches for files nowhere but
    under the source directory. *)
Theorem run_footprint (options : Options.t) (w : World.t) :
  let tr := snd (run options w []) in
  (forall p, In (ReadFileSync p) tr ->
     p = path.resolve (World.cwd w) (Options.schema options))
  /\ (forall p, In (Require p) tr ->
        p = "fast-glob"
        \/ (Options.language options <> "javascript"
            /\ p = requirePath w (Options.language options)))
  /\ (forall patterns cwd ignore, In (GlobSync patterns cwd ignore) tr ->
        cwd = path.resolve (World.cwd w) (Options.src options)).
Proof.
  intros tr.
  assert (Hall : forallb (footprint w options) tr = true).
  { subst tr. destruct (run options w []) as [out tr] eqn:H. cbn [snd].
    set (Post := fun (_ : Outcome unit) (tr : list event) =>
           forallb (footprint w options) tr = true).
    change (Post out tr).
    apply (holds_run w (footprint w options) Post (run options) out tr);
      [clear H|exact H].
    assert (Hvac : Vacuous (footprint w options) Post)
      by (intros o t Ht; exact Ht).
    unfold run. unfold process.cwd.
    repeat first
      [ apply holds_bind_ask; cbn zeta
      | apply holds_bind; [solve [emits_footprint] | exact Hvac | intros ?];
        cbn zeta
      | apply (holds_bind_in _ _ _ _ _ _ (emits_getLanguagePlugin _));
        [ rewrite getLanguagePlugin_calls; unfold footprint;
          destruct (String.eqb (Options.language options) "javascript");
          [reflexivity
          | cbn; rewrite String.eqb_refl, orb_true_r; reflexivity]
        | exact Hvac | intros ?]; cbn zeta ].
    apply holds_emits. emits_footprint. }
  rewrite forallb_forall in Hall.
  split; [|split].
  - intros p Hin. apply Hall in Hin. apply String.eqb_eq, Hin.
  - intros p Hin. apply Hall in Hin. cbn in Hin.
    apply orb_true_iff in Hin as [Hin|Hin].
    + left. apply String.eqb_eq, Hin.
    + right. apply andb_true_iff in Hin as [Hlanguage Hp]. split.
      * apply negb_true_iff, String.eqb_neq in Hlanguage. exact Hlanguage.
      * apply String.eqb_eq, Hp.
  - intros patterns cwd ignore Hin. apply Hall in Hin.
    apply String.eqb_eq, Hin.
Qed.

End Footprint.

(** ** Failures of the loaders *)

Definition isRequire `{Library} (e : event) : bool :=
  match e with
  | Require _ => true
  | _ => false
  end.

Section LoadingFailures.

Context {L : Library} {P : path.ops}.

Lemma forallb_weaken (Q Q' : event -> bool) (tr : list event) :
  (forall e, Q e = true -> Q' e = true) ->
  forallb Q tr = true -> forallb Q' tr = true.
Proof.
  intros HQ H. rewrite forallb_forall in *. auto.
Qed.

(** X21: in a run that got past the option checks, an error of the schema
    loader or, the schema loaded, of the plugin resolver is the error of
    the run, as it is; no file search is made and the engine is not built,
    and when it is the schema that fails no module is loaded. *)
Theorem run_loading_failure (options : Options.t) (w : World.t) (e : JsError) :
  let schemaPath := path.resolve (World.cwd w) (Options.schema options) in
  let out := fst (run options w []) in
  let tr := snd (run options w []) in
  let reporter :=
    {| ConsoleReporter.verbose := Options.verbose options;
       ConsoleReporter.quiet := Options.quiet options |} in
  In (NewConsoleReporter reporter) tr ->
  fst (getSchema schemaPath w []) = Threw e
  \/ ((exists schema, fst (getSchema schemaPath w []) = Returned schema)
      /\ fst (getLanguagePlugin (Options.language options) w []) = Threw e) ->
  out = Threw e
  /\ forallb beforeSearches tr = true
  /\ (fst (getSchema schemaPath w []) = Threw e ->
      forallb (fun e => negb (isRequire e)) tr = true).
Proof.
  intros schemaPath out tr reporter. subst out tr.
  destruct (run options w []) as [out tr] eqn:H. cbn [fst snd].
  set (Post := fun (out : Outcome unit) (tr : list event) =>
    In (NewConsoleReporter reporter) tr ->
    fst (getSchema schemaPath w []) = Threw e
    \/ ((exists schema, fst (getSchema schemaPath w []) = Returned schema)
        /\ fst (getLanguagePlugin (Options.language options) w []) = Threw e) ->
    out = Threw e
    /\ forallb beforeSearches tr = true
    /\ (fst (getSchema schemaPath w []) = Threw e ->
        forallb (fun e => negb (isRequire e)) tr = true)).
  change (Post out tr).
  apply (holds_run w isExistsSync Post (run options) out tr); [clear H|exact H].
  assert (Hvac : Vacuous isExistsSync Post).
  { intros o t Hall Hin. exfalso.
    rewrite forallb_forall in Hall. apply Hall in Hin. discriminate Hin. }
  unfold run. unfold process.cwd.
  holds_prefix Hvac.
  clear Hvac. subst Post. intros tr0 Htr0 out' tr' H _ Hfail.
  assert (Htr0' : forallb (fun e => negb (isRequire e)) tr0 = true)
    by (revert Htr0; apply forallb_weaken;
        intros []; first [reflexivity | discriminate]).
  apply (forallb_weaken isExistsSync beforeSearches) in Htr0;
    [|intros []; first [reflexivity | discriminate]].
  rewrite (bind_returned _ _ _ _ tt _ eq_refl) in H.
  assert (Hwatchman :
    exists new,
      (if Options.watchman options then WatchmanClient.isAvailable
       else ret false) w (tr0 ++ [NewConsoleReporter reporter])
      = (Returned (Options.watchman options && World.watchmanIsAvailable w),
         (tr0 ++ [NewConsoleReporter reporter]) ++ new)
      /\ forallb beforeSearches new = true
      /\ forallb (fun e => negb (isRequire e)) new = true).
  { destruct (Options.watchman options).
    - exists [WatchmanIsAvailable]. repeat split; reflexivity.
    - exists []. rewrite app_nil_r. repeat split; reflexivity. }
  destruct Hwatchman as (new & Hwatchman & Hnew & Hnew').
  rewrite (bind_returned _ _ _ _ _ _ Hwatchman) in H.
  unfold bind at 1 in H.
  destruct (emits_getSchema schemaPath w
              ((tr0 ++ [NewConsoleReporter reporter]) ++ new)) as [Heq HQ].
  fold schemaPath in H. rewrite Heq in H.
  assert (HQ' : forallb (fun e => negb (isRequire e))
                  (snd (getSchema schemaPath w [])) = true)
    by (revert HQ; apply forallb_weaken;
        intros []; first [reflexivity | discriminate]).
  apply (forallb_weaken isSchemaCall beforeSearches) in HQ;
    [|intros []; first [reflexivity | discriminate]].
  destruct Hfail as [Hschema|[[schema Hschema] Hplugin]];
    rewrite Hschema in H.
  - injection H as <- <-. split; [reflexivity|]. split; intros.
    + rewrite !forallb_app, Htr0, Hnew, HQ. reflexivity.
    + rewrite !forallb_app, Htr0', Hnew', HQ'. reflexivity.
  - unfold bind at 1 in H.
    match type of H with
    | context [getLanguagePlugin ?l w ?t] =>
        destruct (emits_getLanguagePlugin l w t) as [Heq' HQp]
    end.
    rewrite Heq', Hplugin in H.
    apply (forallb_weaken isPluginCall beforeSearches) in HQp;
      [|intros []; first [reflexivity | discriminate]].
    injection H as <- <-. split; [reflexivity|]. split.
    + rewrite !forallb_app, Htr0, Hnew, HQ, HQp. reflexivity.
    + intros Hthrew. rewrite Hschema in Hthrew. discriminate Hthrew.
Qed.

(** X24: in a run that got past the option checks, loaded the schema
    and resolved the language plugin, and that does not find its files
    through watchman, if fast-glob cannot be loaded, the error of the load
    is the error of the run, as it is; no file search is made and the
    engine is not built. *)
Theorem run_fast_glob_failure (options : Options.t) (w : World.t)
    (e : JsError) :
  let schemaPath := path.resolve (World.cwd w) (Options.schema options) in
  let out := fst (run options w []) in
  let tr := snd (run options w []) in
  let reporter :=
    {| ConsoleReporter.verbose := Options.verbose options;
       ConsoleReporter.quiet := Options.quiet options |} in
  In (NewConsoleReporter reporter) tr ->
  (exists schema, fst (getSchema schemaPath w []) = Returned schema) ->
  (exists plugin,
     fst (getLanguagePlugin (Options.language options) w []) = Returned plugin) ->
  Options.watchman options && World.watchmanIsAvailable w = false ->
  World.require w "fast-glob" = inl e ->
  out = Threw e
  /\ In (Require "fast-glob") tr
  /\ forallb beforeSearches tr = true.
Proof.
  intros schemaPath out tr reporter. subst out tr.
  destruct (run options w []) as [out tr] eqn:H. cbn [fst snd].
  intros Hin [schema Hschema] [plugin Hplugin] Hwithout Hload.
  revert Hin.
  set (Post := fun (out : Outcome unit) (tr : list event) =>
    In (NewConsoleReporter reporter) tr ->
    out = Threw e
    /\ In (Require "fast-glob") tr
    /\ forallb beforeSearches tr = true).
  change (Post out tr).
  apply (holds_run w isExistsSync Post (run options) out tr); [clear H|exact H].
  assert (Hvac : Vacuous isExistsSync Post).
  { intros o t Hall Hin. exfalso.
    rewrite forallb_forall in Hall. apply Hall in Hin. discriminate Hin. }
  unfold run. unfold process.cwd.
  holds_prefix Hvac.
  clear Hvac. subst Post. intros tr0 Htr0 out' tr' H _.
  apply (forallb_weaken isExistsSync beforeSearches) in Htr0;
    [|intros []; first [reflexivity | discriminate]].
  rewrite (bind_returned _ _ _ _ tt _ eq_refl) in H.
  assert (Hwatchman :
    exists new,
      (if Options.watchman options then WatchmanClient.isAvailable
       else ret false) w (tr0 ++ [NewConsoleReporter reporter])
      = (Returned (Options.watchman options && World.watchmanIsAvailable w),
         (tr0 ++ [NewConsoleReporter reporter]) ++ new)
      /\ forallb beforeSearches new = true).
  { destruct (Options.watchman options).
    - exists [WatchmanIsAvailable]. repeat split; reflexivity.
    - exists []. rewrite app_nil_r. repeat split; reflexivity. }
  destruct Hwatchman as (new & Hwatchman & Hnew).
  rewrite (bind_returned _ _ _ _ _ _ Hwatchman) in H.
  rewrite Hwithout in H.
  destruct (emits_getSchema schemaPath w
              ((tr0 ++ [NewConsoleReporter reporter]) ++ new)) as [Heq HQ].
  rewrite Hschema in Heq. fold schemaPath in H.
  rewrite (bind_returned _ _ _ _ _ _ Heq) in H.
  apply (forallb_weaken isSchemaCall beforeSearches) in HQ;
    [|intros []; first [reflexivity | discriminate]].
  cbn beta in H. unfold bind at 1 in H.
  match type of H with
  | context [getLanguagePlugin ?l w ?t] =>
      destruct (emits_getLanguagePlugin l w t) as [Heq' HQp]
  end.
  rewrite Heq', Hplugin in H. cbn beta iota in H.
  apply (forallb_weaken isPluginCall beforeSearches) in HQp;
    [|intros []; first [reflexivity | discriminate]].
  assert (Hdirectory :
    forall t,
      match Options.artifactDirectory options with
      | Some providedArtifactDirectory =>
          bind (ask World.cwd) (fun cwd =>
            ret (Some (path.resolve cwd providedArtifactDirectory)))
      | None => ret None
      end w t
      = (Returned (option_map (path.resolve (World.cwd w))
                     (Options.artifactDirectory options)), t))
    by (intros t; destruct (Options.artifactDirectory options); reflexivity).
  rewrite (bind_returned _ _ _ _ _ _ (Hdirectory _)) in H.
  cbn beta iota zeta in H.
  unfold bind at 1 2, getFilepathsFromGlob in H.
  unfold_calls_in H. cbn beta iota zeta in H.
  rewrite Hload in H. cbn beta iota zeta in H.
  injection H as <- <-. split; [reflexivity|]. split.
  - rewrite !in_app_iff. right. left. reflexivity.
  - rewrite !forallb_app, Htr0, Hnew, HQ, HQp. reflexivity.
Qed.

End LoadingFailures.

(** ** The order of the calls *)

(** The two methods that run the engine. *)
Definition isEngineRun `{Library} (e : event) : bool :=
  match e with
  | CompileAll _ | WatchAll _ => true
  | _ => false
  end.

(** The load of fast-glob. *)
Definition isRequireFastGlob `{Library} (e : event) : bool :=
  match e with
  | Require p => String.eqb p "fast-glob"
  | _ => false
  end.

(** The phases of a run, by the calls made in each; the two file
    searches are one phase each, after the load of fast-glob of each. *)
Definition phases `{Library} : list (event -> bool) :=
  [isExistsSync; isNewConsoleReporter; isWatchmanIsAvailable; isSchemaCall;
   isPluginCall; isRequireFastGlob; isGlobSync; isRequireFastGlob; isGlobSync;
   isNewCodegenRunner; isConsoleLog; isEngineRun; isExit].

(** The trace is made of one segment, possibly empty, for each phase, in
    the order of the phases. *)
Fixpoint inPhases `{Library} (ps : list (event -> bool)) (tr : list event)
    : Prop :=
  match ps with
  | [] => tr = []
  | p :: ps' =>
      exists segment rest,
        tr = segment ++ rest
        /\ forallb p segment = true
        /\ inPhases ps' rest
  end.

Section Order.

Context {L : Library} {P : path.ops}.

Lemma inPhases_nil (ps : list (event -> bool)) : inPhases ps [].
Proof.
  induction ps as [|p ps IH]; [reflexivity|].
  exists [], []. repeat split. exact IH.
Qed.

Lemma inPhases_extend (ps qs : list (event -> bool)) (tr : list event) :
  inPhases ps tr -> inPhases (ps ++ qs) tr.
Proof.
  revert tr. induction ps as [|p ps IH]; intros tr H.
  - cbn in H. subst tr. apply inPhases_nil.
  - destruct H as (segment & rest & -> & Hp & Hrest).
    exists segment, rest. repeat split; auto.
Qed.

Lemma inPhases_last (ps : list (event -> bool)) (q : event -> bool)
    (tr new : list event) :
  inPhases (ps ++ [q]) tr -> forallb q new = true ->
  inPhases (ps ++ [q]) (tr ++ new).
Proof.
  revert tr. induction ps as [|p ps IH]; intros tr H Hnew.
  - destruct H as (segment & rest & -> & Hq & Hrest).
    cbn in Hrest. subst rest. rewrite app_nil_r.
    exists (segment ++ new), []. rewrite app_nil_r.
    repeat split. rewrite forallb_app, Hq, Hnew. reflexivity.
  - destruct H as (segment & rest & -> & Hp & Hrest).
    exists segment, (rest ++ new). rewrite app_assoc.
    repeat split; auto.
Qed.

(** The phases [done], last first, are those gone through; [todo] are
    those to come. *)
Definition upTo (done todo : list (event -> bool)) (tr : list event) : Prop :=
  List.rev done ++ todo = phases /\ inPhases (List.rev done) tr.

Definition HoldsFrom {A} (w : World.t) (Pre : list event -> Prop)
    (Post : Outcome A -> list event -> Prop) (m : M A) : Prop :=
  forall tr0, Pre tr0 -> forall out tr, m w tr0 = (out, tr) -> Post out tr.

Definition ordered {A} (_ : Outcome A) (tr : list event) : Prop :=
  inPhases phases tr.

Lemma upTo_ordered {A} done todo (out : Outcome A) tr :
  upTo done todo tr -> ordered out tr.
Proof.
  intros [Hphases H]. unfold ordered. rewrite <- Hphases.
  apply inPhases_extend, H.
Qed.

Lemma upTo_stay q done todo tr new :
  upTo (q :: done) todo tr -> forallb q new = true ->
  upTo (q :: done) todo (tr ++ new).
Proof.
  intros [Hphases H] Hnew. split; [exact Hphases|].
  cbn [List.rev] in *. apply inPhases_last; assumption.
Qed.

Lemma holdsFrom_ask {A B} w Pre (Post : Outcome B -> list event -> Prop)
    (f : World.t -> A) (k : A -> M B) :
  HoldsFrom w Pre Post (k (f w)) -> HoldsFrom w Pre Post (bind (ask f) k).
Proof. intros Hk tr0 Htr0 out tr H. apply (Hk tr0 Htr0 out tr H). Qed.

(** A step within the current phase. *)
Lemma holdsFrom_stay {A B} w q done todo (m : M A) (k : A -> M B) :
  Emits q m ->
  (forall a, HoldsFrom w (upTo (q :: done) todo) ordered (k a)) ->
  HoldsFrom w (upTo (q :: done) todo) ordered (bind m k).
Proof.
  intros Hm Hk tr0 Htr0 out tr H. unfold bind in H.
  destruct (m w tr0) as [o t] eqn:E.
  apply (emits_inv _ _ _ _ _ _ Hm) in E. destruct E as (new & -> & _ & HQ).
  pose proof (upTo_stay _ _ _ _ _ Htr0 HQ) as Hall.
  destruct o; try (injection H as <- <-; apply (upTo_ordered _ _ _ _ Hall)).
  apply (Hk a _ Hall _ _ H).
Qed.

Lemma holdsFrom_end {A} w q done todo (m : M A) :
  Emits q m -> HoldsFrom w (upTo (q :: done) todo) ordered m.
Proof.
  intros Hm tr0 Htr0 out tr H.
  apply (emits_inv _ _ _ _ _ _ Hm) in H. destruct H as (new & -> & _ & HQ).
  apply (upTo_ordered _ _ _ _ (upTo_stay _ _ _ _ _ Htr0 HQ)).
Qed.

(** A step made of steps. *)
Lemma holdsFrom_assoc {A B C} w Pre (Post : Outcome C -> list event -> Prop)
    (m : M A) (f : A -> M B) (k : B -> M C) :
  HoldsFrom w Pre Post (bind m (fun a => bind (f a) k)) ->
  HoldsFrom w Pre Post (bind (bind m f) k).
Proof.
  intros Hm tr0 Htr0 out tr H. apply (Hm tr0 Htr0 out tr).
  rewrite <- H. unfold bind.
  destruct (m w tr0) as [[a|e|c|] t]; reflexivity.
Qed.

(** On to the next phase. *)
Lemma holdsFrom_next {A} w q done todo (m : M A) :
  HoldsFrom w (upTo (q :: done) todo) ordered m ->
  HoldsFrom w (upTo done (q :: todo)) ordered m.
Proof.
  intros Hm tr0 [Hphases Htr0]. apply Hm. split.
  - cbn [List.rev]. rewrite <- app_assoc. exact Hphases.
  - cbn [List.rev]. apply inPhases_extend, Htr0.
Qed.

(** A file search: the load of fast-glob, then the search. *)
Lemma holdsFrom_getFilepathsFromGlob {B} w done todo baseDir options
    (k : list string -> M B) :
  (forall a,
     HoldsFrom w (upTo (isGlobSync :: isRequireFastGlob :: done) todo) ordered
       (k a)) ->
  HoldsFrom w (upTo done (isRequireFastGlob :: isGlobSync :: todo)) ordered
    (bind (getFilepathsFromGlob baseDir options) k).
Proof.
  intros Hk. apply holdsFrom_next.
  unfold getFilepathsFromGlob. cbn zeta.
  apply holdsFrom_assoc.
  apply holdsFrom_stay; [apply emits_emit; reflexivity | intros _].
  apply holdsFrom_assoc, holdsFrom_ask.
  apply holdsFrom_assoc.
  apply holdsFrom_stay; [apply emits_lift | intros glob].
  apply holdsFrom_next.
  apply holdsFrom_assoc.
  apply holdsFrom_stay; [apply emits_emit; reflexivity | intros _].
  apply holdsFrom_assoc, holdsFrom_ask.
  apply holdsFrom_stay; [apply emits_lift | exact Hk].
Qed.

(** X22: the calls of a run come in the order of the phases: the checks of
    paths; the construction of the reporter; the question to the watchman
    client; the calls of the schema loader; those of the plugin resolver;
    the load of fast-glob and the search for the source files; the load of
    fast-glob and the search for the [.graphql] files; the construction of
    the engine; the hint; the run of the engine; the exit. *)
Theorem run_calls_in_order (options : Options.t) (w : World.t) :
  inPhases phases (snd (run options w [])).
Proof.
  destruct (run options w []) as [out tr] eqn:H. cbn [snd].
  change (ordered out tr).
  assert (Hrun : HoldsFrom w (upTo [] phases) ordered (run options)).
  { clear H. unfold run. unfold process.cwd.
    repeat first
      [ apply holdsFrom_ask; cbn beta iota zeta
      | apply holdsFrom_stay; [solve [emits_rest] | intros ?];
        cbn beta iota zeta
      | apply holdsFrom_end; solve [emits_rest]
      | match goal with
        | |- HoldsFrom _ _ _ (bind (if ?b then ret None else _) _) =>
            destruct b
        | |- HoldsFrom _ _ _ (bind (bind (getFilepathsFromGlob _ _) _) _) =>
            apply holdsFrom_assoc, holdsFrom_getFilepathsFromGlob;
            intros ?; cbn beta iota zeta
        end
      | apply holdsFrom_next ]. }
  apply (Hrun [] (conj eq_refl (inPhases_nil _)) out tr H).
Qed.

End Order.

(** ** When a run returns *)

Section Returning.

Context {L : Library} {P : path.ops}.

(** X23: a run returns, leaving the process to end on its own, only
    after the engine has run and has answered: the method called is
    [watchAll] when [watch] is set and [compileAll] otherwise, its answer
    is not [ERROR] and, when [validate] is set, it is [NO_CHANGES]. *)
Theorem run_returns_after_engine (options : Options.t) (w : World.t) :
  let out := fst (run options w []) in
  let tr := snd (run options w []) in
  out = Returned tt ->
  exists runner result,
    (if truthy (Options.watch options)
     then In (WatchAll runner) tr /\ World.watchAll w runner = inr result
     else In (CompileAll runner) tr /\ World.compileAll w runner = inr result)
    /\ strictEq result "ERROR" = false
    /\ (Options.validate options = true -> strictEq result "NO_CHANGES" = true).
Proof.
  destruct (run options w []) as [out tr] eqn:H. cbn [fst snd]. cbn zeta.
  set (Post := fun (out : Outcome unit) (tr : list event) =>
    out = Returned tt ->
    exists runner result,
      (if truthy (Options.watch options)
       then In (WatchAll runner) tr /\ World.watchAll w runner = inr result
       else In (CompileAll runner) tr /\ World.compileAll w runner = inr result)
      /\ strictEq result "ERROR" = false
      /\ (Options.validate options = true ->
          strictEq result "NO_CHANGES" = true)).
  assert (Hvac : forall e t, forallb beforeEngine t = true -> Post (Threw e) t)
    by (intros e t _ Hout; discriminate Hout).
  change (Post out tr).
  apply (holds_run w beforeEngine Post (run options) out tr); [clear H|exact H].
  unfold run; unfold process.cwd.
  holds_prefix_settles Hvac.
  match goal with
  | |- Holds _ _ _ (bind (codegenRunner.create ?args) _) =>
      let r := fresh "args" in generalize args; intros r
  end.
  clear Hvac. subst Post. intros tr0 Htr0 out' tr' H Hout.
  exec H.
  all: injection H as <- <-.
  all: try discriminate Hout.
  all: exists args.
  all: match goal with
       | E : World.compileAll _ _ = inr ?r |- _ => exists r
       | E : World.watchAll _ _ = inr ?r |- _ => exists r
       end.
  all: repeat match goal with
              | E : truthy _ = _ |- _ => rewrite E
              end.
  all: repeat apply conj; try assumption.
  all: try (rewrite !in_app_iff; cbn [In]; tauto).
  all: intros Hvalidate.
  all: try congruence.
  all: repeat match goal with
              | E : _ && _ = _ |- _ => rewrite Hvalidate in E; cbn [andb] in E
              | E : negb _ = false |- _ => apply negb_false_iff in E
              end.
  all: first [assumption | congruence].
Qed.

End Returning.

(** ** The conversion of an introspection file *)

(** The calls that turn introspection data into schema text. *)
Definition isConversionCall `{Library} (e : event) : bool :=
  match e with
  | JsonParse _ | BuildClientSchema _ | PrintSchema _ => true
  | _ => false
  end.

Section Conversion.

Context {L : Library} {P : path.ops}.

(** X25: when the schema loader gives a text to the parser for a path
    with the extension [.json], the file was read, its contents parsed
    as JSON, the [data] of the result made a schema and that schema
    printed, in this order and each with success, and the text is the
    two declarations, the printed schema and the closing line.  For any
    other extension no call of the conversion is made, and a text given
    to the parser is the two declarations, the contents of the file and
    the closing line, right after the read. *)
Theorem getSchema_conversion (schemaPath : string) (w : World.t) :
  let tr := snd (getSchema schemaPath w []) in
  (path.extname schemaPath = ".json" ->
   forall text, In (Parse text) tr ->
     exists contents json data clientSchema sdl rest,
       World.readFileSync w schemaPath = inr contents
       /\ Lib.JSON_parse contents = inr json
       /\ Lib.get_data json = inr data
       /\ Lib.buildClientSchema data = inr clientSchema
       /\ Lib.printSchema clientSchema = inr sdl
       /\ text = schemaPrelude +:+ sdl +:+ schemaEpilogue
       /\ tr = [ReadFileSync schemaPath; JsonParse contents;
                BuildClientSchema data; PrintSchema clientSchema; Parse text]
               ++ rest)
  /\ (path.extname schemaPath <> ".json" ->
      forallb (fun e => negb (isConversionCall e)) tr = true
      /\ forall text, In (Parse text) tr ->
           exists contents rest,
             World.readFileSync w schemaPath = inr contents
             /\ text = schemaPrelude +:+ contents +:+ schemaEpilogue
             /\ tr = [ReadFileSync schemaPath; Parse text] ++ rest).
Proof.
  intros tr. subst tr.
  destruct (getSchema schemaPath w []) as [out tr] eqn:H. cbn [snd].
  unfold_getSchema_in H.
  repeat exec_step H.
  all: cbn beta iota zeta in H; injection H as <- <-.
  all: repeat match goal with
       | E : String.eqb _ _ = true |- _ => apply String.eqb_eq in E
       | E : String.eqb _ _ = false |- _ => apply String.eqb_neq in E
       end.
  all: split; [intros Hext | intros Hext; split; [|]].
  all: try contradiction.
  all: lazymatch goal with
       | |- forallb _ _ = true => reflexivity
       | |- forall text, In (Parse text) _ -> _ =>
           intros text Hin; cbn [In] in Hin;
           repeat (destruct Hin as [Hin|Hin]; try discriminate Hin);
           first
             [ contradiction
             | injection Hin as <-;
               repeat eexists; try eassumption; reflexivity ]
       end.
Qed.

End Conversion.

(** ** The further properties at work *)

Module Installation.
Import Example.
#[local] Existing Instance library.

Definition typescript : Plugin.t :=
  {| Plugin.inputExtensions := ["ts"; "tsx"];
     Plugin.outputExtension := "ts";
     Plugin.findGraphQLTags := tt;
     Plugin.formatModule := tt;
     Plugin.typeGenerator := tt |}.

(** The modules that can be loaded: fast-glob, the typescript plugin as a package
    with a [default] export, a plugin in a file of the project that is
    the initializer itself, and a package that is a function with a
    [default] export that is not one. *)
Definition modules (name : string) : Res JsValue :=
  if String.eqb name "fast-glob" then inr (Object Undefined)
  else if String.eqb name "relay-compiler-language-typescript"
  then inr (Object (Function (inr typescript) Undefined))
  else if String.eqb name "/app/plugin.js"
  then inr (Function (inr typescript) Undefined)
  else if String.eqb name "relay-compiler-language-odd"
  then inr (Function (inr typescript) (Primitive true))
  else inl (moduleNotFound name).

Definition engineError : JsError :=
  {| message := "Maximum call stack size exceeded";
     stack := "RangeError: Maximum call stack size exceeded" |}.

Definition globError : JsError :=
  {| message := "EACCES: permission denied, scandir '/app/src/private'";
     stack := "Error: EACCES: permission denied, scandir '/app/src/private'" |}.

(** The machine of the examples with modules to load, and with an
    engine and a file search that may fail. *)
Definition machineWith (paths : list string) (searchFails engineFails : bool)
    : World.t :=
  let w := machine paths files None in
  {| World.cwd := World.cwd w;
     World.existsSync := World.existsSync w;
     World.readFileSync := World.readFileSync w;
     World.require := modules;
     World.watchmanIsAvailable := World.watchmanIsAvailable w;
     World.globSync := fun patterns cwd ignore =>
       if searchFails then inl globError else World.globSync w patterns cwd ignore;
     World.compileAll := fun runner =>
       if engineFails then inl engineError else World.compileAll w runner;
     World.watchAll := World.watchAll w;
     World.captureStack := World.captureStack w;
     World.nullishTypeError := World.nullishTypeError w;
     World.RelayLanguagePluginJavascript := World.RelayLanguagePluginJavascript w |}.

(** The machine of the examples with no module to load, not even
    fast-glob. *)
Definition machineWithoutModules : World.t :=
  let w := machine project files None in
  {| World.cwd := World.cwd w;
     World.existsSync := World.existsSync w;
     World.readFileSync := World.readFileSync w;
     World.require := fun name => inl (moduleNotFound name);
     World.watchmanIsAvailable := World.watchmanIsAvailable w;
     World.globSync := World.globSync w;
     World.compileAll := World.compileAll w;
     World.watchAll := World.watchAll w;
     World.captureStack := World.captureStack w;
     World.nullishTypeError := World.nullishTypeError w;
     World.RelayLanguagePluginJavascript := World.RelayLanguagePluginJavascript w |}.

Definition withoutWatchman : Options.t :=
  optionsWith "schema.graphql" false false None false false "javascript".

(** The project with a plugin of its own. *)
Definition projectWithPlugin : list string :=
  ["/app/schema.graphql"; "/app/src"; "/app/plugin.js"].

(** A schema in the project, the sources at the root of the file system,
    in a repository. *)
Definition sourcesAtRoot : list string := ["/app/schema.graphql"; "/"; "/.git"].

Definition watchingWithoutWatchman : Options.t :=
  optionsWith "schema.graphql" false false (Some true) false false "javascript".

Definition watchingTheRoot : Options.t :=
  {| Options.schema := "schema.graphql";
     Options.src := "/";
     Options.extensions := None;
     Options.include := ["**"];
     Options.exclude := [];
     Options.verbose := false;
     Options.watchman := true;
     Options.watch := Some true;
     Options.validate := false;
     Options.quiet := false;
     Options.noFutureProofEnums := false;
     Options.language := "javascript";
     Options.artifactDirectory := None;
     Options.customScalars := ∅ |}.

End Installation.

Section Finding2.

Context {L : Library}.

Lemma globSync_in_trace (tr : list event) :
  existsb isGlobSync tr = true ->
  exists patterns cwd ignore, In (GlobSync patterns cwd ignore) tr.
Proof.
  intros H. apply existsb_exists in H. destruct H as [e [Hin He]].
  destruct e; try discriminate He. eexists _, _, _. exact Hin.
Qed.

Lemma writer_in_trace (tr : list event) (extension : string) :
  existsb (fun e =>
             match e with
             | NewCodegenRunner args =>
                 match CodegenRunner.writerConfigs args !! extension with
                 | Some _ => true
                 | None => false
                 end
             | _ => false
             end) tr = true ->
  exists args writer,
    In (NewCodegenRunner args) tr
    /\ CodegenRunner.writerConfigs args !! extension = Some writer.
Proof.
  intros H. apply existsb_exists in H. destruct H as [e [Hin He]].
  destruct e; try discriminate He.
  destruct (CodegenRunner.writerConfigs args !! extension) as [writer|] eqn:E;
    [|discriminate He].
  exists args, writer. split; assumption.
Qed.

End Finding2.

Section ExtrasOnPosix.

Import Example Installation.
#[local] Existing Instance library.

(** X3 at work: a package is loaded under its prefixed name. *)
Lemma getLanguagePlugin_loads_one_module_witness :
  exists out,
    getLanguagePlugin "typescript" (machineWith project false false) []
    = (out, [ExistsSync "/app/typescript";
             Require "relay-compiler-language-typescript"]).
Proof.
  destruct (getLanguagePlugin_loads_one_module "typescript"
              (machineWith project false false) ltac:(discriminate))
    as (out & Hrun & _).
  exists out. exact Hrun.
Defined.

(** X4 at work: a plugin in a file of the project. *)
Lemma getLanguagePlugin_calls_module_witness :
  fst (getLanguagePlugin "plugin.js" (machineWith projectWithPlugin false false) [])
  = Returned typescript.
Proof.
  exact (getLanguagePlugin_calls_module "plugin.js"
           (machineWith projectWithPlugin false false)
           (inr typescript) Undefined ltac:(discriminate) eq_refl eq_refl).
Defined.

(** X5 at work: a function with a [default] export that is not a
    function. *)
Lemma getLanguagePlugin_default_first_witness :
  fst (getLanguagePlugin "odd" (machineWith project false false) [])
  = Threw (pluginLoadError "relay-compiler-language-odd"
             (newError (machineWith project false false)
                "Expected plugin to export a function.")).
Proof.
  exact (getLanguagePlugin_default_first "odd"
           (machineWith project false false)
           (Function (inr typescript) (Primitive true)) (Primitive true)
           ltac:(discriminate) eq_refl
           (or_intror (ex_intro _ (inr typescript) eq_refl)) eq_refl).
Defined.

(** X7 at work: [watch] without [watchman] on the project. *)
Lemma run_watch_needs_watchman_witness :
  run watchingWithoutWatchman (machine project files None) []
  = (Threw (newError (machine project files None)
              "Watchman is required to watch for changes."),
     [ExistsSync "/app/schema.graphql"; ExistsSync "/app/src"]).
Proof.
  exact (run_watch_needs_watchman watchingWithoutWatchman
           (machine project files None) eq_refl eq_refl eq_refl eq_refl).
Defined.

(** X8 at work: the sources are at the root of the file system,
    which has a [.git] entry; the run is refused all the same. *)
Lemma run_watch_at_top_directory_witness :
  World.existsSync (machine sourcesAtRoot files None) "/.git" = true
  /\ run watchingTheRoot (machine sourcesAtRoot files None) []
     = (Threw (newError (machine sourcesAtRoot files None)
                 (rootFileMessage
                    (path.resolve (World.cwd (machine sourcesAtRoot files None))
                       (Options.src watchingTheRoot)))),
        [ExistsSync "/app/schema.graphql"; ExistsSync "/"]).
Proof.
  split; [reflexivity|].
  exact (run_watch_at_top_directory watchingTheRoot
           (machine sourcesAtRoot files None)
           eq_refl eq_refl eq_refl eq_refl eq_refl).
Defined.

(** X12 at work: the engine fails with a range error. *)
Lemma run_engine_failure_witness :
  fst (run options (machineWith project false true) []) = Threw engineError.
Proof.
  set (w := machineWith project false true).
  destruct (compileAll_in_trace (snd (run options w []))) as [runner Hin];
    [vm_compute; reflexivity|].
  exact (proj1 (run_engine_failure options w runner engineError
                  (or_introl (conj Hin eq_refl)))).
Defined.

(** X13 at work: a directory of the sources cannot be read. *)
Lemma run_search_failure_witness :
  fst (run options (machineWith project true false) []) = Threw globError.
Proof.
  set (w := machineWith project true false).
  destruct (globSync_in_trace (snd (run options w [])))
    as (patterns & cwd & ignore & Hin); [vm_compute; reflexivity|].
  exact (proj1 (run_search_failure options w patterns cwd ignore globError
                  Hin eq_refl)).
Defined.

(** X15 at work: the engine of a plain run. *)
Lemma run_engine_arguments_witness :
  exists args,
    In (NewCodegenRunner args) (snd (run options (machine project files None) []))
    /\ CodegenRunner.onlyValidate args = false
    /\ CodegenRunner.sourceControl args = None
    /\ forall name config,
         CodegenRunner.parserConfigs args !! name = Some config ->
         ParserConfig.baseDir config = "/app/src"
         /\ ParserConfig.getSchema config
            = schemaPrelude +:+ sdl +:+ schemaEpilogue.
Proof.
  set (w := machine project files None).
  destruct (newCodegenRunner_in_trace (snd (run options w []))) as [args Hin];
    [vm_compute; reflexivity|].
  destruct (run_engine_arguments options w args Hin)
    as (schema & Hschema & _ & Hvalidate & Hcontrol & Hconfigs).
  injection Hschema as <-.
  exists args. repeat split; try assumption.
  all: apply (Hconfigs name config); assumption.
Defined.

(** X17 at work: the writer of a plain run, for [.js] files, fed by
    the parser of [js] and [jsx] files. *)
Lemma run_writer_configuration_witness :
  exists args writer,
    In (NewCodegenRunner args) (snd (run options (machine project files None) []))
    /\ CodegenRunner.writerConfigs args = {[ "js" := writer ]}
    /\ WriterConfig.parser writer = "js/jsx"
    /\ is_Some (CodegenRunner.parserConfigs args !! "js/jsx").
Proof.
  set (w := machine project files None).
  destruct (newCodegenRunner_in_trace (snd (run options w []))) as [args Hin];
    [vm_compute; reflexivity|].
  destruct (run_writer_configuration options w args Hin)
    as (plugin & writer & Hplugin & Hwriters & Hparser & _ & Hsource & _).
  injection Hplugin as <-.
  exists args, writer. rewrite Hparser in Hsource.
  repeat split; assumption.
Defined.

(** X18 at work: the parsers of a plain run. *)
Lemma run_parser_configurations_witness :
  exists args source,
    In (NewCodegenRunner args) (snd (run options (machine project files None) []))
    /\ CodegenRunner.parserConfigs args !! "js/jsx" = Some source
    /\ ParserConfig.getFileFilter source = Some tt
    /\ forall name,
         is_Some (CodegenRunner.parserConfigs args !! name)
         <-> name = "graphql" \/ name = "js/jsx".
Proof.
  set (w := machine project files None).
  destruct (newCodegenRunner_in_trace (snd (run options w []))) as [args Hin];
    [vm_compute; reflexivity|].
  destruct (run_parser_configurations options w args Hin)
    as (plugin & graphql & Hplugin & _ & _ & _ & Hnames & Hsource).
  injection Hplugin as <-.
  destruct (Hsource ltac:(discriminate)) as (source & Hlookup & _ & Hfilter).
  exists args, source. repeat apply conj; try assumption.
Defined.

(** X19 at work: an artifact of a plain run. *)
Lemma run_generated_files_witness :
  exists args writer,
    In (NewCodegenRunner args) (snd (run options (machine project files None) []))
    /\ CodegenRunner.writerConfigs args !! "js" = Some writer
    /\ WriterConfig.isGeneratedFile writer
         "/app/src/components/__generated__/AppQuery.graphql.js" = true.
Proof.
  set (w := machine project files None).
  destruct (writer_in_trace (snd (run options w [])) "js")
    as (args & writer & Hin & Hwriter); [vm_compute; reflexivity|].
  exists args, writer. split; [exact Hin|]. split; [exact Hwriter|].
  apply (run_generated_files options w args "js" writer _ Hin Hwriter).
  split.
  - exists "/app/src/components/__generated__/AppQuery". reflexivity.
  - exists "/app/src/components/", "/AppQuery.graphql.js". reflexivity.
Defined.

(** X21 at work: the schema file is there but cannot be read. *)
Lemma run_loading_failure_witness :
  exists e,
    fst (getSchema "/app/schema.graphql" (machine project [] None) []) = Threw e
    /\ fst (run options (machine project [] None) []) = Threw e.
Proof.
  eexists. split; [vm_compute; reflexivity|].
  refine (proj1 (run_loading_failure options (machine project [] None) _ _
                   (or_introl _))).
  - vm_compute. right. right. left. reflexivity.
  - vm_compute. reflexivity.
Defined.

(** X24 at work: fast-glob is not installed. *)
Lemma run_fast_glob_failure_witness :
  fst (run withoutWatchman machineWithoutModules [])
  = Threw (moduleNotFound "fast-glob").
Proof.
  refine (proj1 (run_fast_glob_failure withoutWatchman machineWithoutModules
                   (moduleNotFound "fast-glob") _ _ _ _ _)).
  - vm_compute. right. right. left. reflexivity.
  - eexists. vm_compute. reflexivity.
  - eexists. vm_compute. reflexivity.
  - reflexivity.
  - reflexivity.
Defined.

(** X23 at work: a plain run that returns. *)
Lemma run_returns_after_engine_witness :
  exists runner result,
    In (CompileAll runner) (snd (run options (machine project files None) []))
    /\ World.compileAll (machine project files None) runner = inr result
    /\ strictEq result "ERROR" = false.
Proof.
  set (w := machine project files None).
  assert (Hreturns : fst (run options w []) = Returned tt)
    by (vm_compute; reflexivity).
  destruct (run_returns_after_engine options w Hreturns)
    as (runner & result & Hcall & Hresult & _).
  change (In (CompileAll runner) (snd (run options w []))
          /\ World.compileAll w runner = inr result) in Hcall.
  destruct Hcall as [Hin Hanswer].
  exists runner, result. repeat split; assumption.
Defined.

End ExtrasOnPosix.
